(** * IEBus bit-bang utility: message codec, line-signal encoder and
      timeline composer, embedded from IEBusMessage.py, IEBusBitBang.py and
      BitBangUtility.py.

    Python integers are [Z]; a [bytearray]/[bytes] is a list of [Z] whose
    elements are in [0, 256); a [str] is a [string] of ASCII characters;
    Python floats are IEEE-754 binary64 numbers ([PrimFloat.float]).
    A call either returns, raises, or (for the [while] loop of
    [calculateParity] on a negative argument) never returns. *)

From Stdlib Require Import ZArith List Bool Lia String Ascii.
From Stdlib Require Import Uint63 PrimFloat FloatOps SpecFloat.
Import ListNotations.
Local Open Scope Z_scope.

Set Warnings "-inexact-float".

(** ** Outcomes of a Python call *)

(** The exceptions the modelled code can raise. *)
Inductive struct_reason : Type :=
| buffer_too_small     (* "... requires a buffer of at least n bytes ..." *)
| offset_out_of_range  (* negative offset beyond the start of the buffer *)
| number_out_of_range. (* "'L' format requires 0 <= number <= 4294967295" *)

Inductive exn : Type :=
| struct_error (why : struct_reason)
| ValueError
| IndexError.

Inductive outcome (A : Type) : Type :=
| Ret (a : A)
| Raise (e : exn)
| Loop.
Arguments Ret {A} a.
Arguments Raise {A} e.
Arguments Loop {A}.

Definition bind {A B : Type} (m : outcome A) (k : A -> outcome B) : outcome B :=
  match m with
  | Ret a => k a
  | Raise e => Raise e
  | Loop => Loop
  end.

Notation "x <- m ;; k" := (bind m (fun x => k))
  (at level 61, m at next level, right associativity).
Notation "m ;;; k" := (bind m (fun _ => k))
  (at level 61, right associativity).

(** ** Python built-ins used by the code *)

Module Py.

(** [len(l)] *)
Definition len {A : Type} (l : list A) : Z := Z.of_nat (List.length l).

(** [int(a / b)] for integers [a], [b > 0]: true division followed by
    truncation towards zero (exact while the operands are below 2^53). *)
Definition int_div (a b : Z) : Z := Z.quot a b.

(** [l[:n]] *)
Definition slice_to {A : Type} (l : list A) (n : Z) : list A :=
  if n <? 0 then firstn (Z.to_nat (Z.max 0 (len l + n))) l
  else firstn (Z.to_nat n) l.

(** [l[n:]] *)
Definition slice_from {A : Type} (l : list A) (n : Z) : list A :=
  if n <? 0 then skipn (Z.to_nat (Z.max 0 (len l + n))) l
  else skipn (Z.to_nat n) l.

(** Index normalisation of a slice bound ([PySlice_AdjustIndices], step 1). *)
Definition adjust_index (n i : Z) : Z :=
  if i <? 0 then Z.max 0 (i + n) else Z.min i n.

(** [l[start:stop] = v]: the (clipped) slice is replaced by [v]; the list
    grows or shrinks when the lengths differ. *)
Definition slice_assign {A : Type} (l : list A) (start stop : Z) (v : list A)
  : list A :=
  let a := adjust_index (len l) start in
  let b := Z.max a (adjust_index (len l) stop) in
  firstn (Z.to_nat a) l ++ v ++ skipn (Z.to_nat b) l.

(** [l[start:stop]] *)
Definition slice {A : Type} (l : list A) (start stop : Z) : list A :=
  let a := adjust_index (len l) start in
  let b := Z.max a (adjust_index (len l) stop) in
  firstn (Z.to_nat (b - a)) (skipn (Z.to_nat a) l).

(** [[x] * n] and [c * n] on a one-character string: empty when [n <= 0]. *)
Definition replicate {A : Type} (x : A) (n : Z) : list A :=
  List.repeat x (Z.to_nat n).

(** [range(start, stop, step)] for a positive [step]. *)
Definition range (start stop step : Z) : list Z :=
  List.map (fun k => start + step * Z.of_nat k)
           (List.seq 0 (Z.to_nat ((stop - start + step - 1) / step))).

(** [l[-1]] *)
Definition last {A : Type} (l : list A) : outcome A :=
  match List.rev l with
  | x :: _ => Ret x
  | [] => Raise IndexError
  end.

(** A list comprehension whose element expression can raise. *)
Fixpoint comprehension {A B : Type} (f : A -> outcome B) (l : list A)
  : outcome (list B) :=
  match l with
  | [] => Ret []
  | x :: l' =>
      y <- f x ;;
      ys <- comprehension f l' ;;
      Ret (y :: ys)
  end.

(** [bytes(l)]: every element must be in [range(256)]. *)
Definition bytes (l : list Z) : outcome (list Z) :=
  if List.forallb (fun b => (0 <=? b) && (b <? 256)) l then Ret l
  else Raise ValueError.

(** [bool(n)] for an integer, and [int(b)] for a Boolean. *)
Definition truthy (n : Z) : bool := negb (n =? 0).
Definition int_of_bool (b : bool) : Z := if b then 1 else 0.

(** [a << n] and [a >> n]: a negative shift count raises [ValueError]. *)
Definition lshift (a n : Z) : outcome Z :=
  if n <? 0 then Raise ValueError else Ret (Z.shiftl a n).
Definition rshift (a n : Z) : outcome Z :=
  if n <? 0 then Raise ValueError else Ret (Z.shiftr a n).

End Py.

(** ** Strings: [str.split], [str.replace], [int(s, base)], [format] *)

Module PyStr.

Definition code (c : ascii) : Z := Z.of_N (N_of_ascii c).

(** ASCII characters for which [str.isspace] holds. *)
Definition is_space (c : ascii) : bool :=
  let n := code c in
  ((9 <=? n) && (n <=? 13)) || ((28 <=? n) && (n <=? 32)).

(** [s.replace(c, '')] for a one-character [c]. *)
Fixpoint remove_char (c : ascii) (s : string) : string :=
  match s with
  | EmptyString => EmptyString
  | String d s' =>
      if Ascii.eqb d c then remove_char c s' else String d (remove_char c s')
  end.

Definition rev_string (cs : list ascii) : string :=
  string_of_list_ascii (List.rev cs).

(** [s.split()]: maximal runs of non-whitespace characters. *)
Fixpoint split_aux (s : string) (cur : list ascii) : list string :=
  match s with
  | EmptyString =>
      match cur with [] => [] | _ => [rev_string cur] end
  | String c s' =>
      if is_space c then
        match cur with
        | [] => split_aux s' []
        | _ => rev_string cur :: split_aux s' []
        end
      else split_aux s' (c :: cur)
  end.
Definition split (s : string) : list string := split_aux s [].

(** Value of a digit character in bases up to 36. *)
Definition digit_value (c : ascii) : option Z :=
  let n := code c in
  if (48 <=? n) && (n <=? 57) then Some (n - 48)
  else if (97 <=? n) && (n <=? 122) then Some (n - 97 + 10)
  else if (65 <=? n) && (n <=? 90) then Some (n - 65 + 10)
  else None.

(** Digits with single underscores between them; [prev_us] tells whether
    the previous character was an underscore, [seen] whether a digit was
    read. *)
Fixpoint digits (base : Z) (cs : list ascii) (acc : Z) (prev_us seen : bool)
  : option Z :=
  match cs with
  | [] => if prev_us || negb seen then None else Some acc
  | c :: cs' =>
      if Ascii.eqb c "_"%char then
        if prev_us then None else digits base cs' acc true seen
      else
        match digit_value c with
        | Some d =>
            if d <? base then digits base cs' (acc * base + d) false true
            else None
        | None => None
        end
  end.

(** The whitespace [int] skips around a literal: tab, line feed, vertical
    tab, form feed, carriage return and space. The separators 0x1c-0x1f,
    which [str.split] treats as whitespace, are not among them. *)
Definition is_literal_space (c : ascii) : bool :=
  let n := code c in
  ((9 <=? n) && (n <=? 13)) || (n =? 32).

Fixpoint lstrip (cs : list ascii) : list ascii :=
  match cs with
  | c :: cs' => if is_literal_space c then lstrip cs' else cs
  | [] => []
  end.
Definition strip (cs : list ascii) : list ascii :=
  List.rev (lstrip (List.rev (lstrip cs))).

Definition prefix_letter (base : Z) (c : ascii) : bool :=
  ((base =? 16) && (Ascii.eqb c "x"%char || Ascii.eqb c "X"%char))
  || ((base =? 8) && (Ascii.eqb c "o"%char || Ascii.eqb c "O"%char))
  || ((base =? 2) && (Ascii.eqb c "b"%char || Ascii.eqb c "B"%char)).

(** Body of a literal after the sign: optional base prefix (after which one
    underscore is allowed), then no leading underscore, then the digits. *)
Definition unsigned_literal (base : Z) (cs : list ascii) : option Z :=
  let body :=
    match cs with
    | "0"%char :: c :: rest =>
        if prefix_letter base c then
          match rest with
          | "_"%char :: rest' => rest'
          | _ => rest
          end
        else cs
    | _ => cs
    end in
  match body with
  | "_"%char :: _ => None
  | _ => digits base body 0 false false
  end.

(** [int(s, base)] for [base] in 2..36 and an ASCII string, given as the
    list of its characters. *)
Definition int_chars (s : list ascii) (base : Z) : outcome Z :=
  let cs := strip s in
  let r :=
    match cs with
    | "+"%char :: cs' => unsigned_literal base cs'
    | "-"%char :: cs' => option_map Z.opp (unsigned_literal base cs')
    | _ => unsigned_literal base cs
    end in
  match r with
  | Some v => Ret v
  | None => Raise ValueError
  end.

Definition int (s : string) (base : Z) : outcome Z :=
  int_chars (list_ascii_of_string s) base.

Definition digit_char (d : Z) : ascii :=
  ascii_of_N (Z.to_N (if d <? 10 then 48 + d else 97 + d - 10)).

Fixpoint to_digits (fuel : nat) (base n : Z) (acc : list ascii) : list ascii :=
  match fuel with
  | O => acc
  | S k =>
      if n <? base then digit_char n :: acc
      else to_digits k base (n / base) (digit_char (n mod base) :: acc)
  end.

(** [format(n, spec)] for the presentation types [x], [d], [b] with a
    minimum width, padded on the left with [0] (after the sign) when
    [zero] is set and with spaces otherwise. *)
Definition format_chars (zero : bool) (width : nat) (base : Z) (n : Z)
  : list ascii :=
  let ds := to_digits (S (Z.to_nat (Z.log2 (Z.abs n)))) base (Z.abs n) [] in
  let sign := if n <? 0 then ["-"%char] else [] in
  let pad := (width - (List.length sign + List.length ds))%nat in
  if zero then sign ++ List.repeat "0"%char pad ++ ds
  else List.repeat " "%char pad ++ sign ++ ds.

Definition format_int (zero : bool) (width : nat) (base : Z) (n : Z) : string :=
  string_of_list_ascii (format_chars zero width base n).

(** [s.strip(c)] for a one-character [c]: the characters equal to [c] are
    removed from both ends. *)
Fixpoint lstrip_char (c : ascii) (cs : list ascii) : list ascii :=
  match cs with
  | d :: cs' => if Ascii.eqb d c then lstrip_char c cs' else cs
  | [] => []
  end.
Definition strip_char (c : ascii) (cs : list ascii) : list ascii :=
  List.rev (lstrip_char c (List.rev (lstrip_char c cs))).

End PyStr.

(** ** Floats: [int * float], [round] *)

Module PyFloat.

(** Conversion of an integer operand to [float] (exact below 2^53). *)
Definition of_int (z : Z) : float :=
  match z with
  | Z0 => PrimFloat.zero
  | Zpos _ => PrimFloat.of_uint63 (Uint63.of_Z z)
  | Zneg _ => PrimFloat.opp (PrimFloat.of_uint63 (Uint63.of_Z (- z)))
  end.

(** Nearest integer to [m / 2^k], ties to even. *)
Definition round_half_even (m : Z) (k : Z) : Z :=
  let q := m / 2 ^ k in
  let r := m mod 2 ^ k in
  let half := 2 ^ (k - 1) in
  if r <? half then q
  else if half <? r then q + 1
  else if Z.even q then q else q + 1.

(** [round(x)]: the nearest integer, ties to even; infinities and NaN
    raise ([OverflowError] and [ValueError] in Python, both rendered as
    [ValueError] here). *)
Definition round (x : float) : outcome Z :=
  match Prim2SF x with
  | S754_zero _ => Ret 0
  | S754_finite s m e =>
      let a := if 0 <=? e then Zpos m * 2 ^ e
               else round_half_even (Zpos m) (- e) in
      Ret (if s then - a else a)
  | _ => Raise ValueError
  end.

End PyFloat.

(** ** The [struct] module, format ['>L'] *)

Module Struct.

(** Big-endian accumulation of bytes, as [struct] does it. *)
Definition be_value (bs : list Z) : Z :=
  fold_left (fun x b => Z.lor (Z.shiftl x 8) b) bs 0.

Definition be_bytes (v : Z) : list Z :=
  [ Z.land (Z.shiftr v 24) 255; Z.land (Z.shiftr v 16) 255;
    Z.land (Z.shiftr v 8) 255; Z.land v 255 ].

(** Offset handling shared by [unpack_from] and [pack_into], for an offset
    that fits the machine integer [struct] converts it to (below 2^63 in
    absolute value; beyond it the conversion itself fails, before any
    buffer check). *)
Definition resolve_offset (buflen offset : Z) : outcome Z :=
  if offset <? 0 then
    if 0 <? offset + 4 then Raise (struct_error buffer_too_small)
    else if offset + buflen <? 0 then Raise (struct_error offset_out_of_range)
    else if buflen - (offset + buflen) <? 4
         then Raise (struct_error buffer_too_small)
         else Ret (offset + buflen)
  else if buflen - offset <? 4 then Raise (struct_error buffer_too_small)
       else Ret offset.

(** [struct.unpack_from('>L', buf, offset)[0]] *)
Definition unpack_from (buf : list Z) (offset : Z) : outcome Z :=
  o <- resolve_offset (Py.len buf) offset ;;
  Ret (be_value (firstn 4 (skipn (Z.to_nat o) buf))).

(** [struct.pack_into('>L', buf, offset, v)]; the new buffer is returned. *)
Definition pack_into (buf : list Z) (offset : Z) (v : Z) : outcome (list Z) :=
  o <- resolve_offset (Py.len buf) offset ;;
  if (v <? 0) || (4294967295 <? v) then Raise (struct_error number_out_of_range)
  else Ret (firstn (Z.to_nat o) buf ++ be_bytes v
            ++ skipn (Z.to_nat o + 4) buf).

End Struct.

(** ** IEBusMessage.py *)

Record IEBusMessageField : Type := mkField { BitOffset : Z; LengthBits : Z }.

(** [calculateParity]: the [while] loop, one iteration per unit of fuel.
    [None] means the fuel ran out before [value] reached 0. *)
Fixpoint calculateParity_loop (fuel : nat) (value : Z) (p : bool) : option bool :=
  match fuel with
  | O => None
  | S k =>
      if negb (value =? 0) then
        let p := if Py.truthy (Z.land value 1) then negb p else p in
        let value := Z.shiftr value 1 in
        calculateParity_loop k value p
      else Some p
  end.

(** The loop is run with as many iterations as [value] has bits, plus the
    final test; [calculateParity_loop_negative] shows that on a negative
    [value] no amount of fuel suffices, which is outcome [Loop]. *)
Definition calculateParity (value : Z) : outcome bool :=
  match calculateParity_loop (Z.to_nat (Z.log2 value) + 2) value false with
  | Some p => Ret p
  | None => Loop
  end.

Module IEBusMessage.

Definition Broadcast       := mkField 0 1.
Definition MasterAddress   := mkField 1 12.
Definition MasterAddress_P := mkField 13 1.
Definition SlaveAddress    := mkField 14 12.
Definition SlaveAddress_P  := mkField 26 1.
Definition SlaveAddress_A  := mkField 27 1.
Definition Control         := mkField 28 4.
Definition Control_P       := mkField 32 1.
Definition Control_A       := mkField 33 1.
Definition DataLength      := mkField 34 8.
Definition DataLength_P    := mkField 42 1.
Definition DataLength_A    := mkField 43 1.
Definition DataFieldLength : Z := 10.

Definition Data (n : Z)   := mkField (44 + DataFieldLength * n) 8.
Definition Data_P (n : Z) := mkField (44 + 8 + DataFieldLength * n) 1.
Definition Data_A (n : Z) := mkField (44 + 9 + DataFieldLength * n) 1.

(** [BroadcastValue] and [AckValue] are [IntEnum]s; their members are the
    integers below. *)
Definition UNICAST : Z := 1.
Definition BROADCAST : Z := 0.
Definition NAK : Z := 1.
Definition ACK : Z := 0.

Definition MaxMessageLenBytes : Z := 64.
Definition DefaultAckVal : Z := NAK.

(** [getField]: the object state is the byte buffer [message_bytes]. *)
Definition getField (message_bytes : list Z) (field : IEBusMessageField)
  : outcome Z :=
  let startByte := Py.int_div (BitOffset field) 8 in
  let lenBytes := 4 in
  one <- Py.lshift 1 (LengthBits field) ;;
  let bitMask := one - 1 in
  let bitShift := lenBytes * 8 - LengthBits field - (BitOffset field) mod 8 in
  value <- Struct.unpack_from message_bytes startByte ;;
  value <- Py.rshift value bitShift ;;
  Ret (Z.land value bitMask).

(** [setField]: returns the buffer after the in-place write. *)
Definition setField (message_bytes : list Z) (field : IEBusMessageField)
           (value : Z) : outcome (list Z) :=
  let startByte := Py.int_div (BitOffset field) 8 in
  let lenBytes := 4 in
  one <- Py.lshift 1 (LengthBits field) ;;
  let bitMask := one - 1 in
  let bitShift := lenBytes * 8 - LengthBits field - (BitOffset field) mod 8 in
  bitMask <- Py.lshift bitMask bitShift ;;
  value <- Py.lshift value bitShift ;;
  valuePtr <- Struct.unpack_from message_bytes startByte ;;
  let valuePtr := Z.land valuePtr (Z.lnot bitMask) in
  let valuePtr := Z.lor valuePtr value in
  Struct.pack_into message_bytes startByte valuePtr.

(** The attributes set by [unpackFields] on the decode path. *)
Record unpacked : Type := mkUnpacked {
  broadcast : Z; master_address : Z; slave_address : Z;
  data_len : Z; data : list Z; src_device : Z; dst_device : Z }.

(** An [IEBusMessage] object. *)
Record t : Type := mkMessage {
  message_bytes : list Z;
  fields : option unpacked }.

(** [[self.getField(Data(i)) for i in range(n)]], [i] counting from [i0]. *)
Fixpoint getDataFrom (buf : list Z) (i0 : Z) (n : nat) : outcome (list Z) :=
  match n with
  | O => Ret []
  | S n' =>
      d <- getField buf (Data i0) ;;
      ds <- getDataFrom buf (i0 + 1) n' ;;
      Ret (d :: ds)
  end.

Definition getData (self : t) : outcome (list Z) :=
  dataLen <- getField (message_bytes self) DataLength ;;
  getDataFrom (message_bytes self) 0 (Z.to_nat dataLen).

Definition getLengthInBits (self : t) : outcome Z :=
  dataLen <- getField (message_bytes self) DataLength ;;
  Ret (BitOffset (Data 0) + DataFieldLength * dataLen).

Definition getAsBytes (self : t) : outcome (list Z) :=
  length_in_bits <- getLengthInBits self ;;
  let length_in_bytes := Py.int_div (length_in_bits - 1) 8 + 1 in
  Ret (Py.slice_to (message_bytes self) length_in_bytes).

(** The data loop of [isValid]; diagnostics printed on a mismatch are not
    part of the state. *)
Fixpoint isValid_data (buf : list Z) (i : Z) (n : nat) (isValid : bool)
  : outcome bool :=
  match n with
  | O => Ret isValid
  | S n' =>
      p <- getField buf (Data_P i) ;;
      d <- getField buf (Data i) ;;
      c <- calculateParity d ;;
      isValid_data buf (i + 1) n'
                   (if negb (p =? Py.int_of_bool c) then false else isValid)
  end.

Definition isValid (self : t) : outcome bool :=
  let buf := message_bytes self in
  let isValid := true in
  p <- getField buf MasterAddress_P ;;
  v <- getField buf MasterAddress ;;
  c <- calculateParity v ;;
  let isValid := if negb (p =? Py.int_of_bool c) then false else isValid in
  p <- getField buf SlaveAddress_P ;;
  v <- getField buf SlaveAddress ;;
  c <- calculateParity v ;;
  let isValid := if negb (p =? Py.int_of_bool c) then false else isValid in
  p <- getField buf Control_P ;;
  v <- getField buf Control ;;
  c <- calculateParity v ;;
  let isValid := if negb (p =? Py.int_of_bool c) then false else isValid in
  dataLength <- getField buf DataLength ;;
  p <- getField buf DataLength_P ;;
  c <- calculateParity dataLength ;;
  let isValid := if negb (p =? Py.int_of_bool c) then false else isValid in
  isValid_data buf 0 (Z.to_nat dataLength) isValid.

Definition nth_or_zero (l : list Z) (n : nat) : Z := List.nth n l 0.

Definition unpackFields (buf : list Z) : outcome unpacked :=
  broadcast <- getField buf Broadcast ;;
  master_address <- getField buf MasterAddress ;;
  slave_address <- getField buf SlaveAddress ;;
  data_len <- getField buf DataLength ;;
  data <- getDataFrom buf 0 (Z.to_nat data_len) ;;
  let data := if broadcast =? UNICAST then Py.slice_from data 1 else data in
  let src_device := if 0 <? Py.len data then nth_or_zero data 0 else 0 in
  let dst_device := if 1 <? Py.len data then nth_or_zero data 1 else 0 in
  Ret (mkUnpacked broadcast master_address slave_address data_len data
                  src_device dst_device).

(** [bytes.ljust(width)]: padding with spaces (0x20) on the right. *)
Definition ljust (bs : list Z) (width : Z) : list Z :=
  bs ++ Py.replicate 32 (width - Py.len bs).

(** The data loop of the constructor: [for i, val in enumerate(data)]. *)
Fixpoint init_data (buf : list Z) (i : Z) (data : list Z) : outcome (list Z) :=
  match data with
  | [] => Ret buf
  | val :: rest =>
      buf <- setField buf (Data i) val ;;
      p <- calculateParity val ;;
      buf <- setField buf (Data_P i) (Py.int_of_bool p) ;;
      buf <- setField buf (Data_A i) DefaultAckVal ;;
      init_data buf (i + 1) rest
  end.

(** The field-writing part of the constructor (lines 143-164). An absent
    argument ([None]) is falsy, as are [0] and the empty list. *)
Definition init_fields (broadcast master_address slave_address control
                          : option Z) (data : option (list Z))
  : outcome t :=
  let buf := Py.replicate 0 (MaxMessageLenBytes + 4) in
  buf <- match broadcast with
         | Some b => if Py.truthy b then setField buf Broadcast b else Ret buf
         | None => Ret buf
         end ;;
  buf <- match master_address with
         | Some a =>
             if Py.truthy a then
               buf <- setField buf MasterAddress a ;;
               p <- calculateParity a ;;
               setField buf MasterAddress_P (Py.int_of_bool p)
             else Ret buf
         | None => Ret buf
         end ;;
  buf <- match slave_address with
         | Some a =>
             if Py.truthy a then
               buf <- setField buf SlaveAddress a ;;
               p <- calculateParity a ;;
               buf <- setField buf SlaveAddress_P (Py.int_of_bool p) ;;
               setField buf SlaveAddress_A DefaultAckVal
             else Ret buf
         | None => Ret buf
         end ;;
  buf <- match control with
         | Some c =>
             if Py.truthy c then
               buf <- setField buf Control c ;;
               p <- calculateParity c ;;
               buf <- setField buf Control_P (Py.int_of_bool p) ;;
               setField buf Control_A DefaultAckVal
             else Ret buf
         | None => Ret buf
         end ;;
  buf <- match data with
         | Some ((_ :: _) as d) =>
             buf <- setField buf DataLength (Py.len d) ;;
             p <- calculateParity (Py.len d) ;;
             buf <- setField buf DataLength_P (Py.int_of_bool p) ;;
             buf <- setField buf DataLength_A DefaultAckVal ;;
             init_data buf 0 d
         | _ => Ret buf
         end ;;
  Ret (mkMessage buf None).

(** [message_parts[k]], raising [IndexError] beyond the end. *)
Definition part (message_parts : list string) (k : nat) : outcome string :=
  match List.nth_error message_parts k with
  | Some s => Ret s
  | None => Raise IndexError
  end.

(** [[int(dStr, 16) for dStr in parts]] *)
Fixpoint parse_data (parts : list string) : outcome (list Z) :=
  match parts with
  | [] => Ret []
  | dStr :: rest =>
      d <- PyStr.int dStr 16 ;;
      ds <- parse_data rest ;;
      Ret (d :: ds)
  end.

(** The constructor [__init__]. *)
Definition __init__ (message_bytes : option (list Z))
           (message_string : option string)
           (broadcast master_address slave_address control : option Z)
           (data : option (list Z)) : outcome t :=
  match message_bytes with
  | Some ((_ :: _) as bs) =>
      let buf := ljust bs (MaxMessageLenBytes + 4) in
      u <- unpackFields buf ;;
      let self := mkMessage buf (Some u) in
      isValid self ;;;
      Ret self
  | _ =>
      match message_string with
      | Some ((String _ _) as s) =>
          let message_parts := PyStr.split (PyStr.remove_char ":"%char s) in
          p0 <- part message_parts 0 ;;
          let broadcast := if String.eqb p0 "B"%string then BROADCAST else UNICAST in
          p1 <- part message_parts 1 ;;
          master_address <- PyStr.int p1 16 ;;
          p2 <- part message_parts 2 ;;
          slave_address <- PyStr.int p2 16 ;;
          let control := 15 in
          data <- parse_data (List.skipn 3 message_parts) ;;
          init_fields (Some broadcast) (Some master_address)
                      (Some slave_address) (Some control) (Some data)
      | _ => init_fields broadcast master_address slave_address control data
      end
  end.

(** [__str__] *)
Fixpoint str_data (buf : list Z) (i : Z) (n : nat) (messageStr : string)
  : outcome string :=
  match n with
  | O => Ret messageStr
  | S n' =>
      d <- getField buf (Data i) ;;
      str_data buf (i + 1) n'
               (messageStr ++ PyStr.format_int true 2 16 d ++ " ")%string
  end.

Definition __str__ (self : t) : outcome string :=
  let buf := message_bytes self in
  dataLen <- getField buf DataLength ;;
  b <- getField buf Broadcast ;;
  m <- getField buf MasterAddress ;;
  s <- getField buf SlaveAddress ;;
  c <- getField buf Control ;;
  let messageStr :=
    ((if (b =? BROADCAST)%Z then "B" else "-") ++ " "
     ++ PyStr.format_int true 3 16 m ++ " "
     ++ PyStr.format_int true 3 16 s ++ " "
     ++ PyStr.format_int true 1 16 c ++ " "
     ++ PyStr.format_int false 2 10 dataLen ++ " : ")%string in
  str_data buf 0 (Z.to_nat dataLen) messageStr.

End IEBusMessage.

(** ** IEBusBitBang.py

    A sample string (a [str] of ['0'] and ['1'] characters) is the list of
    its characters. *)

Module IEBusBitBang.

Local Open Scope float_scope.

Definition bitRate : Z := 1000000.

Definition T_Bit_uS : float := PyFloat.of_int 256 / 6.291456.

(** [lineState = { False: '1', True: '0' }] *)
Definition lineState (state : bool) : ascii :=
  if state then "0"%char else "1"%char.

Definition uS_to_bits (time : float) : outcome Z :=
  PyFloat.round (1e-6 * PyFloat.of_int bitRate * time).

(** Module-level constants: the value bound at import time (the conversions
    below all return). *)
Definition at_import (o : outcome Z) : Z :=
  match o with Ret v => v | _ => 0%Z end.

Definition T_StartBit : Z := at_import (uS_to_bits (PyFloat.of_int 170)).
Definition T_Bit      : Z := at_import (uS_to_bits T_Bit_uS).
Definition T_Bit_1    : Z := at_import (uS_to_bits (T_Bit_uS / 2)).
Definition T_Bit_0    : Z := at_import (uS_to_bits (4 * T_Bit_uS / 5)).
Definition T_BitMeasure : float :=
  PyFloat.of_int (T_Bit_1 + T_Bit_0) / PyFloat.of_int 2.
Definition T_TxWait   : Z := at_import (uS_to_bits (PyFloat.of_int 88)).
Definition T_Timeout  : Z := at_import (uS_to_bits (PyFloat.of_int 2000)).

Local Close Scope float_scope.

Definition make_output_segment (state : bool) (timeBits : Z) : list ascii :=
  Py.replicate (lineState state) timeBits.

(** [bitVal] is an element of the list built by [bytes_to_bits], a
    Boolean; [bitVal == 0] holds for [False]. *)
Definition make_output_from_bit (bitVal : bool) : list ascii :=
  if Py.int_of_bool bitVal =? 0 then
    make_output_segment true T_Bit_0
    ++ make_output_segment false (T_Bit - T_Bit_0)
  else
    make_output_segment true T_Bit_1
    ++ make_output_segment false (T_Bit - T_Bit_1).

Definition make_output_from_iebus_bits (messageBits : list bool) : list ascii :=
  let bitStr := [] in
  let bitStr := bitStr ++ make_output_segment true T_StartBit in
  let bitStr := bitStr ++ make_output_segment false T_Bit_1 in
  let bitStr :=
    fold_left (fun bitStr bitVal => bitStr ++ make_output_from_bit bitVal)
              messageBits bitStr in
  let bitStr := bitStr ++ make_output_segment false T_TxWait in
  bitStr.

Definition bytes_to_bits (messageBytes : list Z) : list bool :=
  let bitStr :=
    List.concat (List.map (PyStr.format_chars true 8 2) messageBytes) in
  List.map (fun c => Ascii.eqb c "1"%char) bitStr.

Definition make_output_from_iebus_message (message : IEBusMessage.t)
  : outcome (list ascii) :=
  msgBytes <- IEBusMessage.getAsBytes message ;;
  let msgBits := bytes_to_bits msgBytes in
  n <- IEBusMessage.getLengthInBits message ;;
  let msgBits := Py.slice_to msgBits n in
  Ret (make_output_from_iebus_bits msgBits).

(** [s.ljust(8, '1')] *)
Definition ljust (s : list ascii) (width : Z) (fill : ascii) : list ascii :=
  s ++ Py.replicate fill (width - Py.len s).

(** The list [byteStrings] built by the first comprehension of
    [bits_to_bytes]. *)
Definition byteStrings (bitStr : list ascii) : list (list ascii) :=
  List.map (fun i => ljust (Py.slice bitStr i (i + 8)) 8 "1"%char)
           (Py.range 0 (Py.len bitStr) 8).

Definition bits_to_bytes (bitStr : list ascii) : outcome (list Z) :=
  bs <- Py.comprehension (fun byteStr => PyStr.int_chars byteStr 2)
                         (byteStrings bitStr) ;;
  Py.bytes bs.

End IEBusBitBang.

(** ** BitBangUtility.py: timeline composition (lines 126-149) *)

Module BitBangUtility.

(** A row of [messages]: (time, channel, message string). *)
Definition row : Type := (Z * string * string)%type.
Definition row_time (r : row) : Z := fst (fst r).
Definition row_string (r : row) : string := snd r.

(** The placement loop, [for i, ieBusMessage in enumerate(ieBusMessages)],
    from index [i] on. *)
Fixpoint place (regular : Z) (messages : list row) (i : Z)
         (ieBusMessages : list IEBusMessage.t) (signal : list ascii)
  : outcome (list ascii) :=
  match ieBusMessages with
  | [] => Ret signal
  | ieBusMessage :: rest =>
      time <- (if negb (regular =? 0) then Ret (i * regular)
               else match List.nth_error messages (Z.to_nat i) with
                    | Some r => Ret (row_time r)
                    | None => Raise IndexError
                    end) ;;
      messageOutput <- IEBusBitBang.make_output_from_iebus_message ieBusMessage ;;
      let messageLen := Py.len messageOutput in
      let signal := Py.slice_assign signal time (time + messageLen) messageOutput in
      place regular messages (i + 1) rest signal
  end.

Definition compose (regular : Z) (messages : list row) : outcome (list ascii) :=
  ieBusMessages <-
    Py.comprehension
      (fun r => IEBusMessage.__init__ None (Some (row_string r))
                                      None None None None None) messages ;;
  messageSignals <-
    Py.comprehension IEBusBitBang.make_output_from_iebus_message ieBusMessages ;;
  totalLength <-
    (if negb (regular =? 0) then Ret (regular * Py.len ieBusMessages)
     else (r <- Py.last messages ;;
           s <- Py.last messageSignals ;;
           Ret (row_time r + Py.len s))) ;;
  let signal := Py.replicate "1"%char totalLength in
  place regular messages 0 ieBusMessages signal.

(** The body of single-message mode (lines 101-103). The script enters it
    when [args.message] is a non-empty string (line 100); an empty string
    selects another mode. *)
Definition single (message : string) : outcome (list ascii) :=
  msg <- IEBusMessage.__init__ None (Some message) None None None None None ;;
  IEBusBitBang.make_output_from_iebus_message msg.

Definition row_channel (r : row) : string := snd (fst r).

(** Channel filter and timestamp normalisation (lines 121-124). *)
Definition select (channel : string) (messages : list row) : outcome (list row) :=
  let messages :=
    List.filter (fun r => String.eqb (row_channel r) channel) messages in
  match messages with
  | [] => Raise IndexError
  | r0 :: _ =>
      let startTime := row_time r0 in
      Ret (List.map (fun r => (row_time r - startTime, row_channel r, row_string r))
                    messages)
  end.

(** Replay of decoded captures (lines 121-149). *)
Definition replay (regular : Z) (channel : string) (messages : list row)
  : outcome (list ascii) :=
  messages <- select channel messages ;;
  compose regular messages.

(** Idle trimming, idle guard and glitch samples (lines 151-158). *)
Definition finish (glitch : Z) (buf : list ascii) : list ascii :=
  let buf := PyStr.strip_char "1"%char buf in
  let buf := Py.replicate "1"%char 10000 ++ buf ++ Py.replicate "1"%char 10000 in
  if negb (glitch =? 0) then Py.replicate "1"%char glitch ++ buf else buf.

End BitBangUtility.

(** ** Reference notions used in the statements *)

(** Population count of a non-negative integer: the number of 1 digits of
    its binary representation. *)
Fixpoint popcount_pos (p : positive) : nat :=
  match p with
  | xH => 1
  | xO q => popcount_pos q
  | xI q => S (popcount_pos q)
  end.

Definition popcount (v : Z) : nat :=
  match v with
  | Zpos p => popcount_pos p
  | _ => 0
  end.

(** A byte buffer holds values in [0, 256). *)
Definition wf_bytes (buf : list Z) : Prop :=
  Forall (fun b => 0 <= b < 256) buf.

(** Bit [i] of a buffer, bits numbered from the most significant bit of
    byte 0, as the field offsets are. *)
Definition buffer_bit (buf : list Z) (i : Z) : bool :=
  Z.testbit (List.nth (Z.to_nat (i / 8)) buf 0) (7 - i mod 8).

(** A field whose 4-byte window lies inside the buffer and whose bits lie
    inside the window. *)
Definition admissible (buf : list Z) (f : IEBusMessageField) : Prop :=
  0 <= BitOffset f /\ 0 <= LengthBits f
  /\ LengthBits f + BitOffset f mod 8 <= 32
  /\ BitOffset f / 8 + 4 <= Py.len buf.

(** The 32-bit word read at byte [s]. *)
Definition window (buf : list Z) (s : Z) : Z :=
  Struct.be_value (firstn 4 (skipn (Z.to_nat s) buf)).

(** The buffer after [pack_into] wrote the word [v] at byte [s]. *)
Definition poke (buf : list Z) (s v : Z) : list Z :=
  firstn (Z.to_nat s) buf ++ Struct.be_bytes v ++ skipn (Z.to_nat s + 4) buf.

(** The word [setField] writes back: the window with the field's bits
    cleared, or-ed with the shifted value. *)
Definition spliced (W w shift v : Z) : Z :=
  Z.lor (Z.land W (Z.lnot (Z.shiftl (Z.shiftl 1 w - 1) shift))) (Z.shiftl v shift).

(** A sample string: every character is ['0'] or ['1']. *)
Definition binary (s : list ascii) : Prop :=
  Forall (fun c => c = "0"%char \/ c = "1"%char) s.

(** The sample character of a bit, and the bit of a sample character
    ([c == '1']). *)
Definition sample_of_bit (b : bool) : ascii := if b then "1"%char else "0"%char.
Definition bit_of_sample (c : ascii) : bool := Ascii.eqb c "1"%char.

(** Two buffers agree on the bits below [n]; a buffer is zero from bit [n]
    on. The constructor writes its fields in increasing bit order. *)
Definition agree_below (buf buf' : list Z) (n : Z) : Prop :=
  forall i, 0 <= i < n -> buffer_bit buf' i = buffer_bit buf i.

Definition zero_from (buf : list Z) (n : Z) : Prop :=
  forall i, n <= i -> buffer_bit buf i = false.

(** The parity bit the constructor stores for a field value. *)
Definition parity_bit (x : Z) : Z := Py.int_of_bool (Nat.odd (popcount x)).

(** An optional constructor argument whose value, when given, fits [w] bits. *)
Definition in_range (o : option Z) (w : Z) : Prop :=
  forall v, o = Some v -> 0 <= v < 2 ^ w.

(** A field of the buffer holds [x] and its parity companion the odd parity
    of [x]. *)
Definition parity_consistent (buf : list Z) (F P : IEBusMessageField) (x : Z)
  : Prop :=
  0 <= x
  /\ IEBusMessage.getField buf F = Ret x
  /\ IEBusMessage.getField buf P = Ret (parity_bit x).

(** The value a constructor argument leaves in its field: an absent
    argument, like the value 0, leaves the field zero. *)
Definition arg_value (o : option Z) : Z :=
  match o with
  | Some v => v
  | None => 0
  end.

(** A 68-byte buffer holding the given field values, each with its parity
    companion, and the data bytes [d]. *)
Definition holds_fields (buf : list Z) (vb vm vs vc : Z) (d : list Z) : Prop :=
  wf_bytes buf /\ List.length buf = 68%nat
  /\ IEBusMessage.getField buf IEBusMessage.Broadcast = Ret vb
  /\ parity_consistent buf IEBusMessage.MasterAddress
                       IEBusMessage.MasterAddress_P vm
  /\ parity_consistent buf IEBusMessage.SlaveAddress
                       IEBusMessage.SlaveAddress_P vs
  /\ parity_consistent buf IEBusMessage.Control IEBusMessage.Control_P vc
  /\ parity_consistent buf IEBusMessage.DataLength IEBusMessage.DataLength_P
                       (Py.len d)
  /\ Py.len d <= 47
  /\ forall k : nat,
      (k < List.length d)%nat ->
      parity_consistent buf (IEBusMessage.Data (Z.of_nat k))
                        (IEBusMessage.Data_P (Z.of_nat k)) (List.nth k d 0).

(** The acknowledgement bits after construction: NAK where the constructor
    wrote the field, zero elsewhere. *)
Definition holds_acks (buf : list Z) (vs vc : Z) (d : list Z) : Prop :=
  IEBusMessage.getField buf IEBusMessage.SlaveAddress_A
  = Ret (if Py.truthy vs then IEBusMessage.NAK else 0)
  /\ IEBusMessage.getField buf IEBusMessage.Control_A
     = Ret (if Py.truthy vc then IEBusMessage.NAK else 0)
  /\ IEBusMessage.getField buf IEBusMessage.DataLength_A
     = Ret (match d with [] => 0 | _ => IEBusMessage.NAK end)
  /\ forall k : nat,
      (k < List.length d)%nat ->
      IEBusMessage.getField buf (IEBusMessage.Data_A (Z.of_nat k))
      = Ret IEBusMessage.NAK.



(** The values the token-string constructor reads from its string: master
    address, slave address and data, parsed as in [__init__]. *)
Definition token_values (message_string : string) : outcome (Z * Z * list Z) :=
  let message_parts := PyStr.split (PyStr.remove_char ":"%char message_string) in
  p1 <- IEBusMessage.part message_parts 1 ;;
  master_address <- PyStr.int p1 16 ;;
  p2 <- IEBusMessage.part message_parts 2 ;;
  slave_address <- PyStr.int p2 16 ;;
  data <- IEBusMessage.parse_data (List.skipn 3 message_parts) ;;
  Ret (master_address, slave_address, data).

(** The first [n] bits of a buffer, most significant bit of byte 0 first. *)
Definition logical_bits (buf : list Z) (n : Z) : list bool :=
  List.map (fun i => buffer_bit buf (Z.of_nat i)) (List.seq 0 (Z.to_nat n)).

(** The line samples of one bit cell: a low run followed by a high run. *)
Definition cell (low high : Z) : list ascii :=
  Py.replicate "0"%char low ++ Py.replicate "1"%char high.

(** A signal in its own slot of [R] samples, the rest of the slot idle. *)
Definition slot (R : Z) (s : list ascii) : list ascii :=
  s ++ Py.replicate "1"%char (R - Py.len s).

(** Signals laid out at their start times from sample [e] on, with idle
    samples in the gaps; the sample after the last signal; and the start
    times being in order, each signal ending before the next begins. *)
Fixpoint timeline (e : Z) (l : list (Z * list ascii)) : list ascii :=
  match l with
  | [] => []
  | (t, s) :: l' => Py.replicate "1"%char (t - e) ++ s ++ timeline (t + Py.len s) l'
  end.

Fixpoint timeline_end (e : Z) (l : list (Z * list ascii)) : Z :=
  match l with
  | [] => e
  | (t, s) :: l' => timeline_end (t + Py.len s) l'
  end.

Fixpoint ordered (e : Z) (l : list (Z * list ascii)) : Prop :=
  match l with
  | [] => True
  | (t, s) :: l' => e <= t /\ ordered (t + Py.len s) l'
  end.

(** The display string of [__str__], in two parts: the header written by
    the format call and the data bytes appended by the loop. *)
Definition display_header (b m s c n : Z) : string :=
  ((if (b =? IEBusMessage.BROADCAST)%Z then "B" else "-") ++ " "
   ++ PyStr.format_int true 3 16 m ++ " "
   ++ PyStr.format_int true 3 16 s ++ " "
   ++ PyStr.format_int true 1 16 c ++ " "
   ++ PyStr.format_int false 2 10 n ++ " : ")%string.

Definition display_data (l : list Z) : string :=
  List.fold_right (fun d s => (PyStr.format_int true 2 16 d ++ " " ++ s)%string)
                  ""%string l.

(** The decimal digits of a number below 100 read as hexadecimal digits. *)
Definition reread (n : Z) : Z := 16 * (n / 10) + n mod 10.

(** A token: a non-empty string without whitespace or colon. *)
Definition is_word (s : string) : bool :=
  match s with
  | EmptyString => false
  | _ =>
      List.forallb
        (fun ch => negb (PyStr.is_space ch) && negb (Ascii.eqb ch ":"%char))
        (list_ascii_of_string s)
  end.

(** The sample after the furthest signal when the signals [sigs] are placed
    at [i * R], [(i + 1) * R], ... (0 when there is none). *)
Fixpoint reach (R i : Z) (sigs : list (list ascii)) : Z :=
  match sigs with
  | [] => 0
  | sig :: sigs' => Z.max (i * R + Py.len sig) (reach R (i + 1) sigs')
  end.

(** * Properties *)

(** ** Parity *)

Lemma size_to_nat (p : positive) : Pos.to_nat (Pos.size p) = Pos.size_nat p.
Proof.
  induction p; simpl; try rewrite Pos2Nat.inj_succ; try rewrite IHp; reflexivity.
Qed.

Lemma log2_fuel (p : positive) :
  (Z.to_nat (Z.log2 (Zpos p)) + 2 = Pos.size_nat p + 1)%nat.
Proof.
  destruct p; simpl; try rewrite size_to_nat; lia.
Qed.

Lemma calculateParity_loop_pos (p : positive) :
  forall (fuel : nat) (acc : bool),
    (Pos.size_nat p + 1 <= fuel)%nat ->
    calculateParity_loop fuel (Zpos p) acc
    = Some (xorb acc (Nat.odd (popcount_pos p))).
Proof.
  induction p as [q IH | q IH | ]; intros fuel acc Hfuel; simpl in Hfuel;
    (destruct fuel as [| fuel]; [lia |]).
  - cbn [calculateParity_loop]. change (Z.shiftr (Z.pos q~1) 1) with (Z.pos q).
    change (Z.land (Z.pos q~1) 1) with 1. cbn [Z.eqb negb Py.truthy].
    rewrite IH by lia. cbn [popcount_pos]. rewrite Nat.odd_succ, <- Nat.negb_odd.
    f_equal. destruct acc, (Nat.odd (popcount_pos q)); reflexivity.
  - cbn [calculateParity_loop]. change (Z.shiftr (Z.pos q~0) 1) with (Z.pos q).
    change (Z.land (Z.pos q~0) 1) with 0. cbn [Z.eqb negb Py.truthy].
    rewrite IH by lia. reflexivity.
  - destruct fuel as [| fuel]; [lia |]. cbn. destruct acc; reflexivity.
Qed.

(** On a negative argument the loop never reaches [value == 0]. *)
Lemma calculateParity_loop_negative (fuel : nat) :
  forall (value : Z) (p : bool),
    value < 0 -> calculateParity_loop fuel value p = None.
Proof.
  induction fuel as [| k IH]; intros value p Hneg; [reflexivity |].
  cbn [calculateParity_loop].
  assert ((value =? 0) = false) as -> by (apply Z.eqb_neq; lia).
  cbn [negb]. apply IH. apply Z.shiftr_neg. exact Hneg.
Qed.

(** More fuel does not change a result already obtained. *)
Lemma calculateParity_loop_mono (fuel : nat) :
  forall (value : Z) (p r : bool),
    calculateParity_loop fuel value p = Some r ->
    calculateParity_loop (S fuel) value p = Some r.
Proof.
  induction fuel as [| k IH]; intros value p r H; [discriminate |].
  cbn [calculateParity_loop] in H. 
  change (calculateParity_loop (S (S k)) value p)
    with (if negb (value =? 0)
          then calculateParity_loop (S k) (Z.shiftr value 1)
                 (if Py.truthy (Z.land value 1) then negb p else p)
          else Some p).
  destruct (negb (value =? 0)); [apply IH; exact H | exact H].
Qed.

Lemma calculateParity_nonneg (v : Z) :
  0 <= v -> calculateParity v = Ret (Nat.odd (popcount v)).
Proof.
  intros Hv. unfold calculateParity. destruct v as [| p | p]; [reflexivity | | lia].
  rewrite log2_fuel, calculateParity_loop_pos by lia. reflexivity.
Qed.

Lemma calculateParity_negative (v : Z) : v < 0 -> calculateParity v = Loop.
Proof.
  intros Hv. unfold calculateParity.
  rewrite calculateParity_loop_negative by exact Hv. reflexivity.
Qed.

Lemma filter_length_shift (f g : nat -> bool) (l : list nat) :
  (forall a, f (S a) = g a) ->
  List.length (List.filter f (List.map S l)) = List.length (List.filter g l).
Proof.
  intros Hfg. induction l as [| a l IH]; [reflexivity |].
  cbn [map filter]. rewrite Hfg. destruct (g a); cbn [List.length]; rewrite IH;
    reflexivity.
Qed.

(** The population count counts the set bits: [popcount] agrees with the
    number of positions at which [Z.testbit] holds. *)
Lemma popcount_testbit (p : positive) :
  popcount_pos p
  = List.length (List.filter (fun i => Z.testbit (Zpos p) (Z.of_nat i))
                             (List.seq 0 (Pos.size_nat p))).
Proof.
  induction p as [q IH | q IH | ]; [| | reflexivity].
  - cbn [popcount_pos Pos.size_nat]. rewrite <- cons_seq, <- seq_shift.
    cbn [filter]. change (Z.testbit (Z.pos q~1) (Z.of_nat 0)) with true.
    cbn [List.length]. f_equal. rewrite IH. symmetry.
    apply filter_length_shift. intros a.
    rewrite Nat2Z.inj_succ. change (Z.pos q~1) with (2 * Z.pos q + 1).
    apply Z.testbit_odd_succ. lia.
  - cbn [popcount_pos Pos.size_nat]. rewrite <- cons_seq, <- seq_shift.
    cbn [filter]. change (Z.testbit (Z.pos q~0) (Z.of_nat 0)) with false.
    rewrite IH. symmetry.
    apply filter_length_shift. intros a.
    rewrite Nat2Z.inj_succ. change (Z.pos q~0) with (2 * Z.pos q).
    apply Z.testbit_even_succ. lia.
Qed.

(** C4. For every non-negative integer [v], [calculateParity(v)] returns,
    and its result is true exactly when the population count of [v] is odd;
    on 0x0B it is true (1), on 0x00 and 0xFF it is false (0). *)
Theorem calculateParity_odd_popcount :
  forall v : Z,
    0 <= v ->
    (exists b : bool,
        calculateParity v = Ret b
        /\ (b = true <-> Nat.odd (popcount v) = true)
        /\ (Py.int_of_bool b = 1 <-> Nat.odd (popcount v) = true))
    /\ calculateParity 11 = Ret true
    /\ calculateParity 0 = Ret false
    /\ calculateParity 255 = Ret false.
Proof.
  intros v Hv. split; [| repeat split; reflexivity].
  exists (Nat.odd (popcount v)). split; [apply calculateParity_nonneg; exact Hv |].
  split; [tauto |]. destruct (Nat.odd (popcount v)); cbn; split; congruence.
Qed.

Lemma calculateParity_odd_popcount_witness :
  0 <= 11 /\ calculateParity 11 = Ret true.
Proof.
  split; [lia |]. apply (proj2 (calculateParity_odd_popcount 11 ltac:(lia))).
Defined.

(** ** Timing constants *)

Lemma timing_values :
  IEBusBitBang.T_StartBit = 170 /\ IEBusBitBang.T_Bit = 41
  /\ IEBusBitBang.T_Bit_1 = 20 /\ IEBusBitBang.T_Bit_0 = 33
  /\ IEBusBitBang.T_TxWait = 88.
Proof.
  repeat split; vm_compute; reflexivity.
Qed.

(** C9. At the reference 1 MHz rate, the conversions return and the
    constants are [T_StartBit = 170], [T_Bit = 41], [T_Bit_1 = 20],
    [T_Bit_0 = 33] and [T_TxWait = 88]. *)
Theorem timing_constants :
  IEBusBitBang.uS_to_bits (PyFloat.of_int 170) = Ret 170
  /\ IEBusBitBang.uS_to_bits IEBusBitBang.T_Bit_uS = Ret 41
  /\ IEBusBitBang.uS_to_bits (IEBusBitBang.T_Bit_uS / 2)%float = Ret 20
  /\ IEBusBitBang.uS_to_bits (4 * IEBusBitBang.T_Bit_uS / 5)%float = Ret 33
  /\ IEBusBitBang.uS_to_bits (PyFloat.of_int 88) = Ret 88
  /\ IEBusBitBang.T_StartBit = 170
  /\ IEBusBitBang.T_Bit = 41
  /\ IEBusBitBang.T_Bit_1 = 20
  /\ IEBusBitBang.T_Bit_0 = 33
  /\ IEBusBitBang.T_TxWait = 88.
Proof.
  repeat split; vm_compute; reflexivity.
Qed.

(** ** Bits of the 32-bit window *)

Lemma testbit_small (x n k : Z) :
  0 <= x < 2 ^ n -> n <= k -> Z.testbit x k = false.
Proof.
  intros Hx Hk. destruct (Z.eq_dec x 0) as [-> | Hnz]; [apply Z.bits_0 |].
  apply Z.bits_above_log2; [lia |].
  assert (0 <= n) by (destruct (Z.lt_ge_cases n 0) as [Hn | Hn];
                      [rewrite Z.pow_neg_r in Hx by exact Hn; lia | exact Hn]).
  apply Z.lt_le_trans with n; [| exact Hk].
  apply Z.log2_lt_pow2; lia.
Qed.

Lemma lt_pow2_of_bits (x n : Z) :
  0 <= n -> 0 <= x ->
  (forall k, n <= k -> Z.testbit x k = false) -> x < 2 ^ n.
Proof.
  intros Hn Hx Hbits. destruct (Z.lt_ge_cases x (2 ^ n)) as [Hlt | Hge]; [exact Hlt |].
  assert (0 < x) as Hpos by (pose proof (Z.pow_pos_nonneg 2 n); lia).
  pose proof (Z.bit_log2 x Hpos) as Htop.
  rewrite Hbits in Htop; [discriminate |].
  apply Z.log2_le_pow2; assumption.
Qed.

Lemma be_step_testbit (x d k : Z) :
  0 <= d < 256 -> 0 <= k ->
  Z.testbit (Z.lor (Z.shiftl x 8) d) k
  = if k <? 8 then Z.testbit d k else Z.testbit x (k - 8).
Proof.
  intros Hd Hk. rewrite Z.lor_spec, Z.shiftl_spec by exact Hk.
  destruct (Z.ltb_spec k 8) as [Hlt | Hge].
  - rewrite Z.testbit_neg_r by lia. reflexivity.
  - rewrite (testbit_small d 8 k) by (change (2 ^ 8) with 256; lia).
    apply Bool.orb_false_r.
Qed.

Lemma wf_nth (buf : list Z) (n : nat) : wf_bytes buf -> 0 <= List.nth n buf 0 < 256.
Proof.
  intros Hwf. destruct (Nat.lt_ge_cases n (List.length buf)) as [Hlt | Hge].
  - unfold wf_bytes in Hwf. rewrite Forall_forall in Hwf. apply Hwf.
    apply nth_In. exact Hlt.
  - rewrite nth_overflow by exact Hge. lia.
Qed.

Lemma wf_firstn (n : nat) (buf : list Z) : wf_bytes buf -> wf_bytes (firstn n buf).
Proof.
  intros Hwf. unfold wf_bytes in *. rewrite <- (firstn_skipn n buf) in Hwf.
  apply Forall_app in Hwf. tauto.
Qed.

Lemma wf_skipn (n : nat) (buf : list Z) : wf_bytes buf -> wf_bytes (skipn n buf).
Proof.
  intros Hwf. unfold wf_bytes in *. rewrite <- (firstn_skipn n buf) in Hwf.
  apply Forall_app in Hwf. tauto.
Qed.

Lemma window_nth (s : nat) :
  forall buf : list Z,
    (s + 4 <= List.length buf)%nat ->
    firstn 4 (skipn s buf)
    = [List.nth s buf 0; List.nth (s + 1) buf 0;
       List.nth (s + 2) buf 0; List.nth (s + 3) buf 0].
Proof.
  induction s as [| s IH]; intros buf Hlen.
  - destruct buf as [| a [| b [| c [| d rest]]]]; cbn in Hlen; try lia.
    reflexivity.
  - destruct buf as [| a buf]; cbn in Hlen; [lia |].
    cbn [skipn Nat.add List.nth]. apply IH. lia.
Qed.

Lemma window_testbit (buf : list Z) (s k : Z) :
  wf_bytes buf -> 0 <= s -> s + 4 <= Py.len buf -> 0 <= k < 32 ->
  Z.testbit (window buf s) k = buffer_bit buf (8 * s + 31 - k).
Proof.
  intros Hwf Hs Hlen Hk. unfold window, buffer_bit, Py.len in *.
  rewrite window_nth by lia. unfold Struct.be_value. cbn [fold_left].
  pose proof (wf_nth buf (Z.to_nat s) Hwf) as H0.
  pose proof (wf_nth buf (Z.to_nat s + 1) Hwf) as H1.
  pose proof (wf_nth buf (Z.to_nat s + 2) Hwf) as H2.
  pose proof (wf_nth buf (Z.to_nat s + 3) Hwf) as H3.
  rewrite be_step_testbit by lia.
  destruct (Z.ltb_spec k 8) as [Ha | Ha].
  { replace ((8 * s + 31 - k) / 8) with (s + 3) by (Z.div_mod_to_equations; lia).
    replace (7 - (8 * s + 31 - k) mod 8) with k by (Z.div_mod_to_equations; lia).
    replace (Z.to_nat (s + 3)) with (Z.to_nat s + 3)%nat by lia. reflexivity. }
  rewrite be_step_testbit by lia.
  destruct (Z.ltb_spec (k - 8) 8) as [Hb | Hb].
  { replace ((8 * s + 31 - k) / 8) with (s + 2) by (Z.div_mod_to_equations; lia).
    replace (7 - (8 * s + 31 - k) mod 8) with (k - 8)
      by (Z.div_mod_to_equations; lia).
    replace (Z.to_nat (s + 2)) with (Z.to_nat s + 2)%nat by lia. reflexivity. }
  rewrite be_step_testbit by lia.
  destruct (Z.ltb_spec (k - 8 - 8) 8) as [Hc | Hc].
  { replace ((8 * s + 31 - k) / 8) with (s + 1) by (Z.div_mod_to_equations; lia).
    replace (7 - (8 * s + 31 - k) mod 8) with (k - 8 - 8)
      by (Z.div_mod_to_equations; lia).
    replace (Z.to_nat (s + 1)) with (Z.to_nat s + 1)%nat by lia. reflexivity. }
  rewrite be_step_testbit by lia.
  destruct (Z.ltb_spec (k - 8 - 8 - 8) 8) as [Hd | Hd]; [| lia].
  replace ((8 * s + 31 - k) / 8) with s by (Z.div_mod_to_equations; lia).
  replace (7 - (8 * s + 31 - k) mod 8) with (k - 8 - 8 - 8)
    by (Z.div_mod_to_equations; lia).
  reflexivity.
Qed.

Lemma window_high (buf : list Z) (s k : Z) :
  wf_bytes buf -> 0 <= s -> s + 4 <= Py.len buf -> 32 <= k ->
  Z.testbit (window buf s) k = false.
Proof.
  intros Hwf Hs Hlen Hk. unfold window, Py.len in *.
  rewrite window_nth by lia. unfold Struct.be_value. cbn [fold_left].
  pose proof (wf_nth buf (Z.to_nat s) Hwf) as H0.
  pose proof (wf_nth buf (Z.to_nat s + 1) Hwf) as H1.
  pose proof (wf_nth buf (Z.to_nat s + 2) Hwf) as H2.
  pose proof (wf_nth buf (Z.to_nat s + 3) Hwf) as H3.
  repeat (rewrite be_step_testbit by lia;
          match goal with
          | |- context [?a <? 8] =>
              destruct (Z.ltb_spec a 8) as [Hlt | _]; [lia |]
          end).
  apply Z.bits_0.
Qed.

Lemma window_nonneg (buf : list Z) (s : Z) :
  wf_bytes buf -> 0 <= window buf s.
Proof.
  intros Hwf. unfold window, Struct.be_value.
  assert (forall l acc, wf_bytes l -> 0 <= acc ->
            0 <= fold_left (fun x b => Z.lor (Z.shiftl x 8) b) l acc) as Hfold.
  { induction l as [| b l IH]; intros acc Hl Hacc; [exact Hacc |].
    inversion Hl; subst. cbn [fold_left]. apply IH; [assumption |].
    apply Z.lor_nonneg. split; [apply Z.shiftl_nonneg; exact Hacc | lia]. }
  apply Hfold; [| lia]. apply wf_firstn, wf_skipn, Hwf.
Qed.

Lemma window_range (buf : list Z) (s : Z) :
  wf_bytes buf -> 0 <= s -> s + 4 <= Py.len buf ->
  0 <= window buf s < 2 ^ 32.
Proof.
  intros Hwf Hs Hlen. split; [apply window_nonneg; exact Hwf |].
  apply lt_pow2_of_bits; [lia | apply window_nonneg; exact Hwf |].
  intros k Hk. apply window_high; assumption.
Qed.

(** ** Reading and writing the window *)

Lemma resolve_offset_ok (buflen o : Z) :
  0 <= o -> o + 4 <= buflen -> Struct.resolve_offset buflen o = Ret o.
Proof.
  intros Ho Hlen. unfold Struct.resolve_offset.
  destruct (Z.ltb_spec o 0); [lia |].
  destruct (Z.ltb_spec (buflen - o) 4); [lia | reflexivity].
Qed.

Lemma unpack_from_window (buf : list Z) (s : Z) :
  0 <= s -> s + 4 <= Py.len buf -> Struct.unpack_from buf s = Ret (window buf s).
Proof.
  intros Hs Hlen. unfold Struct.unpack_from.
  rewrite resolve_offset_ok by assumption. reflexivity.
Qed.

Lemma pack_into_poke (buf : list Z) (s v : Z) :
  0 <= s -> s + 4 <= Py.len buf -> 0 <= v < 2 ^ 32 ->
  Struct.pack_into buf s v = Ret (poke buf s v).
Proof.
  intros Hs Hlen Hv. unfold Struct.pack_into.
  rewrite resolve_offset_ok by assumption. cbn [bind].
  change (2 ^ 32) with 4294967296 in Hv.
  destruct (Z.ltb_spec v 0); [lia |].
  destruct (Z.ltb_spec 4294967295 v); [lia |]. reflexivity.
Qed.

Lemma land_255_range (x : Z) : 0 <= Z.land x 255 < 256.
Proof.
  change 255 with (Z.ones 8). rewrite Z.land_ones by lia.
  change (2 ^ 8) with 256. apply Z.mod_pos_bound. lia.
Qed.

Lemma land_255_testbit (x k : Z) :
  0 <= k < 8 -> Z.testbit (Z.land x 255) k = Z.testbit x k.
Proof.
  intros Hk. change 255 with (Z.ones 8). rewrite Z.land_spec.
  rewrite Z.testbit_ones_nonneg by lia.
  destruct (Z.ltb_spec k 8); [apply Bool.andb_true_r | lia].
Qed.

Lemma wf_be_bytes (v : Z) : wf_bytes (Struct.be_bytes v).
Proof.
  unfold wf_bytes, Struct.be_bytes.
  repeat (apply Forall_cons; [apply land_255_range |]). apply Forall_nil.
Qed.

Lemma be_value_be_bytes (v : Z) :
  0 <= v < 2 ^ 32 -> Struct.be_value (Struct.be_bytes v) = v.
Proof.
  intros Hv. apply Z.bits_inj'. intros k Hk.
  unfold Struct.be_value, Struct.be_bytes. cbn [fold_left].
  rewrite be_step_testbit by (try apply land_255_range; lia).
  destruct (Z.ltb_spec k 8).
  { apply land_255_testbit. lia. }
  rewrite be_step_testbit by (try apply land_255_range; lia).
  destruct (Z.ltb_spec (k - 8) 8).
  { rewrite land_255_testbit, Z.shiftr_spec by lia. f_equal. lia. }
  rewrite be_step_testbit by (try apply land_255_range; lia).
  destruct (Z.ltb_spec (k - 8 - 8) 8).
  { rewrite land_255_testbit, Z.shiftr_spec by lia. f_equal. lia. }
  rewrite be_step_testbit by (try apply land_255_range; lia).
  destruct (Z.ltb_spec (k - 8 - 8 - 8) 8).
  { rewrite land_255_testbit, Z.shiftr_spec by lia. f_equal. lia. }
  rewrite Z.bits_0. symmetry. apply (testbit_small v 32); lia.
Qed.

Section Poke.

Variables (buf : list Z) (s v : Z).
Hypothesis Hs : 0 <= s.
Hypothesis Hlen : s + 4 <= Py.len buf.

Lemma length_poke : List.length (poke buf s v) = List.length buf.
Proof.
  unfold poke, Py.len in *. rewrite !length_app, length_firstn, length_skipn.
  cbn [List.length Struct.be_bytes]. lia.
Qed.

Lemma wf_poke : wf_bytes buf -> wf_bytes (poke buf s v).
Proof.
  intros Hwf. unfold poke. apply Forall_app. split; [apply wf_firstn, Hwf |].
  apply Forall_app. split; [apply wf_be_bytes | apply wf_skipn, Hwf].
Qed.

Lemma window_poke : 0 <= v < 2 ^ 32 -> window (poke buf s v) s = v.
Proof.
  intros Hv. unfold window, poke, Py.len in *.
  rewrite skipn_app, length_firstn.
  replace (Z.to_nat s - Nat.min (Z.to_nat s) (List.length buf))%nat with 0%nat by lia.
  rewrite skipn_all2 by (rewrite length_firstn; lia).
  cbn [app skipn firstn Struct.be_bytes].
  apply (be_value_be_bytes v Hv).
Qed.

Lemma nth_poke_outside (j : nat) :
  (j < Z.to_nat s \/ Z.to_nat s + 4 <= j)%nat ->
  List.nth j (poke buf s v) 0 = List.nth j buf 0.
Proof.
  intros Hj. unfold poke, Py.len in *.
  assert (List.length (firstn (Z.to_nat s) buf) = Z.to_nat s) as Hfl
      by (rewrite length_firstn; lia).
  destruct Hj as [Hlt | Hge].
  - rewrite app_nth1 by lia. rewrite nth_firstn.
    destruct (Nat.ltb_spec j (Z.to_nat s)); [reflexivity | lia].
  - rewrite app_nth2 by lia. rewrite Hfl.
    rewrite app_nth2 by (cbn [List.length Struct.be_bytes]; lia).
    cbn [List.length Struct.be_bytes]. rewrite nth_skipn. f_equal. lia.
Qed.

Lemma buffer_bit_poke_outside (i : Z) :
  0 <= i -> i < 8 * s \/ 8 * s + 32 <= i ->
  buffer_bit (poke buf s v) i = buffer_bit buf i.
Proof.
  intros Hi Hout. unfold buffer_bit. rewrite nth_poke_outside; [reflexivity |].
  destruct Hout; [left | right]; Z.div_mod_to_equations; lia.
Qed.

Lemma buffer_bit_poke_inside (k : Z) :
  wf_bytes buf -> 0 <= v < 2 ^ 32 -> 0 <= k < 32 ->
  buffer_bit (poke buf s v) (8 * s + 31 - k) = Z.testbit v k.
Proof.
  intros Hwf Hv Hk. rewrite <- window_testbit.
  - rewrite window_poke by exact Hv. reflexivity.
  - apply wf_poke, Hwf.
  - exact Hs.
  - unfold Py.len. rewrite length_poke. exact Hlen.
  - exact Hk.
Qed.

End Poke.

(** ** The word written back by [setField] *)

Lemma mask_is_ones (w : Z) : 0 <= w -> Z.shiftl 1 w - 1 = Z.ones w.
Proof.
  intros Hw. rewrite Z.shiftl_1_l, Z.ones_equiv. lia.
Qed.

Lemma spliced_testbit (W w shift v k : Z) :
  0 <= w -> 0 <= shift -> 0 <= v < 2 ^ w -> 0 <= k ->
  Z.testbit (spliced W w shift v) k
  = if (shift <=? k) && (k <? shift + w) then Z.testbit v (k - shift)
    else Z.testbit W k.
Proof.
  intros Hw Hshift Hv Hk. unfold spliced. rewrite mask_is_ones by exact Hw.
  rewrite Z.lor_spec, Z.land_spec, Z.lnot_spec, !Z.shiftl_spec by exact Hk.
  destruct (Z.leb_spec shift k) as [Hle | Hgt]; cbn [andb].
  - rewrite Z.testbit_ones_nonneg by lia.
    destruct (Z.ltb_spec (k - shift) w) as [Hin | Hout];
      destruct (Z.ltb_spec k (shift + w)); try lia.
    + cbn [negb]. rewrite Bool.andb_false_r. reflexivity.
    + cbn [negb]. rewrite (testbit_small v w (k - shift)) by lia.
      rewrite Bool.andb_true_r, Bool.orb_false_r. reflexivity.
  - rewrite !(Z.testbit_neg_r _ (k - shift)) by lia. cbn [negb].
    rewrite Bool.andb_true_r, Bool.orb_false_r. reflexivity.
Qed.

Lemma spliced_range (W w shift v : Z) :
  0 <= W < 2 ^ 32 -> 0 <= w -> 0 <= shift -> w + shift <= 32 ->
  0 <= v < 2 ^ w ->
  0 <= spliced W w shift v < 2 ^ 32.
Proof.
  intros HW Hw Hshift Hfit Hv.
  assert (0 <= spliced W w shift v) as Hnonneg.
  { unfold spliced. apply Z.lor_nonneg. split.
    - apply Z.land_nonneg. left. lia.
    - apply Z.shiftl_nonneg. lia. }
  split; [exact Hnonneg |].
  apply lt_pow2_of_bits; [lia | exact Hnonneg |].
  intros k Hk. rewrite spliced_testbit by lia.
  destruct (Z.leb_spec shift k); destruct (Z.ltb_spec k (shift + w));
    cbn [andb]; try lia; apply (testbit_small W 32); lia.
Qed.

(** ** Specification of [getField] and [setField] by buffer bits *)

Section FieldAccess.

Variables (buf : list Z) (f : IEBusMessageField).
Hypothesis Hwf : wf_bytes buf.
Hypothesis Hadm : admissible buf f.

Let off := BitOffset f.
Let w := LengthBits f.
Let shift := 4 * 8 - w - off mod 8.

Lemma field_shift_bounds : 0 <= shift /\ w + shift <= 32 /\ 0 <= off / 8.
Proof.
  destruct Hadm as (Hoff & Hw & Hbits & Hlen). subst off w shift.
  pose proof (Z.mod_pos_bound (BitOffset f) 8 eq_refl).
  split; [lia |]. split; [lia |]. apply Z.div_pos; [exact Hoff | lia].
Qed.

Lemma field_bit_position (j : Z) :
  8 * (off / 8) + 31 - (j + shift) = off + w - 1 - j.
Proof.
  subst shift. pose proof (Z.div_mod off 8). lia.
Qed.

Lemma getField_spec :
  exists x : Z,
    IEBusMessage.getField buf f = Ret x
    /\ 0 <= x < 2 ^ w
    /\ forall j, 0 <= j < w -> Z.testbit x j = buffer_bit buf (off + w - 1 - j).
Proof.
  pose proof field_shift_bounds as (Hsh & Hfit & Hs).
  destruct Hadm as (Hoff & Hw & Hbits & Hlen). fold off w in Hoff, Hw, Hbits, Hlen.
  exists ((Z.shiftr (window buf (off / 8)) shift) mod 2 ^ w).
  split; [| split].
  - unfold IEBusMessage.getField, Py.lshift, Py.rshift, Py.int_div.
    fold off w. rewrite Z.quot_div_nonneg by lia.
    destruct (Z.ltb_spec w 0); [lia |]. cbn [bind].
    rewrite unpack_from_window by lia. cbn [bind].
    fold shift. destruct (Z.ltb_spec shift 0); [lia |]. cbn [bind].
    rewrite mask_is_ones, Z.land_ones by lia. reflexivity.
  - apply Z.mod_pos_bound. apply Z.pow_pos_nonneg; lia.
  - intros j Hj. rewrite Z.mod_pow2_bits_low, Z.shiftr_spec by lia.
    rewrite window_testbit by (try assumption; lia).
    rewrite field_bit_position. reflexivity.
Qed.

Variable v : Z.
Hypothesis Hv : 0 <= v < 2 ^ w.

Lemma setField_spec :
  exists buf' : list Z,
    IEBusMessage.setField buf f v = Ret buf'
    /\ List.length buf' = List.length buf
    /\ wf_bytes buf'
    /\ (forall j, 0 <= j < w ->
          buffer_bit buf' (off + w - 1 - j) = Z.testbit v j)
    /\ (forall i, 0 <= i -> ~ (off <= i < off + w) ->
          buffer_bit buf' i = buffer_bit buf i).
Proof.
  pose proof field_shift_bounds as (Hsh & Hfit & Hs).
  destruct Hadm as (Hoff & Hw & Hbits & Hlen). fold off w in Hoff, Hw, Hbits, Hlen.
  pose proof (window_range buf (off / 8) Hwf Hs Hlen) as HW.
  pose proof (spliced_range _ w shift v HW Hw Hsh Hfit Hv) as HW'.
  exists (poke buf (off / 8) (spliced (window buf (off / 8)) w shift v)).
  split; [| split; [| split; [| split]]].
  - unfold IEBusMessage.setField, Py.lshift, Py.int_div.
    fold off w. rewrite Z.quot_div_nonneg by lia.
    destruct (Z.ltb_spec w 0); [lia |]. cbn [bind]. fold shift.
    destruct (Z.ltb_spec shift 0); [lia |]. cbn [bind].
    rewrite unpack_from_window by lia. cbn [bind].
    rewrite <- pack_into_poke by lia. reflexivity.
  - apply length_poke; assumption.
  - apply wf_poke, Hwf.
  - intros j Hj. rewrite <- field_bit_position.
    rewrite buffer_bit_poke_inside by (try assumption; lia).
    rewrite spliced_testbit by lia.
    destruct (Z.leb_spec shift (j + shift)); [| lia].
    destruct (Z.ltb_spec (j + shift) (shift + w)); [| lia].
    cbn [andb]. f_equal. lia.
  - intros i Hi Hout.
    destruct (Z.lt_ge_cases i (8 * (off / 8))) as [Hlo | Hlo].
    { apply buffer_bit_poke_outside; try assumption. left. exact Hlo. }
    destruct (Z.lt_ge_cases i (8 * (off / 8) + 32)) as [Hhi | Hhi].
    2:{ apply buffer_bit_poke_outside; try assumption. right. exact Hhi. }
    replace i with (8 * (off / 8) + 31 - (8 * (off / 8) + 31 - i)) by lia.
    rewrite buffer_bit_poke_inside by (try assumption; lia).
    rewrite spliced_testbit by lia.
    rewrite window_testbit by (try assumption; lia).
    pose proof (field_bit_position (8 * (off / 8) + 31 - i - shift)) as Hpos.
    destruct (Z.leb_spec shift (8 * (off / 8) + 31 - i));
      destruct (Z.ltb_spec (8 * (off / 8) + 31 - i) (shift + w));
      cbn [andb]; try reflexivity.
    exfalso. apply Hout. lia.
Qed.

End FieldAccess.

Lemma eq_of_low_bits (x y w : Z) :
  0 <= x < 2 ^ w -> 0 <= y < 2 ^ w ->
  (forall j, 0 <= j < w -> Z.testbit x j = Z.testbit y j) -> x = y.
Proof.
  intros Hx Hy Hbits. apply Z.bits_inj'. intros j Hj.
  destruct (Z.lt_ge_cases j w) as [Hlt | Hge].
  - apply Hbits. lia.
  - rewrite (testbit_small x w j), (testbit_small y w j) by lia. reflexivity.
Qed.

Lemma admissible_same_length (buf buf' : list Z) (f : IEBusMessageField) :
  List.length buf' = List.length buf -> admissible buf f -> admissible buf' f.
Proof.
  unfold admissible, Py.len. intros ->. tauto.
Qed.

Lemma wf_zero (n : Z) : wf_bytes (Py.replicate 0 n).
Proof.
  unfold wf_bytes, Py.replicate. apply Forall_forall. intros x Hx.
  apply repeat_spec in Hx. lia.
Qed.

(** Reading back the field just written. *)
Lemma getField_setField_same (buf : list Z) (f : IEBusMessageField) (v : Z) :
  wf_bytes buf -> admissible buf f -> 0 <= v < 2 ^ LengthBits f ->
  exists buf' : list Z,
    IEBusMessage.setField buf f v = Ret buf'
    /\ IEBusMessage.getField buf' f = Ret v.
Proof.
  intros Hwf Hadm Hv.
  destruct (setField_spec buf f Hwf Hadm v Hv) as (buf' & Hset & Hlen & Hwf' & Hin & _).
  exists buf'. split; [exact Hset |].
  destruct (getField_spec buf' f Hwf' (admissible_same_length _ _ _ Hlen Hadm))
    as (x & Hget & Hx & Hbits).
  rewrite Hget. f_equal. apply (eq_of_low_bits x v (LengthBits f) Hx Hv).
  intros j Hj. rewrite Hbits, Hin by exact Hj. reflexivity.
Qed.

(** C1. For every field width in {1, 4, 8, 12}, every bit offset whose
    4-byte window lies inside the (guarded) buffer and every value [v] in
    [0, 2^w), [setField] succeeds and [getField] on the written buffer
    returns exactly [v]. *)
Theorem field_round_trip :
  forall (buf : list Z) (f : IEBusMessageField) (v : Z),
    wf_bytes buf ->
    In (LengthBits f) [1; 4; 8; 12] ->
    0 <= BitOffset f ->
    BitOffset f / 8 + 4 <= Py.len buf ->
    0 <= v < 2 ^ LengthBits f ->
    exists buf' : list Z,
      IEBusMessage.setField buf f v = Ret buf'
      /\ IEBusMessage.getField buf' f = Ret v.
Proof.
  intros buf f v Hwf Hw Hoff Hlen Hv.
  apply getField_setField_same; [exact Hwf | | exact Hv].
  pose proof (Z.mod_pos_bound (BitOffset f) 8 eq_refl) as Hmod.
  unfold admissible. cbn [In] in Hw.
  repeat split; try assumption;
    destruct Hw as [<- | [<- | [<- | [<- | []]]]]; lia.
Qed.

Lemma field_round_trip_witness :
  exists buf' : list Z,
    IEBusMessage.setField (Py.replicate 0 68) (IEBusMessage.Data 3) 165 = Ret buf'
    /\ IEBusMessage.getField buf' (IEBusMessage.Data 3) = Ret 165.
Proof.
  apply (field_round_trip (Py.replicate 0 68) (IEBusMessage.Data 3) 165).
  - apply wf_zero.
  - cbn. tauto.
  - cbn. lia.
  - vm_compute. discriminate.
  - cbn. lia.
Defined.

(** C10. For a field [f] and a value [v] with [0 <= v < 2^LengthBits],
    [setField] succeeds, keeps the buffer length, and leaves every bit of
    the buffer outside the [LengthBits] bits starting at [BitOffset]
    unchanged. The bound on [v] is needed: the value is shifted into place
    without being masked, and writing the 13-bit value 0x1000 into the
    12-bit master address of a zero buffer sets bit 0, the broadcast flag,
    which lies outside the field. *)
Theorem setField_frame :
  forall (buf : list Z) (f : IEBusMessageField) (v : Z),
    wf_bytes buf ->
    admissible buf f ->
    0 <= v < 2 ^ LengthBits f ->
    (exists buf' : list Z,
        IEBusMessage.setField buf f v = Ret buf'
        /\ List.length buf' = List.length buf
        /\ forall i,
            0 <= i < 8 * Py.len buf ->
            ~ (BitOffset f <= i < BitOffset f + LengthBits f) ->
            buffer_bit buf' i = buffer_bit buf i)
    /\ (exists buf0' : list Z,
           IEBusMessage.setField (Py.replicate 0 68) IEBusMessage.MasterAddress 4096
           = Ret buf0'
           /\ ~ (BitOffset IEBusMessage.MasterAddress <= 0
                 < BitOffset IEBusMessage.MasterAddress
                   + LengthBits IEBusMessage.MasterAddress)
           /\ buffer_bit (Py.replicate 0 68) 0 = false
           /\ buffer_bit buf0' 0 = true).
Proof.
  intros buf f v Hwf Hadm Hv. split.
  - destruct (setField_spec buf f Hwf Hadm v Hv)
      as (buf' & Hset & Hlen & _ & _ & Hout).
    exists buf'. split; [exact Hset |]. split; [exact Hlen |].
    intros i Hi Hnot. apply Hout; [lia | exact Hnot].
  - eexists. split; [vm_compute; reflexivity |].
    split; [cbn; lia |]. split; vm_compute; reflexivity.
Qed.

Lemma setField_frame_witness :
  exists buf' : list Z,
    IEBusMessage.setField (Py.replicate 0 68) IEBusMessage.Control 15 = Ret buf'
    /\ List.length buf' = List.length (Py.replicate 0 68)
    /\ forall i,
        0 <= i < 8 * Py.len (Py.replicate 0 68) ->
        ~ (BitOffset IEBusMessage.Control <= i
           < BitOffset IEBusMessage.Control + LengthBits IEBusMessage.Control) ->
        buffer_bit buf' i = buffer_bit (Py.replicate 0 68) i.
Proof.
  apply (setField_frame (Py.replicate 0 68) IEBusMessage.Control 15).
  - apply wf_zero.
  - unfold admissible. cbn. repeat split; try lia. vm_compute. discriminate.
  - cbn. lia.
Defined.

(** ** Line signal encoder *)

Lemma len_replicate {A : Type} (x : A) (n : Z) :
  Py.len (Py.replicate x n) = Z.max 0 n.
Proof.
  unfold Py.len, Py.replicate. rewrite repeat_length. lia.
Qed.

Lemma len_app {A : Type} (l l' : list A) : Py.len (l ++ l') = Py.len l + Py.len l'.
Proof.
  unfold Py.len. rewrite length_app. lia.
Qed.

Lemma len_nil {A : Type} : Py.len (@nil A) = 0.
Proof. reflexivity. Qed.

Lemma len_cons {A : Type} (x : A) (l : list A) : Py.len (x :: l) = 1 + Py.len l.
Proof.
  unfold Py.len. cbn [List.length]. lia.
Qed.

Lemma len_make_output_from_bit (bitVal : bool) :
  Py.len (IEBusBitBang.make_output_from_bit bitVal) = IEBusBitBang.T_Bit.
Proof.
  destruct bitVal; vm_compute; reflexivity.
Qed.

Lemma len_fold_bits (messageBits : list bool) :
  forall bitStr : list ascii,
    Py.len (fold_left
              (fun bitStr bitVal => bitStr ++ IEBusBitBang.make_output_from_bit bitVal)
              messageBits bitStr)
    = Py.len bitStr + Py.len messageBits * IEBusBitBang.T_Bit.
Proof.
  induction messageBits as [| b bits IH]; intros bitStr.
  - cbn [fold_left]. rewrite (@len_nil bool). lia.
  - cbn [fold_left]. rewrite IH, len_app, len_make_output_from_bit, len_cons.
    lia.
Qed.

Lemma len_make_output_from_iebus_bits (messageBits : list bool) :
  Py.len (IEBusBitBang.make_output_from_iebus_bits messageBits)
  = IEBusBitBang.T_StartBit + IEBusBitBang.T_Bit_1
    + Py.len messageBits * IEBusBitBang.T_Bit + IEBusBitBang.T_TxWait.
Proof.
  unfold IEBusBitBang.make_output_from_iebus_bits.
  rewrite len_app, len_fold_bits, !len_app.
  unfold IEBusBitBang.make_output_segment. rewrite !len_replicate.
  destruct timing_values as (-> & -> & -> & _ & ->).
  rewrite (@len_nil ascii). cbn [Z.max]. lia.
Qed.

(** Every byte is rendered by ['{:08b}'] as exactly eight characters. *)
Lemma format_08b_length (b : Z) :
  0 <= b < 256 -> List.length (PyStr.format_chars true 8 2 b) = 8%nat.
Proof.
  intros Hb.
  assert (List.forallb
            (fun n => Nat.eqb (List.length (PyStr.format_chars true 8 2 (Z.of_nat n))) 8)
            (List.seq 0 256) = true) as Hall by (vm_compute; reflexivity).
  rewrite forallb_forall in Hall.
  specialize (Hall (Z.to_nat b)). rewrite Z2Nat.id in Hall by lia.
  apply Nat.eqb_eq, Hall, in_seq. lia.
Qed.

Lemma len_bytes_to_bits (messageBytes : list Z) :
  wf_bytes messageBytes ->
  Py.len (IEBusBitBang.bytes_to_bits messageBytes) = 8 * Py.len messageBytes.
Proof.
  intros Hwf. unfold IEBusBitBang.bytes_to_bits, Py.len. rewrite length_map.
  induction Hwf as [| b bs Hb Hbs IH]; [reflexivity |].
  cbn [map List.concat]. rewrite length_app, format_08b_length by exact Hb.
  cbn [List.length]. lia.
Qed.

Lemma getField_DataLength (buf : list Z) :
  wf_bytes buf -> 8 <= Py.len buf ->
  exists d : Z,
    IEBusMessage.getField buf IEBusMessage.DataLength = Ret d /\ 0 <= d < 256.
Proof.
  intros Hwf Hlen.
  assert (admissible buf IEBusMessage.DataLength) as Hadm.
  { unfold admissible. cbn [BitOffset LengthBits IEBusMessage.DataLength].
    change (34 mod 8) with 2. change (34 / 8) with 4. lia. }
  destruct (getField_spec buf IEBusMessage.DataLength Hwf Hadm) as (d & Hget & Hd & _).
  exists d. split; [exact Hget | exact Hd].
Qed.

(** C2. The line signal of a message whose logical bit sequence has [n]
    bits has exactly [T_StartBit + T_Bit_1 + n * T_Bit + T_TxWait]
    = [170 + 20 + 41 * n + 88] samples, for every bit list of any length
    [n >= 0]; each data bit contributes [T_Bit] samples whatever its value;
    the encoder returns on every message whose buffer holds its header, and
    for a 68-byte message with data length [d <= 50] the logical bit
    sequence has [n = 44 + 10 * d] bits. *)
Theorem waveform_length :
  forall message : IEBusMessage.t,
    wf_bytes (IEBusMessage.message_bytes message) ->
    8 <= Py.len (IEBusMessage.message_bytes message) ->
    (forall b : bool,
        Py.len (IEBusBitBang.make_output_from_bit b) = IEBusBitBang.T_Bit)
    /\ (forall messageBits : list bool,
           Py.len (IEBusBitBang.make_output_from_iebus_bits messageBits)
           = 170 + 20 + 41 * Py.len messageBits + 88)
    /\ exists (msgBytes : list Z) (d : Z),
        IEBusMessage.getAsBytes message = Ret msgBytes
        /\ IEBusMessage.getField (IEBusMessage.message_bytes message)
                                 IEBusMessage.DataLength = Ret d
        /\ let msgBits :=
             Py.slice_to (IEBusBitBang.bytes_to_bits msgBytes) (44 + 10 * d) in
           let n := Py.len msgBits in
           IEBusBitBang.make_output_from_iebus_message message
           = Ret (IEBusBitBang.make_output_from_iebus_bits msgBits)
           /\ Py.len (IEBusBitBang.make_output_from_iebus_bits msgBits)
              = 170 + 20 + 41 * n + 88
           /\ 170 + 20 + 41 * n + 88
              = IEBusBitBang.T_StartBit + IEBusBitBang.T_Bit_1
                + n * IEBusBitBang.T_Bit + IEBusBitBang.T_TxWait
           /\ (Py.len (IEBusMessage.message_bytes message) = 68 -> d <= 50 ->
               n = 44 + 10 * d).
Proof.
  intros message Hwf Hlen. split; [exact len_make_output_from_bit |].
  split.
  { intros messageBits. rewrite len_make_output_from_iebus_bits.
    destruct timing_values as (-> & -> & -> & _ & ->). lia. }
  destruct (getField_DataLength _ Hwf Hlen) as (d & Hget & Hd).
  exists (Py.slice_to (IEBusMessage.message_bytes message)
                      (Py.int_div (44 + 10 * d - 1) 8 + 1)), d.
  assert (IEBusMessage.getLengthInBits message = Ret (44 + 10 * d)) as HL.
  { unfold IEBusMessage.getLengthInBits. rewrite Hget. reflexivity. }
  split; [| split; [exact Hget |]].
  { unfold IEBusMessage.getAsBytes. rewrite HL. reflexivity. }
  cbv zeta.
  destruct timing_values as (E1 & E2 & E3 & _ & E4).
  split; [| split; [| split]].
  - unfold IEBusBitBang.make_output_from_iebus_message, IEBusMessage.getAsBytes.
    rewrite HL. reflexivity.
  - rewrite len_make_output_from_iebus_bits, E1, E2, E3, E4. lia.
  - rewrite E1, E2, E3, E4. lia.
  - intros H68 Hd50. unfold Py.slice_to, Py.int_div.
    rewrite Z.quot_div_nonneg by lia.
    destruct (Z.ltb_spec ((44 + 10 * d - 1) / 8 + 1) 0);
      [Z.div_mod_to_equations; lia |].
    destruct (Z.ltb_spec (44 + 10 * d) 0); [lia |].
    unfold Py.len at 1. rewrite length_firstn.
    pose proof (len_bytes_to_bits
                  (firstn (Z.to_nat ((44 + 10 * d - 1) / 8 + 1))
                          (IEBusMessage.message_bytes message))
                  (wf_firstn _ _ Hwf)) as Hbits.
    unfold Py.len in Hbits, H68. rewrite length_firstn in Hbits.
    Z.div_mod_to_equations. lia.
Qed.

Lemma waveform_length_witness :
  Py.len (IEBusBitBang.make_output_from_bit true) = IEBusBitBang.T_Bit.
Proof.
  apply (proj1 (waveform_length (IEBusMessage.mkMessage (Py.replicate 0 68) None)
                                (wf_zero 68) ltac:(vm_compute; discriminate))).
Defined.

(** ** Byte packing *)

Lemma range_step (n : Z) :
  0 <= n -> Py.range 0 (n + 8) 8 = 0 :: List.map (fun i => i + 8) (Py.range 0 n 8).
Proof.
  intros Hn. unfold Py.range.
  replace ((n + 8 - 0 + 8 - 1) / 8) with ((n - 0 + 8 - 1) / 8 + 1)
    by (Z.div_mod_to_equations; lia).
  rewrite Z2Nat.inj_add by (try lia; Z.div_mod_to_equations; lia).
  rewrite Nat.add_1_r. cbn [seq map]. f_equal; try lia.
  rewrite <- seq_shift, !map_map. apply map_ext. intros k. lia.
Qed.

Lemma range_short (n : Z) : 0 < n <= 8 -> Py.range 0 n 8 = [0].
Proof.
  intros Hn. unfold Py.range.
  replace ((n - 0 + 8 - 1) / 8) with 1 by (Z.div_mod_to_equations; lia).
  reflexivity.
Qed.

Lemma slice_shift (c rest : list ascii) (i : Z) :
  List.length c = 8%nat -> 0 <= i ->
  Py.slice (c ++ rest) (i + 8) (i + 8 + 8) = Py.slice rest i (i + 8).
Proof.
  intros Hc Hi. unfold Py.slice, Py.adjust_index. rewrite len_app.
  assert (Py.len c = 8) as -> by (unfold Py.len; lia).
  pose proof (Zle_0_nat (List.length rest)) as Hrest. fold (Py.len rest) in Hrest.
  destruct (Z.ltb_spec (i + 8) 0); [lia |].
  destruct (Z.ltb_spec (i + 8 + 8) 0); [lia |].
  destruct (Z.ltb_spec i 0); [lia |].
  destruct (Z.ltb_spec (i + 8) 0); [lia |].
  replace (Z.to_nat (Z.min (i + 8) (8 + Py.len rest)))
    with (List.length c + Z.to_nat (Z.min i (Py.len rest)))%nat by lia.
  rewrite skipn_app, skipn_all2 by lia.
  replace (List.length c + Z.to_nat (Z.min i (Py.len rest)) - List.length c)%nat
    with (Z.to_nat (Z.min i (Py.len rest))) by lia.
  cbn [app]. f_equal. lia.
Qed.

Lemma slice_whole (s : list ascii) : Py.len s <= 8 -> Py.slice s 0 (0 + 8) = s.
Proof.
  intros Hs. unfold Py.slice, Py.adjust_index. cbn [Z.ltb Z.compare Z.add].
  unfold Py.len in *.
  replace (Z.min 0 (Z.of_nat (List.length s))) with 0 by lia.
  cbn [Z.to_nat skipn]. apply firstn_all2. lia.
Qed.

Lemma byteStrings_nil : IEBusBitBang.byteStrings [] = [].
Proof. reflexivity. Qed.

Lemma byteStrings_short (s : list ascii) :
  0 < Py.len s <= 8 ->
  IEBusBitBang.byteStrings s = [s ++ Py.replicate "1"%char (8 - Py.len s)].
Proof.
  intros Hs. unfold IEBusBitBang.byteStrings. rewrite range_short by exact Hs.
  cbn [map]. rewrite slice_whole by lia. reflexivity.
Qed.

Lemma byteStrings_step (c rest : list ascii) :
  List.length c = 8%nat -> rest <> [] ->
  IEBusBitBang.byteStrings (c ++ rest) = c :: IEBusBitBang.byteStrings rest.
Proof.
  intros Hc Hrest. unfold IEBusBitBang.byteStrings. rewrite len_app.
  assert (Py.len c = 8) as Hlen by (unfold Py.len; lia).
  rewrite Hlen, Z.add_comm, range_step by (unfold Py.len; lia).
  cbn [map]. f_equal.
  - unfold Py.slice, Py.adjust_index. cbn [Z.ltb Z.compare Z.add].
    rewrite len_app, Hlen.
    replace (Z.min 0 (8 + Py.len rest)) with 0 by (unfold Py.len; lia).
    replace (Z.max 0 (Z.min 8 (8 + Py.len rest)) - 0) with 8
      by (unfold Py.len; lia).
    cbn [Z.to_nat skipn]. change (Pos.to_nat 8) with 8%nat.
    rewrite <- Hc, firstn_app, Nat.sub_diag, firstn_all. cbn [firstn].
    rewrite app_nil_r. unfold IEBusBitBang.ljust.
    replace (8 - Py.len c) with 0 by lia. cbn. apply app_nil_r.
  - rewrite map_map. apply map_ext_in. intros i Hi.
    rewrite slice_shift; [reflexivity | exact Hc |].
    unfold Py.range in Hi. apply in_map_iff in Hi. destruct Hi as (k & <- & _).
    lia.
Qed.

Lemma eight_samples (c : list ascii) :
  List.length c = 8%nat -> binary c ->
  exists v : Z,
    PyStr.int_chars c 2 = Ret v /\ 0 <= v < 256
    /\ List.map sample_of_bit
         (List.map (fun x => Ascii.eqb x "1"%char) (PyStr.format_chars true 8 2 v))
       = c.
Proof.
  intros Hlen Hbin.
  destruct c as [| c1 [| c2 [| c3 [| c4 [| c5 [| c6 [| c7 [| c8 [| ? ?]]]]]]]]];
    try discriminate Hlen.
  unfold binary in Hbin.
  repeat match goal with
         | H : Forall _ (_ :: _) |- _ => inversion H; clear H; subst
         end.
  repeat match goal with
         | H : _ \/ _ |- _ => destruct H; subst
         end;
    eexists; (split; [vm_compute; reflexivity |]);
    (split; [lia | vm_compute; reflexivity]).
Qed.

Lemma bytes_to_bits_cons (v : Z) (vs : list Z) :
  IEBusBitBang.bytes_to_bits (v :: vs)
  = List.map (fun x => Ascii.eqb x "1"%char) (PyStr.format_chars true 8 2 v)
    ++ IEBusBitBang.bytes_to_bits vs.
Proof.
  unfold IEBusBitBang.bytes_to_bits. cbn [map List.concat]. apply map_app.
Qed.

Lemma binary_app (s t : list ascii) : binary s -> binary t -> binary (s ++ t).
Proof.
  intros Hs Ht. apply Forall_app. split; assumption.
Qed.

Lemma wf_firstn_binary (n : nat) (s : list ascii) : binary s -> binary (firstn n s).
Proof.
  intros Hs. unfold binary in *. rewrite <- (firstn_skipn n s) in Hs.
  apply Forall_app in Hs. tauto.
Qed.

Lemma wf_skipn_binary (n : nat) (s : list ascii) : binary s -> binary (skipn n s).
Proof.
  intros Hs. unfold binary in *. rewrite <- (firstn_skipn n s) in Hs.
  apply Forall_app in Hs. tauto.
Qed.

Lemma binary_idle (n : Z) : binary (Py.replicate "1"%char n).
Proof.
  apply Forall_forall. intros x Hx. apply repeat_spec in Hx. right. exact Hx.
Qed.

(** Packing, chunk by chunk: the comprehension over [byteStrings] returns
    bytes whose expansion is the sample string followed by the idle padding
    of the last chunk. *)
Lemma packing (n : nat) :
  forall s : list ascii,
    (List.length s <= n)%nat -> binary s ->
    exists vs : list Z,
      Py.comprehension (fun byteStr => PyStr.int_chars byteStr 2)
                       (IEBusBitBang.byteStrings s) = Ret vs
      /\ wf_bytes vs
      /\ List.map sample_of_bit (IEBusBitBang.bytes_to_bits vs)
         = s ++ Py.replicate "1"%char ((8 - Py.len s mod 8) mod 8).
Proof.
  induction n as [| n IH]; intros s Hlen Hbin.
  - destruct s; [| cbn in Hlen; lia].
    exists []. repeat split. apply Forall_nil.
  - destruct (Nat.eq_dec (List.length s) 0) as [Hz | Hnz].
    { destruct s; [| discriminate Hz]. exists []. repeat split. apply Forall_nil. }
    destruct (Nat.le_gt_cases (List.length s) 8) as [Hshort | Hlong].
    + assert (0 < Py.len s <= 8) as Hs by (unfold Py.len; lia).
      rewrite byteStrings_short by exact Hs.
      destruct (eight_samples (s ++ Py.replicate "1"%char (8 - Py.len s)))
        as (v & Hint & Hv & Hback).
      { rewrite length_app. unfold Py.replicate, Py.len. rewrite repeat_length. lia. }
      { apply binary_app; [exact Hbin | apply binary_idle]. }
      exists [v]. cbn [Py.comprehension]. rewrite Hint. cbn [bind].
      split; [reflexivity |]. split; [apply Forall_cons; [exact Hv | apply Forall_nil] |].
      rewrite bytes_to_bits_cons. cbn [IEBusBitBang.bytes_to_bits map List.concat].
      rewrite app_nil_r, Hback. f_equal. f_equal.
      destruct (Z.eq_dec (Py.len s) 8) as [-> | Hne]; [reflexivity |].
      rewrite (Z.mod_small (Py.len s)) by lia. rewrite Z.mod_small by lia.
      reflexivity.
    + destruct (IH (skipn 8 s)) as (vs & Hvs & Hwf & Hback).
      { rewrite length_skipn. lia. }
      { apply (wf_skipn_binary 8 s Hbin). }
      destruct (eight_samples (firstn 8 s)) as (v & Hint & Hv & Hc).
      { rewrite length_firstn. lia. }
      { apply (wf_firstn_binary 8 s Hbin). }
      exists (v :: vs).
      rewrite <- (firstn_skipn 8 s) at 1.
      rewrite byteStrings_step.
      2:{ rewrite length_firstn. lia. }
      2:{ intros Hnil. apply (f_equal (@List.length ascii)) in Hnil.
          rewrite length_skipn in Hnil. cbn in Hnil. lia. }
      cbn [Py.comprehension]. rewrite Hint, Hvs. cbn [bind].
      split; [reflexivity |]. split; [apply Forall_cons; assumption |].
      rewrite bytes_to_bits_cons, map_app, Hc, Hback, app_assoc, firstn_skipn.
      f_equal. f_equal.
      unfold Py.len. rewrite length_skipn.
      replace (Z.of_nat (List.length s - 8))
        with (Z.of_nat (List.length s) + (-1) * 8) by lia.
      rewrite Z.mod_add by lia. reflexivity. 
Qed.

Lemma bytes_wf (vs : list Z) : wf_bytes vs -> Py.bytes vs = Ret vs.
Proof.
  intros Hwf. unfold Py.bytes.
  replace (forallb (fun b => (0 <=? b) && (b <? 256)) vs) with true; [reflexivity |].
  symmetry. apply forallb_forall. intros x Hx.
  unfold wf_bytes in Hwf. rewrite Forall_forall in Hwf. specialize (Hwf x Hx).
  apply andb_true_intro. split; [apply Z.leb_le | apply Z.ltb_lt]; lia.
Qed.

Lemma bit_of_sample_of_bit (bits : list bool) :
  List.map bit_of_sample (List.map sample_of_bit bits) = bits.
Proof.
  rewrite map_map. rewrite <- (map_id bits) at 2. apply map_ext.
  intros []; reflexivity.
Qed.

(** C6. For a sample string [s] (characters ['0'] and ['1']),
    [bits_to_bytes] returns; when [len(s)] is a multiple of 8,
    [bytes_to_bits] of the result is [s] again, sample for sample; otherwise
    it is [s] followed by [8 - len(s) mod 8] samples equal to 1: the missing
    low-order bits of the final byte are 1 (idle), not 0. *)
Theorem byte_packing_round_trip :
  forall s : list ascii,
    binary s ->
    exists bs : list Z,
      IEBusBitBang.bits_to_bytes s = Ret bs
      /\ (Py.len s mod 8 = 0 ->
          IEBusBitBang.bytes_to_bits bs = List.map bit_of_sample s
          /\ List.map sample_of_bit (IEBusBitBang.bytes_to_bits bs) = s)
      /\ (Py.len s mod 8 <> 0 ->
          IEBusBitBang.bytes_to_bits bs
          = List.map bit_of_sample s
            ++ List.repeat true (Z.to_nat (8 - Py.len s mod 8))
          /\ List.map sample_of_bit (IEBusBitBang.bytes_to_bits bs)
             = s ++ List.repeat "1"%char (Z.to_nat (8 - Py.len s mod 8))).
Proof.
  intros s Hbin.
  destruct (packing (List.length s) s (Nat.le_refl _) Hbin) as (vs & Hvs & Hwf & Hback).
  exists vs. split.
  { unfold IEBusBitBang.bits_to_bytes. rewrite Hvs. cbn [bind].
    apply bytes_wf, Hwf. }
  pose proof (Z.mod_pos_bound (Py.len s) 8 eq_refl) as Hmod.
  assert (IEBusBitBang.bytes_to_bits vs
          = List.map bit_of_sample
              (s ++ Py.replicate "1"%char ((8 - Py.len s mod 8) mod 8))) as Hbits.
  { rewrite <- Hback. symmetry. apply bit_of_sample_of_bit. }
  split.
  - intros Hzero. rewrite Hzero in Hback, Hbits. cbn in Hback, Hbits.
    rewrite app_nil_r in Hback, Hbits. split; assumption.
  - intros Hnz. rewrite Z.mod_small in Hback, Hbits by lia.
    split; [| exact Hback].
    rewrite Hbits, map_app. unfold Py.replicate. rewrite map_repeat. reflexivity.
Qed.

Lemma byte_packing_round_trip_witness :
  exists bs : list Z,
    IEBusBitBang.bits_to_bytes (list_ascii_of_string "010000011") = Ret bs
    /\ (Py.len (list_ascii_of_string "010000011") mod 8 = 0 ->
        IEBusBitBang.bytes_to_bits bs
        = List.map bit_of_sample (list_ascii_of_string "010000011")
        /\ List.map sample_of_bit (IEBusBitBang.bytes_to_bits bs)
           = list_ascii_of_string "010000011")
    /\ (Py.len (list_ascii_of_string "010000011") mod 8 <> 0 ->
        IEBusBitBang.bytes_to_bits bs
        = List.map bit_of_sample (list_ascii_of_string "010000011")
          ++ List.repeat true
               (Z.to_nat (8 - Py.len (list_ascii_of_string "010000011") mod 8))
        /\ List.map sample_of_bit (IEBusBitBang.bytes_to_bits bs)
           = list_ascii_of_string "010000011"
             ++ List.repeat "1"%char
                  (Z.to_nat (8 - Py.len (list_ascii_of_string "010000011") mod 8))).
Proof.
  apply (byte_packing_round_trip (list_ascii_of_string "010000011")).
  cbn. repeat (apply Forall_cons; [tauto |]). apply Forall_nil.
Defined.

(** ** Token-string construction *)

(** C3. The token string "- 190 440 f 5 00 25 74 9C 04" constructs a
    UNICAST message with master address 0x190, slave address 0x440, control
    0xF, data length 7 and data [0x0F, 0x05, 0x00, 0x25, 0x74, 0x9C, 0x04];
    its display string shows these addresses, length 7 and this payload.
    Whatever hexadecimal digit stands as fourth token, the control field is
    0xF and the token's value is the first data byte. *)
Theorem token_string_construction :
  (exists m : IEBusMessage.t,
      IEBusMessage.__init__ None (Some "- 190 440 f 5 00 25 74 9C 04"%string)
                            None None None None None = Ret m
      /\ IEBusMessage.getField (IEBusMessage.message_bytes m) IEBusMessage.Broadcast
         = Ret IEBusMessage.UNICAST
      /\ IEBusMessage.getField (IEBusMessage.message_bytes m)
                               IEBusMessage.MasterAddress = Ret 0x190
      /\ IEBusMessage.getField (IEBusMessage.message_bytes m)
                               IEBusMessage.SlaveAddress = Ret 0x440
      /\ IEBusMessage.getField (IEBusMessage.message_bytes m) IEBusMessage.Control
         = Ret 0xF
      /\ IEBusMessage.getField (IEBusMessage.message_bytes m)
                               IEBusMessage.DataLength = Ret 7
      /\ IEBusMessage.getData m = Ret [0x0F; 0x05; 0x00; 0x25; 0x74; 0x9C; 0x04]
      /\ IEBusMessage.__str__ m
         = Ret "- 190 440 f  7 : 0f 05 00 25 74 9c 04 "%string)
  /\ Forall
       (fun tok4 : string =>
          exists (m : IEBusMessage.t) (d0 : Z) (rest : list Z),
            IEBusMessage.__init__
              None (Some ("- 190 440 " ++ tok4 ++ " 5 00 25 74 9C 04")%string)
              None None None None None = Ret m
            /\ IEBusMessage.getField (IEBusMessage.message_bytes m)
                                     IEBusMessage.Control = Ret 0xF
            /\ PyStr.int tok4 16 = Ret d0
            /\ IEBusMessage.getData m = Ret (d0 :: rest))
       ["0"; "1"; "2"; "3"; "4"; "5"; "6"; "7"; "8"; "9";
        "a"; "b"; "c"; "d"; "e"; "f"; "A"; "F"; "00"; "ff"]%string.
Proof.
  split.
  - eexists. split; [vm_compute; reflexivity |].
    repeat split; vm_compute; reflexivity.
  - repeat (apply Forall_cons;
            [eexists; eexists; eexists;
             split; [vm_compute; reflexivity |];
             split; [vm_compute; reflexivity |];
             split; vm_compute; reflexivity |]).
    apply Forall_nil.
Qed.

(** ** Timeline composition *)

Section SliceAssign.

Context {A : Type}.
Variables (l v : list A) (t : Z).
Hypothesis Ht : 0 <= t.
Hypothesis Hfit : t + Py.len v <= Py.len l.

Lemma slice_assign_overwrite :
  Py.slice_assign l t (t + Py.len v) v
  = firstn (Z.to_nat t) l ++ v ++ skipn (Z.to_nat t + List.length v) l.
Proof.
  unfold Py.slice_assign, Py.adjust_index, Py.len in *.
  destruct (Z.ltb_spec t 0); [lia |].
  destruct (Z.ltb_spec (t + Z.of_nat (List.length v)) 0); [lia |].
  do 3 f_equal; lia.
Qed.

End SliceAssign.

Lemma comprehension_Forall2 {A B : Type} (f : A -> outcome B) (l : list A) :
  forall ys : list B,
    Py.comprehension f l = Ret ys -> Forall2 (fun x y => f x = Ret y) l ys.
Proof.
  induction l as [| x l IH]; intros ys H; cbn [Py.comprehension] in H.
  - injection H as <-. apply Forall2_nil.
  - destruct (f x) as [y | e |] eqn:Hfx; cbn [bind] in H; try discriminate.
    destruct (Py.comprehension f l) as [ys' | e |]; cbn [bind] in H; try discriminate.
    injection H as <-. apply Forall2_cons; [exact Hfx | apply IH; reflexivity].
Qed.

Lemma place_app (regular : Z) (rows : list BitBangUtility.row)
      (a b : list IEBusMessage.t) :
  forall (i : Z) (signal : list ascii),
    BitBangUtility.place regular rows i (a ++ b) signal
    = bind (BitBangUtility.place regular rows i a signal)
           (BitBangUtility.place regular rows (i + Py.len a) b).
Proof.
  induction a as [| m a IH]; intros i signal.
  - cbn [app BitBangUtility.place bind]. rewrite (@len_nil IEBusMessage.t).
    rewrite Z.add_0_r. reflexivity.
  - cbn [app BitBangUtility.place].
    destruct (negb (regular =? 0)); cbn [bind].
    + destruct (IEBusBitBang.make_output_from_iebus_message m); cbn [bind];
        try reflexivity.
      rewrite IH, len_cons. do 2 f_equal. lia.
    + destruct (nth_error rows (Z.to_nat i)); cbn [bind]; try reflexivity.
      destruct (IEBusBitBang.make_output_from_iebus_message m); cbn [bind];
        try reflexivity.
      rewrite IH, len_cons. do 2 f_equal. lia.
Qed.

Section RegularInterval.

Variables (regular : Z) (rows : list BitBangUtility.row).
Hypothesis Hregular : 0 < regular.

(** One iteration of the placement loop in fixed-interval mode. *)
Lemma place_one (i : Z) (m : IEBusMessage.t) (sig signal : list ascii) :
  IEBusBitBang.make_output_from_iebus_message m = Ret sig ->
  BitBangUtility.place regular rows i [m] signal
  = Ret (Py.slice_assign signal (i * regular) (i * regular + Py.len sig) sig).
Proof.
  intros Hsig. cbn [BitBangUtility.place].
  destruct (Z.eqb_spec regular 0); [lia |]. cbn [negb bind].
  rewrite Hsig. reflexivity.
Qed.

End RegularInterval.

Lemma Forall2_firstn {A B : Type} (R : A -> B -> Prop) (n : nat) :
  forall (l : list A) (l' : list B),
    Forall2 R l l' -> Forall2 R (firstn n l) (firstn n l').
Proof.
  induction n as [| n IH]; intros l l' H; [apply Forall2_nil |].
  destruct H as [| x y l l' Hxy H]; [apply Forall2_nil |].
  cbn [firstn]. apply Forall2_cons; [exact Hxy | apply IH, H].
Qed.

Lemma Forall2_nth {A B : Type} (R : A -> B -> Prop) (d : A) (d' : B) :
  forall (l : list A) (l' : list B) (i : nat),
    Forall2 R l l' -> (i < List.length l)%nat -> R (List.nth i l d) (List.nth i l' d').
Proof.
  intros l l' i H. revert i.
  induction H as [| x y l l' Hxy H IH]; intros i Hi; cbn in Hi; [lia |].
  destruct i as [| i]; [exact Hxy |]. cbn [List.nth]. apply IH. lia.
Qed.

Lemma firstn_succ {A : Type} (d : A) :
  forall (l : list A) (i : nat),
    (i < List.length l)%nat -> firstn (S i) l = firstn i l ++ [List.nth i l d].
Proof.
  induction l as [| x l IH]; intros i Hi; cbn in Hi; [lia |].
  destruct i as [| i]; [reflexivity |].
  cbn [firstn List.nth app]. f_equal. apply IH. lia.
Qed.

(** A slice assignment that starts inside the list: the list grows when
    the new content reaches past its end, and never shrinks. *)
Section SliceAssignAt.

Context {A : Type}.
Variables (l v : list A) (t : Z).
Hypothesis Ht : 0 <= t <= Py.len l.

Lemma slice_assign_at :
  Py.slice_assign l t (t + Py.len v) v
  = firstn (Z.to_nat t) l ++ v
    ++ skipn (Z.to_nat (Z.min (t + Py.len v) (Py.len l))) l.
Proof.
  unfold Py.slice_assign, Py.adjust_index, Py.len in *.
  destruct (Z.ltb_spec t 0); [lia |].
  destruct (Z.ltb_spec (t + Z.of_nat (List.length v)) 0); [lia |].
  do 3 f_equal; lia.
Qed.

Lemma len_slice_assign_at :
  Py.len (Py.slice_assign l t (t + Py.len v) v) = Z.max (Py.len l) (t + Py.len v).
Proof.
  rewrite slice_assign_at. unfold Py.len in *.
  rewrite !length_app, length_firstn, length_skipn. lia.
Qed.

Lemma slice_of_slice_assign_at :
  Py.slice (Py.slice_assign l t (t + Py.len v) v) t (t + Py.len v) = v.
Proof.
  unfold Py.slice. rewrite len_slice_assign_at.
  rewrite slice_assign_at. unfold Py.adjust_index, Py.len in *.
  destruct (Z.ltb_spec t 0); [lia |].
  destruct (Z.ltb_spec (t + Z.of_nat (List.length v)) 0); [lia |].
  set (L := Z.max (Z.of_nat (List.length l)) (t + Z.of_nat (List.length v))).
  replace (Z.to_nat (Z.min t L)) with (Z.to_nat t) by lia.
  replace (Z.to_nat (Z.max (Z.min t L) (Z.min (t + Z.of_nat (List.length v)) L)
                     - Z.min t L))
    with (List.length v) by lia.
  rewrite skipn_app, length_firstn.
  rewrite skipn_all2 by (rewrite length_firstn; lia).
  replace (Z.to_nat t - Nat.min (Z.to_nat t) (List.length l))%nat with 0%nat by lia.
  cbn [skipn app].
  rewrite firstn_app, firstn_all, Nat.sub_diag. cbn [firstn]. apply app_nil_r.
Qed.

Lemma nth_slice_assign_outside_at (pos : nat) (d : A) :
  (Z.of_nat pos < t \/ t + Py.len v <= Z.of_nat pos) ->
  List.nth pos (Py.slice_assign l t (t + Py.len v) v) d = List.nth pos l d.
Proof.
  intros Hpos. rewrite slice_assign_at. unfold Py.len in *.
  assert (List.length (firstn (Z.to_nat t) l) = Z.to_nat t) as Hfl
      by (rewrite length_firstn; lia).
  destruct Hpos as [Hlt | Hge].
  - rewrite app_nth1 by lia. rewrite nth_firstn.
    destruct (Nat.ltb_spec pos (Z.to_nat t)); [reflexivity | lia].
  - rewrite app_nth2 by lia. rewrite Hfl.
    rewrite app_nth2 by lia. rewrite nth_skipn.
    destruct (Z.le_gt_cases (t + Z.of_nat (List.length v)) (Z.of_nat (List.length l)))
      as [Hin | Hout].
    + f_equal. lia.
    + rewrite !nth_overflow by lia. reflexivity.
Qed.

End SliceAssignAt.

Lemma reach_nonneg (R : Z) (sigs : list (list ascii)) :
  forall i : Z, 0 <= reach R i sigs.
Proof.
  induction sigs as [| sig sigs IH]; intros i; cbn [reach]; [lia |].
  specialize (IH (i + 1)). lia.
Qed.

Lemma reach_le (R B : Z) (sigs : list (list ascii)) :
  forall i : Z,
    0 <= B ->
    (reach R i sigs <= B
     <-> forall j : nat,
        (j < List.length sigs)%nat ->
        (i + Z.of_nat j) * R + Py.len (List.nth j sigs []) <= B).
Proof.
  induction sigs as [| sig sigs IH]; intros i HB; cbn [reach List.length].
  - split; [intros _ j Hj; lia | intros _; exact HB].
  - specialize (IH (i + 1) HB). split.
    + intros Hle [| j] Hj; cbn [List.nth].
      * rewrite Z.add_0_r. lia.
      * replace (i + Z.of_nat (S j)) with (i + 1 + Z.of_nat j) by lia.
        apply IH; lia.
    + intros Hall. apply Z.max_lub.
      * specialize (Hall 0%nat ltac:(lia)). cbn [List.nth] in Hall.
        rewrite Z.add_0_r in Hall. exact Hall.
      * apply IH. intros j Hj. specialize (Hall (S j) ltac:(lia)).
        cbn [List.nth] in Hall.
        replace (i + 1 + Z.of_nat j) with (i + Z.of_nat (S j)) by lia. exact Hall.
Qed.

(** The placement loop in fixed-interval mode, whatever the lengths of the
    signals: it returns, and the timeline ends where it ended before or
    where the furthest signal ends. *)
Lemma place_reach (regular : Z) (rows : list BitBangUtility.row)
      (msgs : list IEBusMessage.t) :
  forall (sigs : list (list ascii)) (i : Z) (signal : list ascii),
    0 < regular ->
    Forall2 (fun m sig => IEBusBitBang.make_output_from_iebus_message m = Ret sig)
            msgs sigs ->
    0 <= i ->
    (i + Py.len msgs) * regular <= Py.len signal ->
    exists out : list ascii,
      BitBangUtility.place regular rows i msgs signal = Ret out
      /\ Py.len out = Z.max (Py.len signal) (reach regular i sigs).
Proof.
  induction msgs as [| m msgs IH]; intros sigs i signal Hreg Hsigs Hi Hstart.
  - inversion Hsigs; subst. exists signal. split; [reflexivity |].
    cbn [reach]. unfold Py.len. lia.
  - inversion Hsigs as [| ? sig ? sigs' Hsig Hrest]; subst.
    change (m :: msgs) with ([m] ++ msgs).
    rewrite place_app, (place_one regular rows Hreg i m sig signal Hsig).
    cbn [bind].
    pose proof (Zle_0_nat (List.length msgs)) as Hk. fold (Py.len msgs) in Hk.
    rewrite len_cons in Hstart.
    assert (0 <= i * regular <= Py.len signal) as Ht by nia.
    destruct (IH sigs' (i + Py.len [m])
                 (Py.slice_assign signal (i * regular) (i * regular + Py.len sig) sig)
                 Hreg Hrest) as (out & Hout & Hlen).
    + rewrite len_cons, (@len_nil IEBusMessage.t). lia.
    + rewrite len_slice_assign_at by exact Ht.
      rewrite len_cons, (@len_nil IEBusMessage.t). nia.
    + exists out. split; [exact Hout |].
      rewrite Hlen, len_slice_assign_at by exact Ht.
      rewrite len_cons, (@len_nil IEBusMessage.t). cbn [reach].
      replace (i + (1 + 0)) with (i + 1) by lia. lia.
Qed.

(** C7 (as amended). With a regular interval [R > 0], composing [k]
    messages returns the result of the placement loop on [k * R] idle
    samples, and the [i]-th iteration of that loop overwrites the [i]-th
    signal at sample offset [i * R], whatever the lengths of the signals:
    after it the timeline holds the signal at [i * R] and is unchanged
    elsewhere. The composed timeline has [max(k * R, max_i (i * R + len_i))]
    samples: at least [k * R], and exactly [k * R] if and only if every
    signal ends inside ([i * R + len_i <= k * R]). *)
Theorem regular_interval_placement :
  forall (regular : Z) (rows : list BitBangUtility.row)
         (msgs : list IEBusMessage.t) (sigs : list (list ascii)),
    0 < regular ->
    Py.comprehension
      (fun r => IEBusMessage.__init__ None (Some (BitBangUtility.row_string r))
                                      None None None None None) rows = Ret msgs ->
    Py.comprehension IEBusBitBang.make_output_from_iebus_message msgs = Ret sigs ->
    let k := Py.len rows in
    let signal0 := Py.replicate "1"%char (regular * k) in
    (exists out : list ascii,
        BitBangUtility.compose regular rows = Ret out
        /\ BitBangUtility.place regular rows 0 msgs signal0 = Ret out
        /\ Py.len out = Z.max (k * regular) (reach regular 0 sigs)
        /\ (Py.len out = k * regular
            <-> forall i : nat,
               (i < List.length sigs)%nat ->
               Z.of_nat i * regular + Py.len (List.nth i sigs []) <= k * regular))
    /\ forall i : nat,
        (i < List.length msgs)%nat ->
        exists before after : list ascii,
          BitBangUtility.place regular rows 0 (firstn i msgs) signal0 = Ret before
          /\ BitBangUtility.place regular rows 0 (firstn (S i) msgs) signal0
             = Ret after
          /\ Py.slice after (Z.of_nat i * regular)
                      (Z.of_nat i * regular + Py.len (List.nth i sigs []))
             = List.nth i sigs []
          /\ forall (pos : nat) (d : ascii),
              (Z.of_nat pos < Z.of_nat i * regular
               \/ Z.of_nat i * regular + Py.len (List.nth i sigs [])
                  <= Z.of_nat pos) ->
              List.nth pos after d = List.nth pos before d.
Proof.
  intros regular rows msgs sigs Hreg Hmsgs Hsigs k signal0.
  pose proof (comprehension_Forall2 _ _ _ Hmsgs) as Hm2.
  pose proof (comprehension_Forall2 _ _ _ Hsigs) as Hs2.
  pose proof (Forall2_length Hm2) as Hlm. pose proof (Forall2_length Hs2) as Hls.
  assert (Py.len msgs = k) as Hk by (unfold k, Py.len; rewrite Hlm; reflexivity).
  assert (0 <= k) as Hk0 by (unfold k, Py.len; lia).
  assert (Py.len signal0 = k * regular) as Hlen0.
  { unfold signal0. rewrite len_replicate. nia. }
  split.
  - destruct (place_reach regular rows msgs sigs 0 signal0 Hreg Hs2)
      as (out & Hout & Hl); [lia | rewrite Hk, Hlen0; lia |].
    rewrite Hlen0 in Hl.
    exists out. split; [| split; [exact Hout | split; [exact Hl |]]].
    + unfold BitBangUtility.compose. rewrite Hmsgs. cbn [bind]. rewrite Hsigs.
      cbn [bind]. destruct (Z.eqb_spec regular 0); [lia |]. cbn [negb bind].
      rewrite Hk. exact Hout.
    + rewrite Hl.
      pose proof (reach_le regular (k * regular) sigs 0 ltac:(nia)) as Hle.
      cbn [Z.add] in Hle. rewrite <- Hle. lia.
  - intros i Hi.
    destruct (place_reach regular rows (firstn i msgs) (firstn i sigs) 0 signal0
                          Hreg (Forall2_firstn _ i _ _ Hs2))
      as (before & Hbefore & Hlb); [lia | |].
    { rewrite Hlen0. unfold Py.len. rewrite length_firstn.
      unfold k, Py.len. rewrite Hlm. nia. }
    pose proof (Forall2_nth _ (IEBusMessage.mkMessage [] None) []
                            msgs sigs i Hs2 Hi) as Hsig.
    cbv beta in Hsig.
    assert (0 <= Z.of_nat i * regular <= Py.len before) as Ht.
    { rewrite Hlb, Hlen0. unfold k, Py.len. rewrite Hlm. nia. }
    exists before,
      (Py.slice_assign before (Z.of_nat i * regular)
                       (Z.of_nat i * regular + Py.len (List.nth i sigs []))
                       (List.nth i sigs [])).
    split; [exact Hbefore |]. split; [| split].
    + rewrite (firstn_succ (IEBusMessage.mkMessage [] None)) by exact Hi.
      rewrite place_app, Hbefore. cbn [bind].
      rewrite (place_one regular rows Hreg _ _ _ _ Hsig).
      replace (0 + Py.len (firstn i msgs)) with (Z.of_nat i)
        by (unfold Py.len; rewrite length_firstn; lia).
      reflexivity.
    + apply slice_of_slice_assign_at. exact Ht.
    + intros pos d Hpos. apply nth_slice_assign_outside_at; [exact Ht | exact Hpos].
Qed.

Lemma regular_interval_placement_witness :
  exists out : list ascii,
    BitBangUtility.compose
      3000 [(0, "RX", "- 190 440 f"); (7, "RX", "B 1ff 000")]%string = Ret out
    /\ Py.len out
       = Py.len [(0, "RX", "- 190 440 f"); (7, "RX", "B 1ff 000")]%string * 3000.
Proof.
  edestruct (regular_interval_placement
               3000 [(0, "RX", "- 190 440 f"); (7, "RX", "B 1ff 000")]%string)
    as ((out & Hcompose & _ & _ & Hexact) & _).
  - lia.
  - vm_compute. reflexivity.
  - vm_compute. reflexivity.
  - exists out. split; [exact Hcompose |]. apply Hexact.
    intros [| [| i]] Hi; [vm_compute; discriminate .. | cbn in Hi; lia].
Defined.

(** The claim as stated fails in its length half: with [R = 1] and the
    single message "- 190 440 f" the composed timeline has 2492 samples,
    not [1 * 1]. And the interval has to be positive: with [R = -1] and two
    such messages the composition returns 4984 samples, and the second
    signal is not at offset [1 * R]: the slice there is empty. *)
Lemma regular_interval_length_counterexample :
  (exists out : list ascii,
      BitBangUtility.compose 1 [(0, "RX", "- 190 440 f")%string] = Ret out
      /\ Py.len out = 2492
      /\ Py.len out <> Py.len [(0, "RX", "- 190 440 f")%string] * 1)
  /\ exists out : list ascii,
      BitBangUtility.compose
        (-1) [(0, "RX", "- 190 440 f"); (7, "RX", "- 190 440 f")]%string = Ret out
      /\ Py.len out = 4984
      /\ Py.slice out (1 * -1) (1 * -1 + 2492) = [].
Proof.
  split.
  - eexists. split; [vm_compute; reflexivity |].
    split; vm_compute; [reflexivity | discriminate].
  - eexists. split; [vm_compute; reflexivity |].
    split; vm_compute; reflexivity.
Qed.

(** ** Field writes in increasing bit order *)

Lemma getField_agree (buf buf' : list Z) (g : IEBusMessageField) :
  wf_bytes buf -> wf_bytes buf' -> List.length buf' = List.length buf ->
  admissible buf g ->
  (forall i, BitOffset g <= i < BitOffset g + LengthBits g ->
             buffer_bit buf' i = buffer_bit buf i) ->
  IEBusMessage.getField buf' g = IEBusMessage.getField buf g.
Proof.
  intros Hwf Hwf' Hlen Hadm Hsame.
  destruct (getField_spec buf g Hwf Hadm) as (x & -> & Hx & Hbits).
  destruct (getField_spec buf' g Hwf' (admissible_same_length _ _ _ Hlen Hadm))
    as (x' & -> & Hx' & Hbits').
  f_equal. apply (eq_of_low_bits x' x (LengthBits g) Hx' Hx).
  intros j Hj. rewrite Hbits, Hbits' by exact Hj. apply Hsame. lia.
Qed.

Lemma getField_agree_below (buf buf' : list Z) (g : IEBusMessageField) (n : Z) :
  wf_bytes buf -> wf_bytes buf' -> List.length buf' = List.length buf ->
  admissible buf g -> agree_below buf buf' n ->
  BitOffset g + LengthBits g <= n ->
  IEBusMessage.getField buf' g = IEBusMessage.getField buf g.
Proof.
  intros Hwf Hwf' Hlen Hadm Hagree Hn.
  apply getField_agree; try assumption.
  intros i Hi. apply Hagree. destruct Hadm as (Hoff & _). lia.
Qed.

Lemma getField_zero (buf : list Z) (g : IEBusMessageField) :
  wf_bytes buf -> admissible buf g -> zero_from buf (BitOffset g) ->
  IEBusMessage.getField buf g = Ret 0.
Proof.
  intros Hwf Hadm Hzero.
  destruct (getField_spec buf g Hwf Hadm) as (x & -> & Hx & Hbits).
  f_equal. apply (eq_of_low_bits x 0 (LengthBits g) Hx).
  - split; [lia |]. apply Z.pow_pos_nonneg; [lia |]. apply Hadm.
  - intros j Hj. rewrite Hbits by exact Hj. rewrite Z.bits_0.
    apply Hzero. lia.
Qed.

Lemma agree_below_refl (buf : list Z) (n : Z) : agree_below buf buf n.
Proof. intros i _. reflexivity. Qed.

Lemma agree_below_trans (a b c : list Z) (n m : Z) :
  agree_below a b n -> agree_below b c m -> n <= m -> agree_below a c n.
Proof.
  intros Hab Hbc Hnm i Hi. rewrite Hbc by lia. apply Hab, Hi.
Qed.

Lemma zero_from_mono (buf : list Z) (n m : Z) :
  zero_from buf n -> n <= m -> zero_from buf m.
Proof.
  intros Hz Hnm i Hi. apply Hz. lia.
Qed.

Lemma zero_from_zero (n k : Z) : zero_from (Py.replicate 0 n) k.
Proof.
  intros i _. unfold buffer_bit, Py.replicate.
  replace (List.nth (Z.to_nat (i / 8)) (repeat 0 (Z.to_nat n)) 0) with 0.
  - apply Z.bits_0.
  - symmetry. apply nth_repeat.
Qed.

(** One field write on a buffer that is still zero from the field on. *)
Lemma setField_step (buf : list Z) (f : IEBusMessageField) (v : Z) :
  wf_bytes buf -> admissible buf f -> 0 <= v < 2 ^ LengthBits f ->
  zero_from buf (BitOffset f) ->
  exists buf' : list Z,
    IEBusMessage.setField buf f v = Ret buf'
    /\ wf_bytes buf' /\ List.length buf' = List.length buf
    /\ agree_below buf buf' (BitOffset f)
    /\ zero_from buf' (BitOffset f + LengthBits f)
    /\ IEBusMessage.getField buf' f = Ret v.
Proof.
  intros Hwf Hadm Hv Hzero.
  destruct (setField_spec buf f Hwf Hadm v Hv) as (buf' & Hset & Hlen & Hwf' & Hin & Hout).
  destruct (getField_setField_same buf f v Hwf Hadm Hv) as (buf'' & Hset' & Hget).
  rewrite Hset in Hset'. injection Hset' as <-.
  exists buf'. repeat split; try assumption.
  - intros i Hi. apply Hout; lia.
  - intros i Hi. destruct Hadm as (Hoff & Hw & _).
    rewrite Hout by lia. apply Hzero. lia.
Qed.

Lemma admissible_68 (buf : list Z) (f : IEBusMessageField) :
  List.length buf = 68%nat ->
  0 <= BitOffset f <= 519 -> 0 <= LengthBits f <= 12 ->
  admissible buf f.
Proof.
  intros Hlen Hoff Hw. unfold admissible, Py.len. rewrite Hlen.
  pose proof (Z.mod_pos_bound (BitOffset f) 8 eq_refl).
  repeat split; try lia. Z.div_mod_to_equations. lia.
Qed.

Lemma parity_bit_range (x : Z) : 0 <= parity_bit x < 2 ^ 1.
Proof.
  unfold parity_bit. destruct (Nat.odd (popcount x)); cbn; lia.
Qed.

(** A field and its parity bit, written as the constructor does. *)
Lemma write_with_parity (buf : list Z) (F P : IEBusMessageField) (v : Z) :
  wf_bytes buf -> List.length buf = 68%nat ->
  0 <= BitOffset F -> BitOffset P <= 519 -> 0 <= LengthBits F <= 12 ->
  BitOffset P = BitOffset F + LengthBits F -> LengthBits P = 1 ->
  0 <= v < 2 ^ LengthBits F ->
  zero_from buf (BitOffset F) ->
  exists buf' : list Z,
    (b1 <- IEBusMessage.setField buf F v ;;
     p <- calculateParity v ;;
     IEBusMessage.setField b1 P (Py.int_of_bool p)) = Ret buf'
    /\ wf_bytes buf' /\ List.length buf' = 68%nat
    /\ agree_below buf buf' (BitOffset F)
    /\ zero_from buf' (BitOffset P + 1)
    /\ IEBusMessage.getField buf' F = Ret v
    /\ IEBusMessage.getField buf' P = Ret (parity_bit v).
Proof.
  intros Hwf Hlen HoffF HoffP HwF HP HwP Hv Hzero.
  assert (admissible buf F) as HadmF by (apply admissible_68; lia).
  destruct (setField_step buf F v Hwf HadmF Hv Hzero)
    as (b1 & -> & Hwf1 & Hlen1 & Hag1 & Hz1 & Hget1).
  cbn [bind]. rewrite calculateParity_nonneg by lia. cbn [bind].
  fold (parity_bit v).
  assert (admissible b1 P) as HadmP by (apply admissible_68; lia).
  destruct (setField_step b1 P (parity_bit v) Hwf1 HadmP)
    as (b2 & -> & Hwf2 & Hlen2 & Hag2 & Hz2 & Hget2).
  { rewrite HwP. apply parity_bit_range. }
  { rewrite HP. exact Hz1. }
  exists b2. repeat split; try assumption; try lia.
  - eapply agree_below_trans; [exact Hag1 | exact Hag2 | lia].
  - rewrite HwP in Hz2. exact Hz2.
  - rewrite <- Hget1.
    apply (getField_agree_below b1 b2 F (BitOffset P)); try assumption; try lia.
    apply admissible_68; lia.
Qed.

(** A field, its parity bit and its acknowledgement bit. *)
Lemma write_with_parity_ack (buf : list Z) (F P A : IEBusMessageField) (v : Z) :
  wf_bytes buf -> List.length buf = 68%nat ->
  0 <= BitOffset F -> BitOffset A <= 519 -> 0 <= LengthBits F <= 12 ->
  BitOffset P = BitOffset F + LengthBits F -> LengthBits P = 1 ->
  BitOffset A = BitOffset P + 1 -> LengthBits A = 1 ->
  0 <= v < 2 ^ LengthBits F ->
  zero_from buf (BitOffset F) ->
  exists buf' : list Z,
    (b1 <- IEBusMessage.setField buf F v ;;
     p <- calculateParity v ;;
     b2 <- IEBusMessage.setField b1 P (Py.int_of_bool p) ;;
     IEBusMessage.setField b2 A IEBusMessage.DefaultAckVal) = Ret buf'
    /\ wf_bytes buf' /\ List.length buf' = 68%nat
    /\ agree_below buf buf' (BitOffset F)
    /\ zero_from buf' (BitOffset A + 1)
    /\ IEBusMessage.getField buf' F = Ret v
    /\ IEBusMessage.getField buf' P = Ret (parity_bit v).
Proof.
  intros Hwf Hlen HoffF HoffA HwF HP HwP HA HwA Hv Hzero.
  assert (admissible buf F) as HadmF by (apply admissible_68; lia).
  destruct (setField_step buf F v Hwf HadmF Hv Hzero)
    as (b1 & -> & Hwf1 & Hlen1 & Hag1 & Hz1 & Hget1).
  cbn [bind]. rewrite calculateParity_nonneg by lia. cbn [bind].
  fold (parity_bit v).
  assert (admissible b1 P) as HadmP by (apply admissible_68; lia).
  destruct (setField_step b1 P (parity_bit v) Hwf1 HadmP)
    as (b2 & -> & Hwf2 & Hlen2 & Hag2 & Hz2 & Hget2).
  { rewrite HwP. apply parity_bit_range. }
  { rewrite HP. exact Hz1. }
  cbn [bind].
  assert (admissible b2 A) as HadmA by (apply admissible_68; lia).
  destruct (setField_step b2 A IEBusMessage.DefaultAckVal Hwf2 HadmA)
    as (b3 & -> & Hwf3 & Hlen3 & Hag3 & Hz3 & Hget3).
  { rewrite HwA. unfold IEBusMessage.DefaultAckVal, IEBusMessage.NAK. lia. }
  { rewrite HA, <- HwP. exact Hz2. }
  exists b3. repeat split; try assumption; try lia.
  - eapply agree_below_trans; [exact Hag1 |
      eapply agree_below_trans; [exact Hag2 | exact Hag3 | lia] | lia].
  - rewrite HwA in Hz3. exact Hz3.
  - rewrite <- Hget1. transitivity (IEBusMessage.getField b2 F).
    + apply (getField_agree_below b2 b3 F (BitOffset A)); try assumption; try lia.
      apply admissible_68; lia.
    + apply (getField_agree_below b1 b2 F (BitOffset P)); try assumption; try lia.
      apply admissible_68; lia.
  - rewrite <- Hget2.
    apply (getField_agree_below b2 b3 P (BitOffset A)); try assumption; try lia.
    apply admissible_68; lia.
Qed.

Lemma parity_consistent_zero (buf : list Z) (F P : IEBusMessageField) :
  wf_bytes buf -> admissible buf F -> admissible buf P ->
  zero_from buf (BitOffset F) -> BitOffset F <= BitOffset P ->
  parity_consistent buf F P 0.
Proof.
  intros Hwf HF HP Hz Hle. split; [lia |]. split.
  - apply getField_zero; assumption.
  - apply getField_zero; try assumption. eapply zero_from_mono; eassumption.
Qed.

Lemma parity_consistent_agree (buf buf' : list Z) (F P : IEBusMessageField)
      (x n : Z) :
  wf_bytes buf -> wf_bytes buf' -> List.length buf = 68%nat ->
  List.length buf' = 68%nat ->
  0 <= BitOffset F -> BitOffset P <= 519 -> 0 <= LengthBits F <= 12 ->
  BitOffset P = BitOffset F + LengthBits F -> LengthBits P = 1 ->
  agree_below buf buf' n -> BitOffset P + 1 <= n ->
  parity_consistent buf F P x -> parity_consistent buf' F P x.
Proof.
  intros Hwf Hwf' Hlen Hlen' HoffF HoffP HwF HP HwP Hag Hn (Hx & HF & HPar).
  split; [exact Hx |]. split.
  - rewrite <- HF. apply (getField_agree_below buf buf' F n); try assumption; try lia.
    apply admissible_68; lia.
  - rewrite <- HPar. apply (getField_agree_below buf buf' P n); try assumption; try lia.
    apply admissible_68; lia.
Qed.

(** The optional master-address block of the constructor. *)
Lemma optional_write_with_parity (buf : list Z) (F P : IEBusMessageField)
      (o : option Z) :
  wf_bytes buf -> List.length buf = 68%nat ->
  0 <= BitOffset F -> BitOffset P <= 519 -> 0 <= LengthBits F <= 12 ->
  BitOffset P = BitOffset F + LengthBits F -> LengthBits P = 1 ->
  in_range o (LengthBits F) ->
  zero_from buf (BitOffset F) ->
  exists (buf' : list Z) (x : Z),
    match o with
    | Some a =>
        if Py.truthy a then
          b1 <- IEBusMessage.setField buf F a ;;
          p <- calculateParity a ;;
          IEBusMessage.setField b1 P (Py.int_of_bool p)
        else Ret buf
    | None => Ret buf
    end = Ret buf'
    /\ wf_bytes buf' /\ List.length buf' = 68%nat
    /\ agree_below buf buf' (BitOffset F)
    /\ zero_from buf' (BitOffset P + 1)
    /\ parity_consistent buf' F P x.
Proof.
  intros Hwf Hlen HoffF HoffP HwF HP HwP Hrange Hzero.
  assert (exists x, Ret buf = Ret buf /\ wf_bytes buf /\ List.length buf = 68%nat
                    /\ agree_below buf buf (BitOffset F)
                    /\ zero_from buf (BitOffset P + 1)
                    /\ parity_consistent buf F P x) as Hskip.
  { exists 0. repeat split; try assumption; try reflexivity.
    - eapply zero_from_mono; [exact Hzero | lia].
    - apply getField_zero; [assumption | apply admissible_68; lia | assumption].
    - apply getField_zero; [assumption | apply admissible_68; lia |].
      eapply zero_from_mono; [exact Hzero | lia]. }
  destruct o as [a |]; [| exists buf; exact Hskip].
  destruct (Py.truthy a); [| exists buf; exact Hskip].
  destruct (write_with_parity buf F P a Hwf Hlen HoffF HoffP HwF HP HwP
                              (Hrange a eq_refl) Hzero)
    as (buf' & Hrun & Hwf' & Hlen' & Hag & Hz & HgF & HgP).
  exists buf', a. repeat split; try assumption. apply (Hrange a eq_refl).
Qed.

(** The optional slave-address and control blocks of the constructor. *)
Lemma optional_write_with_parity_ack (buf : list Z) (F P A : IEBusMessageField)
      (o : option Z) :
  wf_bytes buf -> List.length buf = 68%nat ->
  0 <= BitOffset F -> BitOffset A <= 519 -> 0 <= LengthBits F <= 12 ->
  BitOffset P = BitOffset F + LengthBits F -> LengthBits P = 1 ->
  BitOffset A = BitOffset P + 1 -> LengthBits A = 1 ->
  in_range o (LengthBits F) ->
  zero_from buf (BitOffset F) ->
  exists (buf' : list Z) (x : Z),
    match o with
    | Some a =>
        if Py.truthy a then
          b1 <- IEBusMessage.setField buf F a ;;
          p <- calculateParity a ;;
          b2 <- IEBusMessage.setField b1 P (Py.int_of_bool p) ;;
          IEBusMessage.setField b2 A IEBusMessage.DefaultAckVal
        else Ret buf
    | None => Ret buf
    end = Ret buf'
    /\ wf_bytes buf' /\ List.length buf' = 68%nat
    /\ agree_below buf buf' (BitOffset F)
    /\ zero_from buf' (BitOffset A + 1)
    /\ parity_consistent buf' F P x.
Proof.
  intros Hwf Hlen HoffF HoffA HwF HP HwP HA HwA Hrange Hzero.
  assert (exists x, Ret buf = Ret buf /\ wf_bytes buf /\ List.length buf = 68%nat
                    /\ agree_below buf buf (BitOffset F)
                    /\ zero_from buf (BitOffset A + 1)
                    /\ parity_consistent buf F P x) as Hskip.
  { exists 0. repeat split; try assumption; try reflexivity.
    - eapply zero_from_mono; [exact Hzero | lia].
    - apply getField_zero; [assumption | apply admissible_68; lia | assumption].
    - apply getField_zero; [assumption | apply admissible_68; lia |].
      eapply zero_from_mono; [exact Hzero | lia]. }
  destruct o as [a |]; [| exists buf; exact Hskip].
  destruct (Py.truthy a); [| exists buf; exact Hskip].
  destruct (write_with_parity_ack buf F P A a Hwf Hlen HoffF HoffA HwF HP HwP HA HwA
                                  (Hrange a eq_refl) Hzero)
    as (buf' & Hrun & Hwf' & Hlen' & Hag & Hz & HgF & HgP).
  exists buf', a. repeat split; try assumption. apply (Hrange a eq_refl).
Qed.

Lemma init_data_cons (buf : list Z) (i val : Z) (rest : list Z) :
  IEBusMessage.init_data buf i (val :: rest)
  = bind (b1 <- IEBusMessage.setField buf (IEBusMessage.Data i) val ;;
          p <- calculateParity val ;;
          b2 <- IEBusMessage.setField b1 (IEBusMessage.Data_P i) (Py.int_of_bool p) ;;
          IEBusMessage.setField b2 (IEBusMessage.Data_A i) IEBusMessage.DefaultAckVal)
         (fun b3 => IEBusMessage.init_data b3 (i + 1) rest).
Proof.
  cbn [IEBusMessage.init_data].
  destruct (IEBusMessage.setField buf (IEBusMessage.Data i) val) as [b1 | |];
    cbn [bind]; try reflexivity.
  destruct (calculateParity val) as [p | |]; cbn [bind]; try reflexivity.
  destruct (IEBusMessage.setField b1 (IEBusMessage.Data_P i) (Py.int_of_bool p));
    reflexivity.
Qed.

(** The data loop of the constructor on at most 47 in-range bytes. *)
Lemma init_data_ok (data : list Z) :
  forall (i : Z) (buf : list Z),
    wf_bytes buf -> List.length buf = 68%nat ->
    0 <= i -> i + Py.len data <= 47 ->
    Forall (fun d => 0 <= d < 256) data ->
    zero_from buf (44 + 10 * i) ->
    exists buf' : list Z,
      IEBusMessage.init_data buf i data = Ret buf'
      /\ wf_bytes buf' /\ List.length buf' = 68%nat
      /\ agree_below buf buf' (44 + 10 * i)
      /\ forall k : Z,
          i <= k < i + Py.len data ->
          exists x : Z,
            parity_consistent buf' (IEBusMessage.Data k) (IEBusMessage.Data_P k) x.
Proof.
  induction data as [| val rest IH]; intros i buf Hwf Hlen Hi Hfit Hdata Hzero.
  - exists buf. split; [reflexivity |]. split; [exact Hwf |]. split; [exact Hlen |].
    split; [apply agree_below_refl |].
    intros k Hk. rewrite (@len_nil Z) in Hk. lia.
  - rewrite len_cons in Hfit. inversion Hdata as [| ? ? Hval Hrest]; subst.
    pose proof (Zle_0_nat (List.length rest)) as Hnn. fold (Py.len rest) in Hnn.
    rewrite init_data_cons.
    destruct (write_with_parity_ack buf (IEBusMessage.Data i) (IEBusMessage.Data_P i)
                                    (IEBusMessage.Data_A i) val Hwf Hlen)
      as (b3 & -> & Hwf3 & Hlen3 & Hag3 & Hz3 & HgF & HgP);
      cbn [BitOffset LengthBits IEBusMessage.Data IEBusMessage.Data_P
           IEBusMessage.Data_A]; unfold IEBusMessage.DataFieldLength;
      try lia; try assumption.
    cbn [bind].
    cbn [BitOffset LengthBits IEBusMessage.Data IEBusMessage.Data_P
         IEBusMessage.Data_A] in Hag3, Hz3.
    unfold IEBusMessage.DataFieldLength in Hag3, Hz3.
    destruct (IH (i + 1) b3 Hwf3 Hlen3) as (buf' & -> & Hwf' & Hlen' & Hag' & Hall);
      try lia; try assumption.
    { eapply zero_from_mono; [exact Hz3 | lia]. }
    exists buf'. split; [reflexivity |]. split; [exact Hwf' |]. split; [exact Hlen' |].
    split.
    + eapply agree_below_trans; [exact Hag3 | exact Hag' | lia].
    + intros k Hk. rewrite len_cons in Hk.
      destruct (Z.eq_dec k i) as [-> | Hne].
      * exists val.
        apply (parity_consistent_agree b3 buf' _ _ val (44 + 10 * (i + 1)));
          cbn [BitOffset LengthBits IEBusMessage.Data IEBusMessage.Data_P];
          unfold IEBusMessage.DataFieldLength; try assumption; try lia.
        split; [lia |]. split; assumption.
      * apply Hall. lia.
Qed.

(** The data loop of [isValid] on parity-consistent data fields. *)
Lemma isValid_data_ok (buf : list Z) (n : nat) :
  forall i : Z,
    (forall k : Z,
        i <= k < i + Z.of_nat n ->
        exists x : Z,
          parity_consistent buf (IEBusMessage.Data k) (IEBusMessage.Data_P k) x) ->
    IEBusMessage.isValid_data buf i n true = Ret true.
Proof.
  induction n as [| n IH]; intros i Hall; [reflexivity |].
  cbn [IEBusMessage.isValid_data].
  destruct (Hall i ltac:(lia)) as (x & Hx & -> & ->). cbn [bind].
  rewrite calculateParity_nonneg by exact Hx. cbn [bind].
  unfold parity_bit. rewrite Z.eqb_refl. cbn [negb].
  apply IH. intros k Hk. apply Hall. lia.
Qed.

Lemma write_with_parity_ack_then {C : Type} (buf : list Z)
      (F P A : IEBusMessageField) (v : Z) (k : list Z -> outcome C) :
  (b1 <- IEBusMessage.setField buf F v ;;
   p <- calculateParity v ;;
   b2 <- IEBusMessage.setField b1 P (Py.int_of_bool p) ;;
   b3 <- IEBusMessage.setField b2 A IEBusMessage.DefaultAckVal ;;
   k b3)
  = bind (b1 <- IEBusMessage.setField buf F v ;;
          p <- calculateParity v ;;
          b2 <- IEBusMessage.setField b1 P (Py.int_of_bool p) ;;
          IEBusMessage.setField b2 A IEBusMessage.DefaultAckVal) k.
Proof.
  destruct (IEBusMessage.setField buf F v) as [b1 | |]; cbn [bind]; try reflexivity.
  destruct (calculateParity v) as [p | |]; cbn [bind]; try reflexivity.
  destruct (IEBusMessage.setField b1 P (Py.int_of_bool p)); reflexivity.
Qed.

Lemma optional_broadcast (buf : list Z) (o : option Z) :
  wf_bytes buf -> List.length buf = 68%nat -> in_range o 1 -> zero_from buf 0 ->
  exists buf' : list Z,
    match o with
    | Some b =>
        if Py.truthy b then IEBusMessage.setField buf IEBusMessage.Broadcast b
        else Ret buf
    | None => Ret buf
    end = Ret buf'
    /\ wf_bytes buf' /\ List.length buf' = 68%nat /\ zero_from buf' 1.
Proof.
  intros Hwf Hlen Hrange Hzero.
  assert (zero_from buf 1) as Hz1 by (eapply zero_from_mono; [exact Hzero | lia]).
  destruct o as [b |]; [| exists buf; auto].
  destruct (Py.truthy b); [| exists buf; auto].
  destruct (setField_step buf IEBusMessage.Broadcast b Hwf)
    as (buf' & Hset & Hwf' & Hlen' & _ & Hz & _).
  - apply admissible_68; [exact Hlen | cbn; lia | cbn; lia].
  - apply (Hrange b eq_refl).
  - exact Hzero.
  - exists buf'. repeat split; try assumption. lia.
Qed.

(** The data block of the constructor: length, its parity and
    acknowledgement, then the data loop. *)
Lemma data_block_ok (buf : list Z) (data : option (list Z)) :
  wf_bytes buf -> List.length buf = 68%nat -> zero_from buf 34 ->
  (forall d, data = Some d -> Forall (fun x => 0 <= x < 256) d /\ Py.len d <= 47) ->
  exists (buf' : list Z) (n : Z),
    match data with
    | Some ((_ :: _) as d) =>
        buf <- IEBusMessage.setField buf IEBusMessage.DataLength (Py.len d) ;;
        p <- calculateParity (Py.len d) ;;
        buf <- IEBusMessage.setField buf IEBusMessage.DataLength_P (Py.int_of_bool p) ;;
        buf <- IEBusMessage.setField buf IEBusMessage.DataLength_A
                                     IEBusMessage.DefaultAckVal ;;
        IEBusMessage.init_data buf 0 d
    | _ => Ret buf
    end = Ret buf'
    /\ wf_bytes buf' /\ List.length buf' = 68%nat
    /\ agree_below buf buf' 34
    /\ n <= 47
    /\ parity_consistent buf' IEBusMessage.DataLength IEBusMessage.DataLength_P n
    /\ forall k : Z,
        0 <= k < n ->
        exists x : Z,
          parity_consistent buf' (IEBusMessage.Data k) (IEBusMessage.Data_P k) x.
Proof.
  intros Hwf Hlen Hzero Hdata.
  assert (exists n : Z,
             Ret buf = Ret buf /\ wf_bytes buf /\ List.length buf = 68%nat
             /\ agree_below buf buf 34 /\ n <= 47
             /\ parity_consistent buf IEBusMessage.DataLength
                                  IEBusMessage.DataLength_P n
             /\ forall k : Z,
                 0 <= k < n ->
                 exists x : Z,
                   parity_consistent buf (IEBusMessage.Data k)
                                     (IEBusMessage.Data_P k) x) as Hskip.
  { exists 0. split; [reflexivity |]. split; [exact Hwf |]. split; [exact Hlen |].
    split; [apply agree_below_refl |]. split; [lia |]. split; [| intros k Hk; lia].
    apply parity_consistent_zero; try assumption; try (cbn; lia);
      apply admissible_68; try assumption; cbn; lia. }
  destruct data as [[| val rest] |]; try (exists buf; exact Hskip).
  destruct (Hdata _ eq_refl) as (Hbytes & Hn).
  set (d := val :: rest) in *.
  assert (0 <= Py.len d < 2 ^ 8) as Hlen8
      by (pose proof (Zle_0_nat (List.length d)); unfold Py.len in *; lia).
  rewrite write_with_parity_ack_then.
  destruct (write_with_parity_ack buf IEBusMessage.DataLength IEBusMessage.DataLength_P
                                  IEBusMessage.DataLength_A (Py.len d) Hwf Hlen)
    as (b3 & -> & Hwf3 & Hlen3 & Hag3 & Hz3 & HgF & HgP);
    try (cbn; lia); try assumption.
  cbn [bind]. change (BitOffset IEBusMessage.DataLength_A + 1) with 44 in Hz3.
  change (BitOffset IEBusMessage.DataLength) with 34 in Hag3.
  destruct (init_data_ok d 0 b3 Hwf3 Hlen3) as (buf' & -> & Hwf' & Hlen' & Hag' & Hall);
    try lia; try assumption.
  exists buf', (Py.len d).
  split; [reflexivity |]. split; [exact Hwf' |]. split; [exact Hlen' |].
  split; [eapply agree_below_trans; [exact Hag3 | exact Hag' | lia] |].
  split; [exact Hn |]. split; [| exact Hall].
  apply (parity_consistent_agree b3 buf' _ _ (Py.len d) (44 + 10 * 0));
    try assumption; try (cbn; lia).
  split; [lia |]. split; assumption.
Qed.

(** [isValid] on a buffer whose checked fields are parity-consistent. *)
Lemma isValid_consistent (buf : list Z) (xm xs xc n : Z) :
  parity_consistent buf IEBusMessage.MasterAddress IEBusMessage.MasterAddress_P xm ->
  parity_consistent buf IEBusMessage.SlaveAddress IEBusMessage.SlaveAddress_P xs ->
  parity_consistent buf IEBusMessage.Control IEBusMessage.Control_P xc ->
  parity_consistent buf IEBusMessage.DataLength IEBusMessage.DataLength_P n ->
  (forall k : Z,
      0 <= k < n ->
      exists x : Z,
        parity_consistent buf (IEBusMessage.Data k) (IEBusMessage.Data_P k) x) ->
  IEBusMessage.isValid (IEBusMessage.mkMessage buf None) = Ret true.
Proof.
  intros (Hxm & HM & HMP) (Hxs & HS & HSP) (Hxc & HC & HCP) (Hn & HL & HLP) Hdata.
  unfold IEBusMessage.isValid. cbn [IEBusMessage.message_bytes].
  rewrite HMP, HM. cbn [bind]. rewrite calculateParity_nonneg by exact Hxm.
  cbn [bind]. rewrite HSP, HS. cbn [bind].
  rewrite calculateParity_nonneg by exact Hxs. cbn [bind].
  rewrite HCP, HC. cbn [bind]. rewrite calculateParity_nonneg by exact Hxc.
  cbn [bind]. rewrite HL, HLP. cbn [bind].
  rewrite calculateParity_nonneg by exact Hn. cbn [bind].
  unfold parity_bit. rewrite !Z.eqb_refl. cbn [negb].
  apply isValid_data_ok. intros k Hk. apply Hdata. lia.
Qed.

(** The field-writing constructor on in-range arguments returns a message
    that passes [isValid]. *)
Lemma init_fields_valid (b ma sl c : option Z) (data : option (list Z)) :
  in_range b 1 -> in_range ma 12 -> in_range sl 12 -> in_range c 4 ->
  (forall d, data = Some d -> Forall (fun x => 0 <= x < 256) d /\ Py.len d <= 47) ->
  exists m : IEBusMessage.t,
    IEBusMessage.init_fields b ma sl c data = Ret m
    /\ IEBusMessage.isValid m = Ret true.
Proof.
  intros Hb Hma Hsl Hc Hdata. unfold IEBusMessage.init_fields.
  set (B0 := Py.replicate 0 (IEBusMessage.MaxMessageLenBytes + 4)).
  assert (wf_bytes B0) as Hwf0 by apply wf_zero.
  assert (List.length B0 = 68%nat) as Hlen0 by reflexivity.
  assert (zero_from B0 0) as Hz0 by apply zero_from_zero.
  destruct (optional_broadcast B0 b Hwf0 Hlen0 Hb Hz0) as (B1 & -> & Hwf1 & Hlen1 & Hz1).
  cbn [bind].
  destruct (optional_write_with_parity B1 IEBusMessage.MasterAddress
                                       IEBusMessage.MasterAddress_P ma Hwf1 Hlen1)
    as (B2 & xm & -> & Hwf2 & Hlen2 & Hag2 & Hz2 & HM);
    try (cbn; lia); try assumption.
  cbn [bind]. change (BitOffset IEBusMessage.MasterAddress_P + 1) with 14 in Hz2.
  destruct (optional_write_with_parity_ack B2 IEBusMessage.SlaveAddress
                                           IEBusMessage.SlaveAddress_P
                                           IEBusMessage.SlaveAddress_A sl Hwf2 Hlen2)
    as (B3 & xs & -> & Hwf3 & Hlen3 & Hag3 & Hz3 & HS);
    try (cbn; lia); try assumption.
  cbn [bind]. change (BitOffset IEBusMessage.SlaveAddress_A + 1) with 28 in Hz3.
  change (BitOffset IEBusMessage.SlaveAddress) with 14 in Hag3.
  destruct (optional_write_with_parity_ack B3 IEBusMessage.Control
                                           IEBusMessage.Control_P
                                           IEBusMessage.Control_A c Hwf3 Hlen3)
    as (B4 & xc & -> & Hwf4 & Hlen4 & Hag4 & Hz4 & HC);
    try (cbn; lia); try assumption.
  cbn [bind]. change (BitOffset IEBusMessage.Control_A + 1) with 34 in Hz4.
  change (BitOffset IEBusMessage.Control) with 28 in Hag4.
  destruct (data_block_ok B4 data Hwf4 Hlen4 Hz4 Hdata)
    as (B5 & n & -> & Hwf5 & Hlen5 & Hag5 & Hn & HL & HD).
  cbn [bind]. eexists. split; [reflexivity |].
  assert (agree_below B3 B5 28) as Hag35
      by (eapply agree_below_trans; [exact Hag4 | exact Hag5 | lia]).
  assert (agree_below B2 B5 14) as Hag25
      by (eapply agree_below_trans; [exact Hag3 | exact Hag35 | lia]).
  apply (isValid_consistent B5 xm xs xc n); try assumption.
  - apply (parity_consistent_agree B2 B5 _ _ xm 14); try assumption;
      try (cbn; lia).
  - apply (parity_consistent_agree B3 B5 _ _ xs 28); try assumption;
      try (cbn; lia).
  - apply (parity_consistent_agree B4 B5 _ _ xc 34); try assumption;
      try (cbn; lia).
Qed.

(** ** Field writes with arbitrary values *)

(** On an admissible field a write either succeeds, and then the value was
    not negative, or the word to write back does not fit 32 bits. *)
Lemma setField_outcome (buf : list Z) (f : IEBusMessageField) (v : Z) :
  wf_bytes buf -> admissible buf f ->
  (exists buf' : list Z,
      IEBusMessage.setField buf f v = Ret buf'
      /\ wf_bytes buf' /\ List.length buf' = List.length buf /\ 0 <= v)
  \/ IEBusMessage.setField buf f v = Raise (struct_error number_out_of_range).
Proof.
  intros Hwf Hadm.
  pose proof (field_shift_bounds buf f Hadm) as (Hsh & Hfit & Hs).
  destruct Hadm as (Hoff & Hw & Hbits & Hlen).
  unfold IEBusMessage.setField, Py.lshift, Py.int_div.
  rewrite Z.quot_div_nonneg by lia.
  destruct (Z.ltb_spec (LengthBits f) 0); [lia |]. cbn [bind].
  destruct (Z.ltb_spec (4 * 8 - LengthBits f - BitOffset f mod 8) 0); [lia |].
  cbn [bind]. rewrite unpack_from_window by lia. cbn [bind].
  unfold Struct.pack_into. rewrite resolve_offset_ok by lia. cbn [bind].
  match goal with
  | |- context [if ?c then _ else _] => destruct c eqn:Hcheck
  end; [right; reflexivity | left].
  apply Bool.orb_false_elim in Hcheck. destruct Hcheck as (Hneg & _).
  apply Z.ltb_ge in Hneg. apply Z.lor_nonneg in Hneg. destruct Hneg as (_ & Hv).
  apply Z.shiftl_nonneg in Hv.
  eexists. split; [reflexivity |].
  split; [apply (wf_poke buf (BitOffset f / 8) _ Hwf) |].
  split; [apply length_poke; assumption | exact Hv].
Qed.

(** A field whose window starts beyond the buffer cannot be written. *)
Lemma setField_out_of_bounds (buf : list Z) (f : IEBusMessageField) (v : Z) :
  0 <= BitOffset f -> 0 <= LengthBits f ->
  LengthBits f + BitOffset f mod 8 <= 32 ->
  Py.len buf < BitOffset f / 8 + 4 ->
  IEBusMessage.setField buf f v = Raise (struct_error buffer_too_small).
Proof.
  intros Hoff Hw Hbits Hlen.
  pose proof (Z.mod_pos_bound (BitOffset f) 8 eq_refl) as Hmod.
  assert (0 <= BitOffset f / 8) as Hs by (apply Z.div_pos; lia).
  unfold IEBusMessage.setField, Py.lshift, Py.int_div.
  rewrite Z.quot_div_nonneg by lia.
  destruct (Z.ltb_spec (LengthBits f) 0); [lia |]. cbn [bind].
  destruct (Z.ltb_spec (4 * 8 - LengthBits f - BitOffset f mod 8) 0); [lia |].
  cbn [bind]. unfold Struct.unpack_from, Struct.resolve_offset.
  destruct (Z.ltb_spec (BitOffset f / 8) 0); [lia |].
  destruct (Z.ltb_spec (Py.len buf - BitOffset f / 8) 4); [reflexivity | lia].
Qed.

(** The parity bit of the 48th data byte lies beyond the 68-byte buffer. *)
Lemma Data_P_47_out_of_bounds (buf : list Z) (v : Z) :
  List.length buf = 68%nat ->
  IEBusMessage.setField buf (IEBusMessage.Data_P 47) v
  = Raise (struct_error buffer_too_small).
Proof.
  intros Hlen. apply setField_out_of_bounds; try (cbn; lia).
  unfold Py.len. rewrite Hlen. vm_compute. reflexivity.
Qed.

Ltac data_geometry :=
  cbn [BitOffset LengthBits IEBusMessage.Data IEBusMessage.Data_P
       IEBusMessage.Data_A];
  unfold IEBusMessage.DataFieldLength; lia.

(** The data loop cannot get past index 47, whatever the values. *)
Lemma init_data_overflow (data : list Z) :
  forall (i : Z) (buf : list Z),
    wf_bytes buf -> List.length buf = 68%nat ->
    0 <= i <= 47 -> 47 < i + Py.len data ->
    exists why : struct_reason,
      IEBusMessage.init_data buf i data = Raise (struct_error why).
Proof.
  induction data as [| val rest IH]; intros i buf Hwf Hlen Hi Hover.
  - rewrite (@len_nil Z) in Hover. lia.
  - rewrite len_cons in Hover. cbn [IEBusMessage.init_data].
    destruct (setField_outcome buf (IEBusMessage.Data i) val Hwf)
      as [(b1 & -> & Hwf1 & Hlen1 & Hval) | ->];
      [| | exists number_out_of_range; reflexivity].
    { apply admissible_68; [exact Hlen | |]; data_geometry. }
    cbn [bind]. rewrite calculateParity_nonneg by exact Hval. cbn [bind].
    destruct (Z.eq_dec i 47) as [-> | Hne].
    { rewrite Data_P_47_out_of_bounds by lia.
      exists buffer_too_small. reflexivity. }
    destruct (setField_outcome b1 (IEBusMessage.Data_P i)
                               (Py.int_of_bool (Nat.odd (popcount val))) Hwf1)
      as [(b2 & -> & Hwf2 & Hlen2 & _) | ->];
      [| | exists number_out_of_range; reflexivity].
    { apply admissible_68; [lia | |]; data_geometry. }
    cbn [bind].
    destruct (setField_outcome b2 (IEBusMessage.Data_A i)
                               IEBusMessage.DefaultAckVal Hwf2)
      as [(b3 & -> & Hwf3 & Hlen3 & _) | ->];
      [| | exists number_out_of_range; reflexivity].
    { apply admissible_68; [lia | |]; data_geometry. }
    cbn [bind]. apply IH; try assumption; lia.
Qed.

(** The constructor's optional blocks with arbitrary values: each returns a
    well-formed 68-byte buffer or raises [struct.error]. *)
Lemma optional_broadcast_outcome (buf : list Z) (o : option Z) :
  wf_bytes buf -> List.length buf = 68%nat ->
  (exists buf' : list Z,
      match o with
      | Some b =>
          if Py.truthy b then IEBusMessage.setField buf IEBusMessage.Broadcast b
          else Ret buf
      | None => Ret buf
      end = Ret buf'
      /\ wf_bytes buf' /\ List.length buf' = 68%nat)
  \/ exists why : struct_reason,
      match o with
      | Some b =>
          if Py.truthy b then IEBusMessage.setField buf IEBusMessage.Broadcast b
          else Ret buf
      | None => Ret buf
      end = Raise (struct_error why).
Proof.
  intros Hwf Hlen.
  destruct o as [b |]; [| left; exists buf; auto].
  destruct (Py.truthy b); [| left; exists buf; auto].
  destruct (setField_outcome buf IEBusMessage.Broadcast b Hwf)
    as [(b1 & -> & Hwf1 & Hlen1 & _) | ->].
  - apply admissible_68; [exact Hlen | cbn; lia | cbn; lia].
  - left. exists b1. repeat split; try assumption. lia.
  - right. eexists. reflexivity.
Qed.

Lemma optional_write_with_parity_outcome (buf : list Z)
      (F P : IEBusMessageField) (o : option Z) :
  wf_bytes buf -> List.length buf = 68%nat ->
  0 <= BitOffset F <= 519 -> 0 <= LengthBits F <= 12 ->
  0 <= BitOffset P <= 519 -> 0 <= LengthBits P <= 12 ->
  (exists buf' : list Z,
      match o with
      | Some a =>
          if Py.truthy a then
            b1 <- IEBusMessage.setField buf F a ;;
            p <- calculateParity a ;;
            IEBusMessage.setField b1 P (Py.int_of_bool p)
          else Ret buf
      | None => Ret buf
      end = Ret buf'
      /\ wf_bytes buf' /\ List.length buf' = 68%nat)
  \/ exists why : struct_reason,
      match o with
      | Some a =>
          if Py.truthy a then
            b1 <- IEBusMessage.setField buf F a ;;
            p <- calculateParity a ;;
            IEBusMessage.setField b1 P (Py.int_of_bool p)
          else Ret buf
      | None => Ret buf
      end = Raise (struct_error why).
Proof.
  intros Hwf Hlen HoffF HwF HoffP HwP.
  destruct o as [a |]; [| left; exists buf; auto].
  destruct (Py.truthy a); [| left; exists buf; auto].
  destruct (setField_outcome buf F a Hwf)
    as [(b1 & -> & Hwf1 & Hlen1 & Ha) | ->];
    [apply admissible_68; assumption | | right; eexists; reflexivity].
  cbn [bind]. rewrite calculateParity_nonneg by exact Ha. cbn [bind].
  destruct (setField_outcome b1 P (Py.int_of_bool (Nat.odd (popcount a))) Hwf1)
    as [(b2 & -> & Hwf2 & Hlen2 & _) | ->];
    [apply admissible_68; try assumption; lia | | right; eexists; reflexivity].
  left. exists b2. repeat split; try assumption. lia.
Qed.

Lemma write_with_parity_ack_outcome (buf : list Z)
      (F P A : IEBusMessageField) (a : Z) :
  wf_bytes buf -> List.length buf = 68%nat ->
  0 <= BitOffset F <= 519 -> 0 <= LengthBits F <= 12 ->
  0 <= BitOffset P <= 519 -> 0 <= LengthBits P <= 12 ->
  0 <= BitOffset A <= 519 -> 0 <= LengthBits A <= 12 ->
  (exists buf' : list Z,
      (b1 <- IEBusMessage.setField buf F a ;;
       p <- calculateParity a ;;
       b2 <- IEBusMessage.setField b1 P (Py.int_of_bool p) ;;
       IEBusMessage.setField b2 A IEBusMessage.DefaultAckVal) = Ret buf'
      /\ wf_bytes buf' /\ List.length buf' = 68%nat)
  \/ exists why : struct_reason,
      (b1 <- IEBusMessage.setField buf F a ;;
       p <- calculateParity a ;;
       b2 <- IEBusMessage.setField b1 P (Py.int_of_bool p) ;;
       IEBusMessage.setField b2 A IEBusMessage.DefaultAckVal)
      = Raise (struct_error why).
Proof.
  intros Hwf Hlen HoffF HwF HoffP HwP HoffA HwA.
  destruct (setField_outcome buf F a Hwf)
    as [(b1 & -> & Hwf1 & Hlen1 & Ha) | ->];
    [apply admissible_68; assumption | | right; eexists; reflexivity].
  cbn [bind]. rewrite calculateParity_nonneg by exact Ha. cbn [bind].
  destruct (setField_outcome b1 P (Py.int_of_bool (Nat.odd (popcount a))) Hwf1)
    as [(b2 & -> & Hwf2 & Hlen2 & _) | ->];
    [apply admissible_68; try assumption; lia | | right; eexists; reflexivity].
  cbn [bind].
  destruct (setField_outcome b2 A IEBusMessage.DefaultAckVal Hwf2)
    as [(b3 & -> & Hwf3 & Hlen3 & _) | ->];
    [apply admissible_68; try assumption; lia | | right; eexists; reflexivity].
  left. exists b3. repeat split; try assumption. lia.
Qed.

Lemma optional_write_with_parity_ack_outcome (buf : list Z)
      (F P A : IEBusMessageField) (o : option Z) :
  wf_bytes buf -> List.length buf = 68%nat ->
  0 <= BitOffset F <= 519 -> 0 <= LengthBits F <= 12 ->
  0 <= BitOffset P <= 519 -> 0 <= LengthBits P <= 12 ->
  0 <= BitOffset A <= 519 -> 0 <= LengthBits A <= 12 ->
  (exists buf' : list Z,
      match o with
      | Some a =>
          if Py.truthy a then
            b1 <- IEBusMessage.setField buf F a ;;
            p <- calculateParity a ;;
            b2 <- IEBusMessage.setField b1 P (Py.int_of_bool p) ;;
            IEBusMessage.setField b2 A IEBusMessage.DefaultAckVal
          else Ret buf
      | None => Ret buf
      end = Ret buf'
      /\ wf_bytes buf' /\ List.length buf' = 68%nat)
  \/ exists why : struct_reason,
      match o with
      | Some a =>
          if Py.truthy a then
            b1 <- IEBusMessage.setField buf F a ;;
            p <- calculateParity a ;;
            b2 <- IEBusMessage.setField b1 P (Py.int_of_bool p) ;;
            IEBusMessage.setField b2 A IEBusMessage.DefaultAckVal
          else Ret buf
      | None => Ret buf
      end = Raise (struct_error why).
Proof.
  intros Hwf Hlen HoffF HwF HoffP HwP HoffA HwA.
  destruct o as [a |]; [| left; exists buf; auto].
  destruct (Py.truthy a); [| left; exists buf; auto].
  apply write_with_parity_ack_outcome; assumption.
Qed.

(** With more than 47 data bytes the field-writing constructor raises
    [struct.error], whatever the argument values. *)
Lemma init_fields_overflow (b ma sl c : option Z) (data : list Z) :
  47 < Py.len data ->
  exists why : struct_reason,
    IEBusMessage.init_fields b ma sl c (Some data) = Raise (struct_error why).
Proof.
  intros Hover. unfold IEBusMessage.init_fields.
  set (B0 := Py.replicate 0 (IEBusMessage.MaxMessageLenBytes + 4)).
  assert (wf_bytes B0) as Hwf0 by apply wf_zero.
  assert (List.length B0 = 68%nat) as Hlen0 by reflexivity.
  destruct (optional_broadcast_outcome B0 b Hwf0 Hlen0)
    as [(B1 & -> & Hwf1 & Hlen1) | (why & ->)]; [| exists why; reflexivity].
  cbn [bind].
  destruct (optional_write_with_parity_outcome
              B1 IEBusMessage.MasterAddress IEBusMessage.MasterAddress_P ma Hwf1 Hlen1)
    as [(B2 & -> & Hwf2 & Hlen2) | (why & ->)];
    try (cbn; lia); [| exists why; reflexivity].
  cbn [bind].
  destruct (optional_write_with_parity_ack_outcome
              B2 IEBusMessage.SlaveAddress IEBusMessage.SlaveAddress_P
              IEBusMessage.SlaveAddress_A sl Hwf2 Hlen2)
    as [(B3 & -> & Hwf3 & Hlen3) | (why & ->)];
    try (cbn; lia); [| exists why; reflexivity].
  cbn [bind].
  destruct (optional_write_with_parity_ack_outcome
              B3 IEBusMessage.Control IEBusMessage.Control_P
              IEBusMessage.Control_A c Hwf3 Hlen3)
    as [(B4 & -> & Hwf4 & Hlen4) | (why & ->)];
    try (cbn; lia); [| exists why; reflexivity].
  cbn [bind].
  destruct data as [| val rest]; [rewrite (@len_nil Z) in Hover; lia |].
  set (d := val :: rest) in *.
  rewrite write_with_parity_ack_then.
  destruct (write_with_parity_ack_outcome
              B4 IEBusMessage.DataLength IEBusMessage.DataLength_P
              IEBusMessage.DataLength_A (Py.len d) Hwf4 Hlen4)
    as [(B5 & -> & Hwf5 & Hlen5) | (why & ->)];
    try (cbn; lia); [| exists why; reflexivity].
  cbn [bind].
  destruct (init_data_overflow d 0 B5 Hwf5 Hlen5) as (why & ->); try lia.
  exists why. reflexivity.
Qed.



(** ** Token strings *)

Lemma int_outcome (s : string) (base : Z) :
  (exists v : Z, PyStr.int s base = Ret v) \/ PyStr.int s base = Raise ValueError.
Proof.
  unfold PyStr.int, PyStr.int_chars.
  match goal with
  | |- context [match ?r with Some _ => _ | None => _ end] => destruct r as [v |]
  end; [left; exists v; reflexivity | right; reflexivity].
Qed.



(** ** Constructed messages *)

Lemma init_fields_built_valid (b ma sl c : option Z) (data : option (list Z))
      (m : IEBusMessage.t) :
  in_range b 1 -> in_range ma 12 -> in_range sl 12 -> in_range c 4 ->
  (forall d, data = Some d -> Forall (fun x => 0 <= x < 256) d) ->
  IEBusMessage.init_fields b ma sl c data = Ret m ->
  IEBusMessage.isValid m = Ret true.
Proof.
  intros Hb Hma Hsl Hc Hdata Hm.
  assert (forall d, data = Some d -> Py.len d <= 47) as Hshort.
  { intros d ->. destruct (Z.le_gt_cases (Py.len d) 47) as [Hle | Hgt]; [exact Hle |].
    destruct (init_fields_overflow b ma sl c d) as (why & Hraise); [lia |].
    rewrite Hraise in Hm. discriminate Hm. }
  destruct (init_fields_valid b ma sl c data Hb Hma Hsl Hc) as (m' & Hm' & Hvalid).
  { intros d Hd. split; [apply Hdata, Hd | apply Hshort, Hd]. }
  rewrite Hm' in Hm. injection Hm as <-. exact Hvalid.
Qed.

(** C5 (as amended). A message built by the structured-field constructor
    from in-range field values, or by the token-string constructor from
    tokens whose values are in range (addresses below 0x1000, data below
    0x100), has every stored parity bit equal to the odd parity of its
    field, and [isValid] returns [True] on it; with at most 47 in-range data
    bytes the structured constructor does build a message. *)
Theorem constructed_message_valid :
  (forall (b ma sl c : option Z) (data : option (list Z)) (m : IEBusMessage.t),
      in_range b 1 -> in_range ma 12 -> in_range sl 12 -> in_range c 4 ->
      (forall d, data = Some d -> Forall (fun x => 0 <= x < 256) d) ->
      IEBusMessage.__init__ None None b ma sl c data = Ret m ->
      IEBusMessage.isValid m = Ret true)
  /\ (forall (b ma sl c : option Z) (data : option (list Z)),
         in_range b 1 -> in_range ma 12 -> in_range sl 12 -> in_range c 4 ->
         (forall d, data = Some d ->
                    Forall (fun x => 0 <= x < 256) d /\ Py.len d <= 47) ->
         exists m : IEBusMessage.t,
           IEBusMessage.__init__ None None b ma sl c data = Ret m
           /\ IEBusMessage.isValid m = Ret true)
  /\ (forall (message_string : string) (ma sl : Z) (data : list Z)
             (m : IEBusMessage.t),
         token_values message_string = Ret (ma, sl, data) ->
         0 <= ma < 2 ^ 12 -> 0 <= sl < 2 ^ 12 ->
         Forall (fun x => 0 <= x < 256) data ->
         IEBusMessage.__init__ None (Some message_string) None None None None None
         = Ret m ->
         IEBusMessage.isValid m = Ret true).
Proof.
  split; [| split].
  - intros b ma sl c data m Hb Hma Hsl Hc Hdata Hm.
    apply (init_fields_built_valid b ma sl c data m); assumption.
  - intros b ma sl c data Hb Hma Hsl Hc Hdata.
    apply (init_fields_valid b ma sl c data); assumption.
  - intros message_string ma sl data m Htok Hma Hsl Hdata Hm.
    destruct message_string as [| ch rest].
    { cbn in Htok. discriminate Htok. }
    unfold token_values in Htok. cbn [IEBusMessage.__init__] in Hm.
    set (parts := PyStr.split (PyStr.remove_char ":"%char (String ch rest))) in *.
    destruct (IEBusMessage.part parts 0) as [p0 | |]; cbn [bind] in Hm;
      try discriminate Hm.
    destruct (IEBusMessage.part parts 1) as [p1 | |]; cbn [bind] in Hm, Htok;
      try discriminate Hm.
    destruct (PyStr.int p1 16) as [ma' | |]; cbn [bind] in Hm, Htok;
      try discriminate Hm.
    destruct (IEBusMessage.part parts 2) as [p2 | |]; cbn [bind] in Hm, Htok;
      try discriminate Hm.
    destruct (PyStr.int p2 16) as [sl' | |]; cbn [bind] in Hm, Htok;
      try discriminate Hm.
    destruct (IEBusMessage.parse_data (skipn 3 parts)) as [data' | |];
      cbn [bind] in Hm, Htok; try discriminate Hm.
    injection Htok as -> -> ->.
    apply (init_fields_built_valid _ _ _ _ _ m) in Hm; [exact Hm | | | | |].
    + intros v [= <-]. unfold IEBusMessage.BROADCAST, IEBusMessage.UNICAST.
      destruct (String.eqb p0 "B"); lia.
    + intros v [= <-]. exact Hma.
    + intros v [= <-]. exact Hsl.
    + intros v [= <-]. lia.
    + intros d [= <-]. exact Hdata.
Qed.

Lemma constructed_message_valid_witness :
  exists m : IEBusMessage.t,
    IEBusMessage.__init__ None (Some "- 190 440 f 5 00 25 74 9C 04"%string)
                          None None None None None = Ret m
    /\ IEBusMessage.isValid m = Ret true.
Proof.
  eexists. split; [vm_compute; reflexivity |].
  apply (proj2 (proj2 constructed_message_valid)
               "- 190 440 f 5 00 25 74 9C 04"%string 0x190 0x440
               [0x0F; 0x05; 0x00; 0x25; 0x74; 0x9C; 0x04]).
  - vm_compute. reflexivity.
  - lia.
  - lia.
  - repeat (apply Forall_cons; [lia |]). apply Forall_nil.
  - vm_compute. reflexivity.
Defined.

(** The claim as stated fails for the token-string constructor: the master
    token "1000" does not fit 12 bits, the stored address reads 0 while the
    stored parity is that of 0x1000, and [isValid] returns [False]. *)
Lemma token_string_parity_counterexample :
  exists m : IEBusMessage.t,
    IEBusMessage.__init__ None (Some "- 1000 440"%string) None None None None None
    = Ret m
    /\ IEBusMessage.getField (IEBusMessage.message_bytes m)
                             IEBusMessage.MasterAddress = Ret 0
    /\ IEBusMessage.getField (IEBusMessage.message_bytes m)
                             IEBusMessage.MasterAddress_P = Ret 1
    /\ IEBusMessage.isValid m = Ret false.
Proof.
  eexists. split; [vm_compute; reflexivity |].
  repeat split; vm_compute; reflexivity.
Qed.

(** ** Data length limit *)




(** * Further properties of the code *)

(** ** Field access: values, bounds and composition *)

Lemma getField_out_of_bounds (buf : list Z) (f : IEBusMessageField) :
  0 <= BitOffset f -> 0 <= LengthBits f ->
  Py.len buf < BitOffset f / 8 + 4 ->
  IEBusMessage.getField buf f = Raise (struct_error buffer_too_small).
Proof.
  intros Hoff Hw Hlen.
  assert (0 <= BitOffset f / 8) as Hs by (apply Z.div_pos; lia).
  unfold IEBusMessage.getField, Py.lshift, Py.int_div.
  rewrite Z.quot_div_nonneg by lia.
  destruct (Z.ltb_spec (LengthBits f) 0); [lia |]. cbn [bind].
  unfold Struct.unpack_from, Struct.resolve_offset.
  destruct (Z.ltb_spec (BitOffset f / 8) 0); [lia |].
  destruct (Z.ltb_spec (Py.len buf - BitOffset f / 8) 4); [reflexivity | lia].
Qed.

(** X1. On a well-formed buffer, [getField] of a field whose window lies in
    the buffer returns a value in [0, 2^LengthBits) whose binary digits are
    the buffer bits of the field, most significant first. *)
Theorem getField_reads_window :
  forall (buf : list Z) (f : IEBusMessageField),
    wf_bytes buf ->
    admissible buf f ->
    exists x : Z,
      IEBusMessage.getField buf f = Ret x
      /\ 0 <= x < 2 ^ LengthBits f
      /\ forall j, 0 <= j < LengthBits f ->
                   Z.testbit x j
                   = buffer_bit buf (BitOffset f + LengthBits f - 1 - j).
Proof.
  intros buf f Hwf Hadm. exact (getField_spec buf f Hwf Hadm).
Qed.

Lemma getField_reads_window_witness :
  exists x : Z,
    IEBusMessage.getField [140; 133; 16; 31; 65; 240] IEBusMessage.MasterAddress
    = Ret x
    /\ 0 <= x < 2 ^ LengthBits IEBusMessage.MasterAddress
    /\ forall j, 0 <= j < LengthBits IEBusMessage.MasterAddress ->
                 Z.testbit x j
                 = buffer_bit [140; 133; 16; 31; 65; 240]
                              (BitOffset IEBusMessage.MasterAddress
                               + LengthBits IEBusMessage.MasterAddress - 1 - j).
Proof.
  apply (getField_reads_window [140; 133; 16; 31; 65; 240]
                               IEBusMessage.MasterAddress).
  - repeat (apply Forall_cons; [lia |]). apply Forall_nil.
  - unfold admissible. cbn. repeat split; try lia; vm_compute; discriminate.
Defined.

(** X2. A field whose 4-byte window reaches past the end of the buffer can
    be neither read nor written: both calls raise [struct.error] (buffer too
    small), whatever the value to write. The bit offset is below 2^53, so
    that [int(BitOffset / 8)] is exact and the byte offset fits the
    machine integer [struct] takes. *)
Theorem field_access_out_of_bounds :
  forall (buf : list Z) (f : IEBusMessageField) (v : Z),
    0 <= BitOffset f < 2 ^ 53 ->
    0 <= LengthBits f ->
    LengthBits f + BitOffset f mod 8 <= 32 ->
    Py.len buf < BitOffset f / 8 + 4 ->
    IEBusMessage.getField buf f = Raise (struct_error buffer_too_small)
    /\ IEBusMessage.setField buf f v = Raise (struct_error buffer_too_small).
Proof.
  intros buf f v Hoff Hw Hbits Hlen. split.
  - apply getField_out_of_bounds; try assumption. lia.
  - apply setField_out_of_bounds; try assumption. lia.
Qed.

Lemma field_access_out_of_bounds_witness :
  IEBusMessage.getField (Py.replicate 0 68) (IEBusMessage.Data_P 47)
  = Raise (struct_error buffer_too_small)
  /\ IEBusMessage.setField (Py.replicate 0 68) (IEBusMessage.Data_P 47) 1
     = Raise (struct_error buffer_too_small).
Proof.
  apply (field_access_out_of_bounds (Py.replicate 0 68) (IEBusMessage.Data_P 47) 1).
  - cbn. lia.
  - cbn. lia.
  - cbn. lia.
  - vm_compute. reflexivity.
Defined.

Lemma shiftl_lt_pow2 (v shift n : Z) :
  0 <= v -> 0 <= shift <= n ->
  (Z.shiftl v shift < 2 ^ n <-> v < 2 ^ (n - shift)).
Proof.
  intros Hv Hshift. rewrite Z.shiftl_mul_pow2 by lia.
  replace (2 ^ n) with (2 ^ (n - shift) * 2 ^ shift)
    by (rewrite <- Z.pow_add_r by lia; f_equal; lia).
  pose proof (Z.pow_pos_nonneg 2 shift ltac:(lia) ltac:(lia)).
  split; intros H1; nia.
Qed.

Lemma lor_lt_pow2 (a b n : Z) :
  0 <= a -> 0 <= b -> 0 <= n ->
  (Z.lor a b < 2 ^ n <-> a < 2 ^ n /\ b < 2 ^ n).
Proof.
  intros Ha Hb Hn. split.
  - intros Hlor.
    assert (forall k, n <= k -> Z.testbit (Z.lor a b) k = false) as Hbits.
    { intros k Hk. apply (testbit_small _ n); [| exact Hk].
      split; [apply Z.lor_nonneg; split; assumption | exact Hlor]. }
    split; apply lt_pow2_of_bits; try assumption; intros k Hk;
      specialize (Hbits k Hk); rewrite Z.lor_spec in Hbits;
      apply Bool.orb_false_elim in Hbits; tauto.
  - intros (Hlta & Hltb). apply lt_pow2_of_bits; [exact Hn | |].
    + apply Z.lor_nonneg. split; assumption.
    + intros k Hk. rewrite Z.lor_spec.
      rewrite (testbit_small a n k), (testbit_small b n k) by lia. reflexivity.
Qed.

(** X3. On a well-formed buffer and a field whose window lies in it,
    [setField] returns exactly when the value is non-negative and its
    shifted image fits the 32-bit window, that is when
    [0 <= v < 2^(LengthBits + BitOffset mod 8)]; otherwise it raises
    [struct.error] (number out of range). When it returns, the buffer keeps
    its length and its bytes stay in [0, 256). *)
Theorem setField_returns_iff :
  forall (buf : list Z) (f : IEBusMessageField) (v : Z),
    wf_bytes buf ->
    admissible buf f ->
    (0 <= v < 2 ^ (LengthBits f + BitOffset f mod 8) ->
     exists buf' : list Z,
       IEBusMessage.setField buf f v = Ret buf'
       /\ wf_bytes buf' /\ List.length buf' = List.length buf)
    /\ (~ 0 <= v < 2 ^ (LengthBits f + BitOffset f mod 8) ->
        IEBusMessage.setField buf f v = Raise (struct_error number_out_of_range)).
Proof.
  intros buf f v Hwf Hadm.
  pose proof (field_shift_bounds buf f Hadm) as (Hsh & Hfit & Hs).
  pose proof Hadm as (Hoff & Hw & Hbits & Hlen).
  pose proof (window_range buf (BitOffset f / 8) Hwf Hs Hlen) as HW.
  set (shift := 4 * 8 - LengthBits f - BitOffset f mod 8) in *.
  assert (IEBusMessage.setField buf f v
          = Struct.pack_into buf (BitOffset f / 8)
              (spliced (window buf (BitOffset f / 8)) (LengthBits f) shift v))
    as Hrun.
  { unfold IEBusMessage.setField, Py.lshift, Py.int_div.
    rewrite Z.quot_div_nonneg by lia.
    destruct (Z.ltb_spec (LengthBits f) 0); [lia |]. cbn [bind]. fold shift.
    destruct (Z.ltb_spec shift 0); [lia |]. cbn [bind].
    rewrite unpack_from_window by lia. reflexivity. }
  set (W' := spliced (window buf (BitOffset f / 8)) (LengthBits f) shift v) in *.
  assert (0 <= Z.land (window buf (BitOffset f / 8))
                      (Z.lnot (Z.shiftl (Z.shiftl 1 (LengthBits f) - 1) shift))
          < 2 ^ 32) as Hkept.
  { split; [apply Z.land_nonneg; left; lia |].
    apply lt_pow2_of_bits; [lia | apply Z.land_nonneg; left; lia |].
    intros k Hk. rewrite Z.land_spec, (testbit_small _ 32 k) by lia. reflexivity. }
  assert (0 <= v < 2 ^ (LengthBits f + BitOffset f mod 8) <-> 0 <= W' < 2 ^ 32)
    as Hiff.
  { unfold W', spliced. split.
    - intros (Hv0 & Hv1). split.
      + apply Z.lor_nonneg. split; [lia | apply Z.shiftl_nonneg; exact Hv0].
      + apply lor_lt_pow2; try lia; [apply Z.shiftl_nonneg; exact Hv0 |].
        split; [lia |]. apply shiftl_lt_pow2; try lia.
        replace (32 - shift) with (LengthBits f + BitOffset f mod 8)
          by (unfold shift; lia).
        exact Hv1.
    - intros (HW0 & HW1). apply Z.lor_nonneg in HW0. destruct HW0 as (_ & Hv0).
      apply Z.shiftl_nonneg in Hv0. split; [exact Hv0 |].
      apply lor_lt_pow2 in HW1; try lia; [| apply Z.shiftl_nonneg; exact Hv0].
      destruct HW1 as (_ & HW1). apply shiftl_lt_pow2 in HW1; try lia.
      replace (32 - shift) with (LengthBits f + BitOffset f mod 8) in HW1
        by (unfold shift; lia).
      exact HW1. }
  split.
  - intros Hv. apply Hiff in Hv. rewrite Hrun, pack_into_poke by (try exact Hv; lia).
    eexists. split; [reflexivity |].
    split; [apply wf_poke, Hwf | apply length_poke; assumption].
  - intros Hv. rewrite Hrun. unfold Struct.pack_into.
    rewrite resolve_offset_ok by lia. cbn [bind].
    change (2 ^ 32) with 4294967296 in Hiff.
    destruct (Z.ltb_spec W' 0); [reflexivity |].
    destruct (Z.ltb_spec 4294967295 W'); [reflexivity |].
    exfalso. apply Hv, Hiff. lia.
Qed.

Lemma setField_returns_iff_witness :
  IEBusMessage.setField (Py.replicate 0 68) IEBusMessage.MasterAddress (-1)
  = Raise (struct_error number_out_of_range).
Proof.
  apply (proj2 (setField_returns_iff (Py.replicate 0 68)
                                     IEBusMessage.MasterAddress (-1)
                                     (wf_zero 68)
                                     ltac:(unfold admissible; cbn; repeat split;
                                           try lia; vm_compute; discriminate))).
  lia.
Defined.

Lemma buffer_ext (b1 b2 : list Z) :
  wf_bytes b1 -> wf_bytes b2 -> List.length b1 = List.length b2 ->
  (forall i, 0 <= i < 8 * Py.len b1 -> buffer_bit b1 i = buffer_bit b2 i) ->
  b1 = b2.
Proof.
  intros Hwf1 Hwf2 Hlen Hbits. apply (nth_ext b1 b2 0 0 Hlen). intros n Hn.
  apply (eq_of_low_bits _ _ 8).
  - change (2 ^ 8) with 256. apply wf_nth, Hwf1.
  - change (2 ^ 8) with 256. apply wf_nth, Hwf2.
  - intros j Hj. specialize (Hbits (8 * Z.of_nat n + 7 - j)).
    unfold buffer_bit, Py.len in Hbits.
    replace ((8 * Z.of_nat n + 7 - j) / 8) with (Z.of_nat n) in Hbits
      by (Z.div_mod_to_equations; lia).
    replace (7 - (8 * Z.of_nat n + 7 - j) mod 8) with j in Hbits
      by (Z.div_mod_to_equations; lia).
    rewrite Nat2Z.id in Hbits. apply Hbits. lia.
Qed.

(** The bits of the buffer after an in-range write. *)
Lemma setField_bits (buf : list Z) (f : IEBusMessageField) (v : Z) :
  wf_bytes buf -> admissible buf f -> 0 <= v < 2 ^ LengthBits f ->
  exists buf' : list Z,
    IEBusMessage.setField buf f v = Ret buf'
    /\ wf_bytes buf' /\ List.length buf' = List.length buf
    /\ forall i, 0 <= i ->
         buffer_bit buf' i
         = if (BitOffset f <=? i) && (i <? BitOffset f + LengthBits f)
           then Z.testbit v (BitOffset f + LengthBits f - 1 - i)
           else buffer_bit buf i.
Proof.
  intros Hwf Hadm Hv.
  destruct (setField_spec buf f Hwf Hadm v Hv) as (buf' & Hset & Hlen & Hwf' & Hin & Hout).
  exists buf'. split; [exact Hset |]. split; [exact Hwf' |]. split; [exact Hlen |].
  intros i Hi.
  destruct (Z.leb_spec (BitOffset f) i); destruct (Z.ltb_spec i (BitOffset f + LengthBits f));
    cbn [andb]; try (apply Hout; lia).
  rewrite <- Hin by lia. f_equal. lia.
Qed.

(** X4. In-range writes to two fields with disjoint bit windows commute:
    both orders return, and return the same buffer. *)
Theorem setField_disjoint_commute :
  forall (buf : list Z) (f g : IEBusMessageField) (v u : Z),
    wf_bytes buf ->
    admissible buf f -> admissible buf g ->
    0 <= v < 2 ^ LengthBits f -> 0 <= u < 2 ^ LengthBits g ->
    BitOffset f + LengthBits f <= BitOffset g
    \/ BitOffset g + LengthBits g <= BitOffset f ->
    exists buf' : list Z,
      (b1 <- IEBusMessage.setField buf f v ;; IEBusMessage.setField b1 g u)
      = Ret buf'
      /\ (b1 <- IEBusMessage.setField buf g u ;; IEBusMessage.setField b1 f v)
         = Ret buf'.
Proof.
  intros buf f g v u Hwf Hf Hg Hv Hu Hdisj.
  destruct (setField_bits buf f v Hwf Hf Hv) as (bf & -> & Hwff & Hlenf & Hbf).
  destruct (setField_bits buf g u Hwf Hg Hu) as (bg & -> & Hwfg & Hleng & Hbg).
  cbn [bind].
  destruct (setField_bits bf g u Hwff (admissible_same_length _ _ _ Hlenf Hg) Hu)
    as (bfg & -> & Hwffg & Hlenfg & Hbfg).
  destruct (setField_bits bg f v Hwfg (admissible_same_length _ _ _ Hleng Hf) Hv)
    as (bgf & -> & Hwfgf & Hlengf & Hbgf).
  exists bfg. split; [reflexivity |]. f_equal.
  apply buffer_ext; try assumption; [lia |].
  intros i Hi. rewrite Hbgf, Hbfg, Hbf, Hbg by lia.
  destruct Hf as (Hof & Hwf0 & _). destruct Hg as (Hog & Hwg0 & _).
  destruct (Z.leb_spec (BitOffset f) i);
    destruct (Z.ltb_spec i (BitOffset f + LengthBits f));
    destruct (Z.leb_spec (BitOffset g) i);
    destruct (Z.ltb_spec i (BitOffset g + LengthBits g));
    cbn [andb]; try reflexivity; lia.
Qed.

Lemma setField_disjoint_commute_witness :
  exists buf' : list Z,
    (b1 <- IEBusMessage.setField (Py.replicate 0 68) IEBusMessage.Control 15 ;;
     IEBusMessage.setField b1 IEBusMessage.DataLength 7) = Ret buf'
    /\ (b1 <- IEBusMessage.setField (Py.replicate 0 68) IEBusMessage.DataLength 7 ;;
        IEBusMessage.setField b1 IEBusMessage.Control 15) = Ret buf'.
Proof.
  apply (setField_disjoint_commute (Py.replicate 0 68) IEBusMessage.Control
                                   IEBusMessage.DataLength 15 7 (wf_zero 68)).
  - unfold admissible. cbn. repeat split; try lia; vm_compute; discriminate.
  - unfold admissible. cbn. repeat split; try lia; vm_compute; discriminate.
  - cbn. lia.
  - cbn. lia.
  - cbn. lia.
Defined.

(** X5. Writing a field twice keeps only the second value: the buffer is
    the one a single write of the second value gives (in-range values). *)
Theorem setField_last_write_wins :
  forall (buf : list Z) (f : IEBusMessageField) (v v' : Z),
    wf_bytes buf ->
    admissible buf f ->
    0 <= v < 2 ^ LengthBits f -> 0 <= v' < 2 ^ LengthBits f ->
    exists buf' : list Z,
      IEBusMessage.setField buf f v' = Ret buf'
      /\ (b1 <- IEBusMessage.setField buf f v ;; IEBusMessage.setField b1 f v')
         = Ret buf'.
Proof.
  intros buf f v v' Hwf Hf Hv Hv'.
  destruct (setField_bits buf f v Hwf Hf Hv) as (b1 & -> & Hwf1 & Hlen1 & Hb1).
  destruct (setField_bits buf f v' Hwf Hf Hv') as (b' & -> & Hwf' & Hlen' & Hb').
  cbn [bind].
  destruct (setField_bits b1 f v' Hwf1 (admissible_same_length _ _ _ Hlen1 Hf) Hv')
    as (b2 & -> & Hwf2 & Hlen2 & Hb2).
  exists b'. split; [reflexivity |]. f_equal.
  apply buffer_ext; try assumption; [lia |].
  intros i Hi. rewrite Hb2, Hb', Hb1 by lia.
  destruct ((BitOffset f <=? i) && (i <? BitOffset f + LengthBits f)); reflexivity.
Qed.

Lemma setField_last_write_wins_witness :
  exists buf' : list Z,
    IEBusMessage.setField (Py.replicate 0 68) IEBusMessage.SlaveAddress 0x440
    = Ret buf'
    /\ (b1 <- IEBusMessage.setField (Py.replicate 0 68)
                                    IEBusMessage.SlaveAddress 0xFFF ;;
        IEBusMessage.setField b1 IEBusMessage.SlaveAddress 0x440) = Ret buf'.
Proof.
  apply (setField_last_write_wins (Py.replicate 0 68) IEBusMessage.SlaveAddress
                                  0xFFF 0x440 (wf_zero 68)).
  - unfold admissible. cbn. repeat split; try lia; vm_compute; discriminate.
  - cbn. lia.
  - cbn. lia.
Defined.

(** ** Reading back what the constructor wrote *)

Lemma write_with_parity_ack_values (buf : list Z) (F P A : IEBusMessageField)
      (v : Z) :
  wf_bytes buf -> List.length buf = 68%nat ->
  0 <= BitOffset F -> BitOffset A <= 519 -> 0 <= LengthBits F <= 12 ->
  BitOffset P = BitOffset F + LengthBits F -> LengthBits P = 1 ->
  BitOffset A = BitOffset P + 1 -> LengthBits A = 1 ->
  0 <= v < 2 ^ LengthBits F ->
  zero_from buf (BitOffset F) ->
  exists buf' : list Z,
    (b1 <- IEBusMessage.setField buf F v ;;
     p <- calculateParity v ;;
     b2 <- IEBusMessage.setField b1 P (Py.int_of_bool p) ;;
     IEBusMessage.setField b2 A IEBusMessage.DefaultAckVal) = Ret buf'
    /\ wf_bytes buf' /\ List.length buf' = 68%nat
    /\ agree_below buf buf' (BitOffset F)
    /\ zero_from buf' (BitOffset A + 1)
    /\ parity_consistent buf' F P v
    /\ IEBusMessage.getField buf' A = Ret IEBusMessage.NAK.
Proof.
  intros Hwf Hlen HoffF HoffA HwF HP HwP HA HwA Hv Hzero.
  assert (admissible buf F) as HadmF by (apply admissible_68; lia).
  destruct (setField_step buf F v Hwf HadmF Hv Hzero)
    as (b1 & -> & Hwf1 & Hlen1 & Hag1 & Hz1 & Hget1).
  cbn [bind]. rewrite calculateParity_nonneg by lia. cbn [bind].
  fold (parity_bit v).
  assert (admissible b1 P) as HadmP by (apply admissible_68; lia).
  destruct (setField_step b1 P (parity_bit v) Hwf1 HadmP)
    as (b2 & -> & Hwf2 & Hlen2 & Hag2 & Hz2 & Hget2).
  { rewrite HwP. apply parity_bit_range. }
  { rewrite HP. exact Hz1. }
  cbn [bind].
  assert (admissible b2 A) as HadmA by (apply admissible_68; lia).
  destruct (setField_step b2 A IEBusMessage.DefaultAckVal Hwf2 HadmA)
    as (b3 & -> & Hwf3 & Hlen3 & Hag3 & Hz3 & Hget3).
  { rewrite HwA. unfold IEBusMessage.DefaultAckVal, IEBusMessage.NAK. lia. }
  { rewrite HA, <- HwP. exact Hz2. }
  exists b3. split; [reflexivity |]. split; [exact Hwf3 |]. split; [lia |].
  split.
  { eapply agree_below_trans; [exact Hag1 |
      eapply agree_below_trans; [exact Hag2 | exact Hag3 | lia] | lia]. }
  split; [rewrite HwA in Hz3; exact Hz3 |].
  split; [| exact Hget3].
  split; [lia |]. split.
  - rewrite <- Hget1. transitivity (IEBusMessage.getField b2 F).
    + apply (getField_agree_below b2 b3 F (BitOffset A)); try assumption; try lia.
      apply admissible_68; lia.
    + apply (getField_agree_below b1 b2 F (BitOffset P)); try assumption; try lia.
      apply admissible_68; lia.
  - rewrite <- Hget2.
    apply (getField_agree_below b2 b3 P (BitOffset A)); try assumption; try lia.
    apply admissible_68; lia.
Qed.

Lemma optional_broadcast_value (buf : list Z) (o : option Z) :
  wf_bytes buf -> List.length buf = 68%nat -> in_range o 1 -> zero_from buf 0 ->
  exists buf' : list Z,
    match o with
    | Some b =>
        if Py.truthy b then IEBusMessage.setField buf IEBusMessage.Broadcast b
        else Ret buf
    | None => Ret buf
    end = Ret buf'
    /\ wf_bytes buf' /\ List.length buf' = 68%nat /\ zero_from buf' 1
    /\ IEBusMessage.getField buf' IEBusMessage.Broadcast = Ret (arg_value o).
Proof.
  intros Hwf Hlen Hrange Hzero.
  assert (admissible buf IEBusMessage.Broadcast) as Hadm
      by (apply admissible_68; [exact Hlen | cbn; lia | cbn; lia]).
  assert (zero_from buf 1) as Hz1 by (eapply zero_from_mono; [exact Hzero | lia]).
  assert (IEBusMessage.getField buf IEBusMessage.Broadcast = Ret 0) as Hget0
      by (apply getField_zero; assumption).
  destruct o as [b |]; [| exists buf; auto].
  cbn [arg_value]. unfold Py.truthy.
  destruct (Z.eqb_spec b 0) as [-> | Hnz]; cbn [negb]; [exists buf; auto |].
  destruct (setField_step buf IEBusMessage.Broadcast b Hwf Hadm (Hrange b eq_refl) Hzero)
    as (buf' & Hset & Hwf' & Hlen' & _ & Hz & Hget).
  exists buf'. repeat split; try assumption. lia.
Qed.

Lemma optional_write_with_parity_value (buf : list Z) (F P : IEBusMessageField)
      (o : option Z) :
  wf_bytes buf -> List.length buf = 68%nat ->
  0 <= BitOffset F -> BitOffset P <= 519 -> 0 <= LengthBits F <= 12 ->
  BitOffset P = BitOffset F + LengthBits F -> LengthBits P = 1 ->
  in_range o (LengthBits F) ->
  zero_from buf (BitOffset F) ->
  exists buf' : list Z,
    match o with
    | Some a =>
        if Py.truthy a then
          b1 <- IEBusMessage.setField buf F a ;;
          p <- calculateParity a ;;
          IEBusMessage.setField b1 P (Py.int_of_bool p)
        else Ret buf
    | None => Ret buf
    end = Ret buf'
    /\ wf_bytes buf' /\ List.length buf' = 68%nat
    /\ agree_below buf buf' (BitOffset F)
    /\ zero_from buf' (BitOffset P + 1)
    /\ parity_consistent buf' F P (arg_value o).
Proof.
  intros Hwf Hlen HoffF HoffP HwF HP HwP Hrange Hzero.
  assert (Ret buf = Ret buf /\ wf_bytes buf /\ List.length buf = 68%nat
          /\ agree_below buf buf (BitOffset F)
          /\ zero_from buf (BitOffset P + 1)
          /\ parity_consistent buf F P 0) as Hskip.
  { split; [reflexivity |]. split; [exact Hwf |]. split; [exact Hlen |].
    split; [apply agree_below_refl |].
    split; [eapply zero_from_mono; [exact Hzero | lia] |].
    apply parity_consistent_zero; try assumption; try lia;
      apply admissible_68; lia. }
  destruct o as [a |]; [| exists buf; exact Hskip].
  cbn [arg_value]. unfold Py.truthy.
  destruct (Z.eqb_spec a 0) as [-> | Hnz]; cbn [negb]; [exists buf; exact Hskip |].
  destruct (write_with_parity buf F P a Hwf Hlen HoffF HoffP HwF HP HwP
                              (Hrange a eq_refl) Hzero)
    as (buf' & Hrun & Hwf' & Hlen' & Hag & Hz & HgF & HgP).
  exists buf'. repeat split; try assumption. apply (Hrange a eq_refl).
Qed.

Lemma optional_write_with_parity_ack_value (buf : list Z)
      (F P A : IEBusMessageField) (o : option Z) :
  wf_bytes buf -> List.length buf = 68%nat ->
  0 <= BitOffset F -> BitOffset A <= 519 -> 0 <= LengthBits F <= 12 ->
  BitOffset P = BitOffset F + LengthBits F -> LengthBits P = 1 ->
  BitOffset A = BitOffset P + 1 -> LengthBits A = 1 ->
  in_range o (LengthBits F) ->
  zero_from buf (BitOffset F) ->
  exists buf' : list Z,
    match o with
    | Some a =>
        if Py.truthy a then
          b1 <- IEBusMessage.setField buf F a ;;
          p <- calculateParity a ;;
          b2 <- IEBusMessage.setField b1 P (Py.int_of_bool p) ;;
          IEBusMessage.setField b2 A IEBusMessage.DefaultAckVal
        else Ret buf
    | None => Ret buf
    end = Ret buf'
    /\ wf_bytes buf' /\ List.length buf' = 68%nat
    /\ agree_below buf buf' (BitOffset F)
    /\ zero_from buf' (BitOffset A + 1)
    /\ parity_consistent buf' F P (arg_value o)
    /\ IEBusMessage.getField buf' A
       = Ret (if Py.truthy (arg_value o) then IEBusMessage.NAK else 0).
Proof.
  intros Hwf Hlen HoffF HoffA HwF HP HwP HA HwA Hrange Hzero.
  assert (Ret buf = Ret buf /\ wf_bytes buf /\ List.length buf = 68%nat
          /\ agree_below buf buf (BitOffset F)
          /\ zero_from buf (BitOffset A + 1)
          /\ parity_consistent buf F P 0
          /\ IEBusMessage.getField buf A = Ret 0) as Hskip.
  { split; [reflexivity |]. split; [exact Hwf |]. split; [exact Hlen |].
    split; [apply agree_below_refl |].
    split; [eapply zero_from_mono; [exact Hzero | lia] |].
    split.
    - apply parity_consistent_zero; try assumption; try lia;
        apply admissible_68; lia.
    - apply getField_zero; [exact Hwf | apply admissible_68; lia |].
      eapply zero_from_mono; [exact Hzero | lia]. }
  destruct o as [a |]; [| exists buf; exact Hskip].
  cbn [arg_value]. unfold Py.truthy.
  destruct (Z.eqb_spec a 0) as [-> | Hnz]; cbn [negb]; [exists buf; exact Hskip |].
  apply write_with_parity_ack_values; try assumption. apply (Hrange a eq_refl).
Qed.

Lemma init_data_values (data : list Z) :
  forall (i : Z) (buf : list Z),
    wf_bytes buf -> List.length buf = 68%nat ->
    0 <= i -> i + Py.len data <= 47 ->
    Forall (fun d => 0 <= d < 256) data ->
    zero_from buf (44 + 10 * i) ->
    exists buf' : list Z,
      IEBusMessage.init_data buf i data = Ret buf'
      /\ wf_bytes buf' /\ List.length buf' = 68%nat
      /\ agree_below buf buf' (44 + 10 * i)
      /\ forall k : nat,
          (k < List.length data)%nat ->
          parity_consistent buf' (IEBusMessage.Data (i + Z.of_nat k))
                            (IEBusMessage.Data_P (i + Z.of_nat k))
                            (List.nth k data 0)
          /\ IEBusMessage.getField buf' (IEBusMessage.Data_A (i + Z.of_nat k))
             = Ret IEBusMessage.NAK.
Proof.
  induction data as [| val rest IH]; intros i buf Hwf Hlen Hi Hfit Hdata Hzero.
  - exists buf. split; [reflexivity |]. split; [exact Hwf |]. split; [exact Hlen |].
    split; [apply agree_below_refl |]. intros k Hk. cbn in Hk. lia.
  - rewrite len_cons in Hfit. inversion Hdata as [| ? ? Hval Hrest]; subst.
    pose proof (Zle_0_nat (List.length rest)) as Hnn. fold (Py.len rest) in Hnn.
    rewrite init_data_cons.
    destruct (write_with_parity_ack_values
                buf (IEBusMessage.Data i) (IEBusMessage.Data_P i)
                (IEBusMessage.Data_A i) val Hwf Hlen)
      as (b3 & -> & Hwf3 & Hlen3 & Hag3 & Hz3 & Hpc & Hack);
      try data_geometry; try assumption.
    cbn [bind].
    cbn [BitOffset LengthBits IEBusMessage.Data IEBusMessage.Data_P
         IEBusMessage.Data_A] in Hag3, Hz3.
    unfold IEBusMessage.DataFieldLength in Hag3, Hz3.
    destruct (IH (i + 1) b3 Hwf3 Hlen3) as (buf' & -> & Hwf' & Hlen' & Hag' & Hall);
      try lia; try assumption.
    { eapply zero_from_mono; [exact Hz3 | lia]. }
    exists buf'. split; [reflexivity |]. split; [exact Hwf' |]. split; [exact Hlen' |].
    split.
    + eapply agree_below_trans; [exact Hag3 | exact Hag' | lia].
    + intros k Hk. destruct k as [| k].
      * cbn [List.nth]. rewrite Z.add_0_r. split.
        -- apply (parity_consistent_agree b3 buf' _ _ val (44 + 10 * (i + 1)));
             try assumption; try data_geometry.
        -- rewrite <- Hack.
           apply (getField_agree_below b3 buf' _ (44 + 10 * (i + 1)));
             try assumption; try data_geometry; try lia.
           apply admissible_68; [exact Hlen3 | |]; data_geometry.
      * cbn [List.nth]. cbn [List.length] in Hk.
        replace (i + Z.of_nat (S k)) with (i + 1 + Z.of_nat k) by lia.
        apply Hall. lia.
Qed.

Lemma getDataFrom_values (buf : list Z) (d : list Z) :
  forall i : Z,
    (forall k : nat,
        (k < List.length d)%nat ->
        IEBusMessage.getField buf (IEBusMessage.Data (i + Z.of_nat k))
        = Ret (List.nth k d 0)) ->
    IEBusMessage.getDataFrom buf i (List.length d) = Ret d.
Proof.
  induction d as [| x d IH]; intros i Hall; [reflexivity |].
  cbn [List.length IEBusMessage.getDataFrom].
  pose proof (Hall 0%nat ltac:(cbn; lia)) as H0. rewrite Z.add_0_r in H0.
  rewrite H0. cbn [bind List.nth]. rewrite IH; [reflexivity |].
  intros k Hk. replace (i + 1 + Z.of_nat k) with (i + Z.of_nat (S k)) by lia.
  apply (Hall (S k)). cbn. lia.
Qed.

(** The field-writing constructor on in-range arguments: the buffer it
    returns holds the argument values, their parities and NAK
    acknowledgements. *)
Lemma init_fields_holds (b ma sl c : option Z) (data : option (list Z)) :
  in_range b 1 -> in_range ma 12 -> in_range sl 12 -> in_range c 4 ->
  (forall d, data = Some d -> Forall (fun x => 0 <= x < 256) d /\ Py.len d <= 47) ->
  exists buf : list Z,
    IEBusMessage.init_fields b ma sl c data = Ret (IEBusMessage.mkMessage buf None)
    /\ holds_fields buf (arg_value b) (arg_value ma) (arg_value sl) (arg_value c)
                    (match data with Some d => d | None => [] end)
    /\ holds_acks buf (arg_value sl) (arg_value c)
                  (match data with Some d => d | None => [] end).
Proof.
  intros Hb Hma Hsl Hc Hdata. unfold IEBusMessage.init_fields.
  set (B0 := Py.replicate 0 (IEBusMessage.MaxMessageLenBytes + 4)).
  assert (wf_bytes B0) as Hwf0 by apply wf_zero.
  assert (List.length B0 = 68%nat) as Hlen0 by reflexivity.
  assert (zero_from B0 0) as Hz0 by apply zero_from_zero.
  destruct (optional_broadcast_value B0 b Hwf0 Hlen0 Hb Hz0)
    as (B1 & -> & Hwf1 & Hlen1 & Hz1 & HB).
  cbn [bind].
  destruct (optional_write_with_parity_value
              B1 IEBusMessage.MasterAddress IEBusMessage.MasterAddress_P ma Hwf1 Hlen1)
    as (B2 & -> & Hwf2 & Hlen2 & Hag2 & Hz2 & HM);
    try (cbn; lia); try assumption.
  cbn [bind]. change (BitOffset IEBusMessage.MasterAddress_P + 1) with 14 in Hz2.
  change (BitOffset IEBusMessage.MasterAddress) with 1 in Hag2.
  destruct (optional_write_with_parity_ack_value
              B2 IEBusMessage.SlaveAddress IEBusMessage.SlaveAddress_P
              IEBusMessage.SlaveAddress_A sl Hwf2 Hlen2)
    as (B3 & -> & Hwf3 & Hlen3 & Hag3 & Hz3 & HS & HSA);
    try (cbn; lia); try assumption.
  cbn [bind]. change (BitOffset IEBusMessage.SlaveAddress_A + 1) with 28 in Hz3.
  change (BitOffset IEBusMessage.SlaveAddress) with 14 in Hag3.
  destruct (optional_write_with_parity_ack_value
              B3 IEBusMessage.Control IEBusMessage.Control_P
              IEBusMessage.Control_A c Hwf3 Hlen3)
    as (B4 & -> & Hwf4 & Hlen4 & Hag4 & Hz4 & HC & HCA);
    try (cbn; lia); try assumption.
  cbn [bind]. change (BitOffset IEBusMessage.Control_A + 1) with 34 in Hz4.
  change (BitOffset IEBusMessage.Control) with 28 in Hag4.
  assert (exists B5 : list Z,
             match data with
             | Some ((_ :: _) as d) =>
                 buf <- IEBusMessage.setField B4 IEBusMessage.DataLength (Py.len d) ;;
                 p <- calculateParity (Py.len d) ;;
                 buf <- IEBusMessage.setField buf IEBusMessage.DataLength_P
                                              (Py.int_of_bool p) ;;
                 buf <- IEBusMessage.setField buf IEBusMessage.DataLength_A
                                              IEBusMessage.DefaultAckVal ;;
                 IEBusMessage.init_data buf 0 d
             | _ => Ret B4
             end = Ret B5
             /\ wf_bytes B5 /\ List.length B5 = 68%nat /\ agree_below B4 B5 34
             /\ parity_consistent B5 IEBusMessage.DataLength IEBusMessage.DataLength_P
                                  (Py.len (match data with Some d => d | None => [] end))
             /\ IEBusMessage.getField B5 IEBusMessage.DataLength_A
                = Ret (match (match data with Some d => d | None => [] end) with
                       | [] => 0 | _ => IEBusMessage.NAK end)
             /\ forall k : nat,
                 (k < List.length (match data with Some d => d | None => [] end))%nat ->
                 parity_consistent
                   B5 (IEBusMessage.Data (Z.of_nat k)) (IEBusMessage.Data_P (Z.of_nat k))
                   (List.nth k (match data with Some d => d | None => [] end) 0)
                 /\ IEBusMessage.getField B5 (IEBusMessage.Data_A (Z.of_nat k))
                    = Ret IEBusMessage.NAK) as (B5 & -> & Hwf5 & Hlen5 & Hag5 & HL & HLA & HD).
  { assert (forall dd : list Z, dd = [] ->
              Ret B4 = Ret B4 /\ wf_bytes B4 /\ List.length B4 = 68%nat
              /\ agree_below B4 B4 34
              /\ parity_consistent B4 IEBusMessage.DataLength
                                   IEBusMessage.DataLength_P (Py.len dd)
              /\ IEBusMessage.getField B4 IEBusMessage.DataLength_A
                 = Ret (match dd with [] => 0 | _ => IEBusMessage.NAK end)
              /\ forall k : nat,
                  (k < List.length dd)%nat ->
                  parity_consistent
                    B4 (IEBusMessage.Data (Z.of_nat k))
                    (IEBusMessage.Data_P (Z.of_nat k)) (List.nth k dd 0)
                  /\ IEBusMessage.getField B4 (IEBusMessage.Data_A (Z.of_nat k))
                     = Ret IEBusMessage.NAK) as Hskip.
    { intros dd ->. split; [reflexivity |]. split; [exact Hwf4 |].
      split; [exact Hlen4 |]. split; [apply agree_below_refl |].
      split; [| split; [| intros k Hk; cbn in Hk; lia]].
      - apply parity_consistent_zero; try assumption; try (cbn; lia);
          apply admissible_68; try assumption; cbn; lia.
      - apply getField_zero; [exact Hwf4 | apply admissible_68; try assumption; cbn; lia |].
        eapply zero_from_mono; [exact Hz4 | cbn; lia]. }
    destruct data as [[| val rest] |];
      try (exists B4; apply Hskip; reflexivity).
    destruct (Hdata _ eq_refl) as (Hbytes & Hn).
    set (d := val :: rest) in *.
    assert (0 <= Py.len d < 2 ^ 8) as Hlen8
        by (pose proof (Zle_0_nat (List.length d)); unfold Py.len in *; lia).
    rewrite write_with_parity_ack_then.
    destruct (write_with_parity_ack_values
                B4 IEBusMessage.DataLength IEBusMessage.DataLength_P
                IEBusMessage.DataLength_A (Py.len d) Hwf4 Hlen4)
      as (b3 & -> & Hwf3' & Hlen3' & Hag3' & Hz3' & Hpc & Hack);
      try (cbn; lia); try assumption.
    cbn [bind]. change (BitOffset IEBusMessage.DataLength_A + 1) with 44 in Hz3'.
    change (BitOffset IEBusMessage.DataLength) with 34 in Hag3'.
    destruct (init_data_values d 0 b3 Hwf3' Hlen3')
      as (buf' & -> & Hwf' & Hlen' & Hag' & Hall); try lia; try assumption.
    exists buf'.
    split; [reflexivity |]. split; [exact Hwf' |]. split; [exact Hlen' |].
    split; [eapply agree_below_trans; [exact Hag3' | exact Hag' | lia] |].
    split; [| split].
    - apply (parity_consistent_agree b3 buf' _ _ (Py.len d) (44 + 10 * 0));
        try assumption; try (cbn; lia).
    - rewrite <- Hack.
      apply (getField_agree_below b3 buf' _ (44 + 10 * 0)); try assumption;
        try (cbn; lia).
      apply admissible_68; try assumption; cbn; lia.
    - intros k Hk. apply (Hall k Hk). }
  cbn [bind]. exists B5. split; [reflexivity |].
  assert (agree_below B3 B5 28) as Hag35
      by (eapply agree_below_trans; [exact Hag4 | exact Hag5 | lia]).
  assert (agree_below B2 B5 14) as Hag25
      by (eapply agree_below_trans; [exact Hag3 | exact Hag35 | lia]).
  assert (agree_below B1 B5 1) as Hag15
      by (eapply agree_below_trans; [exact Hag2 | exact Hag25 | lia]).
  assert (Py.len (match data with Some d => d | None => [] end) <= 47) as Hn.
  { destruct data as [d |]; [apply (Hdata d eq_refl) | cbn; lia]. }
  split.
  - unfold holds_fields. split; [exact Hwf5 |]. split; [exact Hlen5 |].
    split.
    { rewrite <- HB.
      apply (getField_agree_below B1 B5 _ 1); try assumption; try (cbn; lia).
      apply admissible_68; try assumption; cbn; lia. }
    split.
    { apply (parity_consistent_agree B2 B5 _ _ _ 14); try assumption;
        try (cbn; lia). }
    split.
    { apply (parity_consistent_agree B3 B5 _ _ _ 28); try assumption;
        try (cbn; lia). }
    split.
    { apply (parity_consistent_agree B4 B5 _ _ _ 34); try assumption;
        try (cbn; lia). }
    split; [exact HL |]. split; [exact Hn |].
    intros k Hk. apply (HD k Hk).
  - unfold holds_acks. split.
    { rewrite <- HSA.
      apply (getField_agree_below B3 B5 _ 28); try assumption; try (cbn; lia).
      apply admissible_68; try assumption; cbn; lia. }
    split.
    { rewrite <- HCA.
      apply (getField_agree_below B4 B5 _ 34); try assumption; try (cbn; lia).
      apply admissible_68; try assumption; cbn; lia. }
    split; [exact HLA |].
    intros k Hk. apply (HD k Hk).
Qed.

Lemma getData_of_holds (buf : list Z) (fields : option IEBusMessage.unpacked)
      (vb vm vs vc : Z) (d : list Z) :
  holds_fields buf vb vm vs vc d ->
  IEBusMessage.getData (IEBusMessage.mkMessage buf fields) = Ret d.
Proof.
  intros (_ & _ & _ & _ & _ & _ & (_ & HL & _) & _ & HD).
  unfold IEBusMessage.getData. cbn [IEBusMessage.message_bytes].
  rewrite HL. cbn [bind]. unfold Py.len. rewrite Nat2Z.id.
  apply getDataFrom_values. intros k Hk. cbn [Z.add]. apply (HD k Hk).
Qed.

(** X6. The structured-field constructor on in-range arguments with at most
    47 data bytes returns a message whose fields read back as given:
    broadcast, master and slave address, control (an absent argument reads
    0), the data length and the data bytes; every acknowledgement bit it
    wrote reads NAK. *)
Theorem constructed_fields_read_back :
  forall (b ma sl c : option Z) (data : option (list Z)),
    in_range b 1 -> in_range ma 12 -> in_range sl 12 -> in_range c 4 ->
    (forall d, data = Some d ->
               Forall (fun x => 0 <= x < 256) d /\ Py.len d <= 47) ->
    exists m : IEBusMessage.t,
      let buf := IEBusMessage.message_bytes m in
      let d := match data with Some d => d | None => [] end in
      IEBusMessage.__init__ None None b ma sl c data = Ret m
      /\ Py.len buf = 68
      /\ IEBusMessage.getField buf IEBusMessage.Broadcast = Ret (arg_value b)
      /\ IEBusMessage.getField buf IEBusMessage.MasterAddress = Ret (arg_value ma)
      /\ IEBusMessage.getField buf IEBusMessage.SlaveAddress = Ret (arg_value sl)
      /\ IEBusMessage.getField buf IEBusMessage.Control = Ret (arg_value c)
      /\ IEBusMessage.getField buf IEBusMessage.DataLength = Ret (Py.len d)
      /\ IEBusMessage.getData m = Ret d
      /\ IEBusMessage.getLengthInBits m = Ret (44 + 10 * Py.len d)
      /\ (arg_value sl <> 0 ->
          IEBusMessage.getField buf IEBusMessage.SlaveAddress_A
          = Ret IEBusMessage.NAK)
      /\ (arg_value c <> 0 ->
          IEBusMessage.getField buf IEBusMessage.Control_A = Ret IEBusMessage.NAK)
      /\ (d <> [] ->
          IEBusMessage.getField buf IEBusMessage.DataLength_A
          = Ret IEBusMessage.NAK)
      /\ forall k : nat,
          (k < List.length d)%nat ->
          IEBusMessage.getField buf (IEBusMessage.Data_A (Z.of_nat k))
          = Ret IEBusMessage.NAK.
Proof.
  intros b ma sl c data Hb Hma Hsl Hc Hdata.
  destruct (init_fields_holds b ma sl c data Hb Hma Hsl Hc Hdata)
    as (buf & Hinit & Hholds & Hacks).
  exists (IEBusMessage.mkMessage buf None). cbv zeta.
  cbn [IEBusMessage.message_bytes IEBusMessage.__init__].
  pose proof (getData_of_holds buf None _ _ _ _ _ Hholds) as HgetData.
  destruct Hholds as (Hwf & Hlen & HB & (_ & HM & _) & (_ & HS & _) & (_ & HC & _)
                      & (_ & HL & _) & _ & _).
  destruct Hacks as (HSA & HCA & HLA & HDA).
  split; [exact Hinit |]. split; [unfold Py.len; rewrite Hlen; reflexivity |].
  split; [exact HB |]. split; [exact HM |]. split; [exact HS |].
  split; [exact HC |]. split; [exact HL |]. split; [exact HgetData |].
  split.
  { unfold IEBusMessage.getLengthInBits. cbn [IEBusMessage.message_bytes].
    rewrite HL. reflexivity. }
  split.
  { intros Hnz. rewrite HSA. unfold Py.truthy.
    destruct (Z.eqb_spec (arg_value sl) 0); [contradiction | reflexivity]. }
  split.
  { intros Hnz. rewrite HCA. unfold Py.truthy.
    destruct (Z.eqb_spec (arg_value c) 0); [contradiction | reflexivity]. }
  split.
  { intros Hnz. rewrite HLA.
    destruct (match data with Some d => d | None => [] end);
      [contradiction | reflexivity]. }
  exact HDA.
Qed.

Lemma constructed_fields_read_back_witness :
  exists m : IEBusMessage.t,
    IEBusMessage.__init__ None None (Some 1) (Some 0x190) (Some 0x440) (Some 0xF)
                          (Some [0x00; 0x25; 0x74; 0x9C; 0x04]) = Ret m
    /\ IEBusMessage.getData m = Ret [0x00; 0x25; 0x74; 0x9C; 0x04].
Proof.
  destruct (constructed_fields_read_back
              (Some 1) (Some 0x190) (Some 0x440) (Some 0xF)
              (Some [0x00; 0x25; 0x74; 0x9C; 0x04]))
    as (m & Hm & _ & _ & _ & _ & _ & _ & Hd & _).
  - intros v [= <-]. lia.
  - intros v [= <-]. lia.
  - intros v [= <-]. lia.
  - intros v [= <-]. lia.
  - intros d [= <-]. split; [| vm_compute; discriminate].
    repeat (apply Forall_cons; [lia |]). apply Forall_nil.
  - exists m. split; [exact Hm | exact Hd].
Defined.

(** X7. The token-string constructor on a string whose tokens are in range
    (addresses below 0x1000, at most 47 data tokens below 0x100) returns a
    message whose broadcast flag is BROADCAST exactly when the first token
    is "B", whose addresses are the second and third tokens, whose control
    is 0xF, and whose data are all tokens from the fourth on. *)
Theorem token_string_fields_read_back :
  forall (message_string : string) (ma sl : Z) (data : list Z),
    token_values message_string = Ret (ma, sl, data) ->
    0 <= ma < 2 ^ 12 -> 0 <= sl < 2 ^ 12 ->
    Forall (fun x => 0 <= x < 256) data ->
    Py.len data <= 47 ->
    exists m : IEBusMessage.t,
      let buf := IEBusMessage.message_bytes m in
      let first :=
        List.hd ""%string
                (PyStr.split (PyStr.remove_char ":"%char message_string)) in
      IEBusMessage.__init__ None (Some message_string) None None None None None
      = Ret m
      /\ IEBusMessage.getField buf IEBusMessage.Broadcast
         = Ret (if String.eqb first "B" then IEBusMessage.BROADCAST
                else IEBusMessage.UNICAST)
      /\ IEBusMessage.getField buf IEBusMessage.MasterAddress = Ret ma
      /\ IEBusMessage.getField buf IEBusMessage.SlaveAddress = Ret sl
      /\ IEBusMessage.getField buf IEBusMessage.Control = Ret 0xF
      /\ IEBusMessage.getField buf IEBusMessage.DataLength = Ret (Py.len data)
      /\ IEBusMessage.getData m = Ret data
      /\ IEBusMessage.isValid m = Ret true.
Proof.
  intros message_string ma sl data Htok Hma Hsl Hdata Hlen.
  destruct message_string as [| ch rest]; [cbn in Htok; discriminate Htok |].
  unfold token_values in Htok. cbv zeta. cbn [IEBusMessage.__init__].
  set (parts := PyStr.split (PyStr.remove_char ":"%char (String ch rest))) in *.
  assert (exists p0, IEBusMessage.part parts 0 = Ret p0 /\ List.hd ""%string parts = p0)
    as (p0 & -> & ->).
  { destruct parts as [| p0 ps]; [cbn in Htok; discriminate Htok |].
    exists p0. split; reflexivity. }
  cbn [bind].
  destruct (IEBusMessage.part parts 1) as [p1 | |]; cbn [bind] in Htok |- *;
    try discriminate Htok.
  destruct (PyStr.int p1 16) as [ma' | |]; cbn [bind] in Htok |- *;
    try discriminate Htok.
  destruct (IEBusMessage.part parts 2) as [p2 | |]; cbn [bind] in Htok |- *;
    try discriminate Htok.
  destruct (PyStr.int p2 16) as [sl' | |]; cbn [bind] in Htok |- *;
    try discriminate Htok.
  destruct (IEBusMessage.parse_data (skipn 3 parts)) as [data' | |];
    cbn [bind] in Htok |- *; try discriminate Htok.
  injection Htok as -> -> ->.
  set (vb := if String.eqb p0 "B" then IEBusMessage.BROADCAST
             else IEBusMessage.UNICAST).
  destruct (init_fields_holds (Some vb) (Some ma) (Some sl) (Some 15) (Some data))
    as (buf & Hinit & Hholds & _).
  - intros v [= <-]. unfold vb, IEBusMessage.BROADCAST, IEBusMessage.UNICAST.
    destruct (String.eqb p0 "B"); lia.
  - intros v [= <-]. exact Hma.
  - intros v [= <-]. exact Hsl.
  - intros v [= <-]. lia.
  - intros d [= <-]. split; assumption.
  - exists (IEBusMessage.mkMessage buf None). cbn [IEBusMessage.message_bytes].
    pose proof (getData_of_holds buf None _ _ _ _ _ Hholds) as HgetData.
    destruct Hholds as (Hwf & Hlen68 & HB & HM & HS & HC & HL & Hn & HD).
    cbn [arg_value] in *.
    split; [exact Hinit |]. split; [exact HB |].
    split; [apply HM |]. split; [apply HS |]. split; [apply HC |].
    split; [apply HL |]. split; [exact HgetData |].
    apply (isValid_consistent buf ma sl 15 (Py.len data)); try assumption.
    intros k Hk. exists (List.nth (Z.to_nat k) data 0).
    specialize (HD (Z.to_nat k)). rewrite Z2Nat.id in HD by lia.
    apply HD. unfold Py.len in Hk. lia.
Qed.

Lemma token_string_fields_read_back_witness :
  exists m : IEBusMessage.t,
    IEBusMessage.__init__ None (Some "B 1ff 000 f 1 45"%string)
                          None None None None None = Ret m
    /\ IEBusMessage.getData m = Ret [0x0F; 0x01; 0x45].
Proof.
  destruct (token_string_fields_read_back "B 1ff 000 f 1 45"%string 0x1FF 0
                                          [0x0F; 0x01; 0x45])
    as (m & Hm & _ & _ & _ & _ & _ & Hd & _).
  - vm_compute. reflexivity.
  - lia.
  - lia.
  - repeat (apply Forall_cons; [lia |]). apply Forall_nil.
  - vm_compute. discriminate.
  - exists m. split; [exact Hm | exact Hd].
Defined.

(** ** Validation *)

Lemma calculateParity_ret (x : Z) (c : bool) :
  calculateParity x = Ret c -> 0 <= x /\ c = Nat.odd (popcount x).
Proof.
  intros H. destruct (Z.lt_ge_cases x 0) as [Hneg | Hnn].
  - rewrite calculateParity_negative in H by exact Hneg. discriminate H.
  - rewrite calculateParity_nonneg in H by exact Hnn. injection H as <-.
    split; [exact Hnn | reflexivity].
Qed.

Lemma check_sound (p x : Z) (c flag : bool) :
  calculateParity x = Ret c ->
  (if negb (p =? Py.int_of_bool c) then false else flag) = true ->
  flag = true /\ 0 <= x /\ p = parity_bit x.
Proof.
  intros Hc Hflag. apply calculateParity_ret in Hc. destruct Hc as (Hx & ->).
  destruct (Z.eqb_spec p (Py.int_of_bool (Nat.odd (popcount x)))) as [-> | Hne];
    cbn [negb] in Hflag; [| discriminate Hflag].
  repeat split; assumption.
Qed.

Lemma isValid_data_sound (buf : list Z) (n : nat) :
  forall (i : Z) (flag : bool),
    IEBusMessage.isValid_data buf i n flag = Ret true ->
    flag = true
    /\ forall k : Z,
        i <= k < i + Z.of_nat n ->
        exists x : Z,
          parity_consistent buf (IEBusMessage.Data k) (IEBusMessage.Data_P k) x.
Proof.
  induction n as [| n IH]; intros i flag H.
  - cbn in H. injection H as ->. split; [reflexivity |]. intros k Hk. lia.
  - cbn [IEBusMessage.isValid_data] in H.
    destruct (IEBusMessage.getField buf (IEBusMessage.Data_P i)) as [p | |] eqn:HP;
      cbn [bind] in H; try discriminate H.
    destruct (IEBusMessage.getField buf (IEBusMessage.Data i)) as [x | |] eqn:HF;
      cbn [bind] in H; try discriminate H.
    destruct (calculateParity x) as [c | |] eqn:Hc; cbn [bind] in H;
      try discriminate H.
    apply IH in H. destruct H as (Hflag & Hall).
    destruct (check_sound p x c flag Hc Hflag) as (-> & Hx & ->).
    split; [reflexivity |]. intros k Hk.
    destruct (Z.eq_dec k i) as [-> | Hne].
    + exists x. repeat split; assumption.
    + apply Hall. lia.
Qed.

(** X8. [isValid] returns [True] exactly when every stored parity bit it
    checks equals the odd parity of its field: master address, slave
    address, control, data length, and every data byte below the stored
    data length. *)
Theorem isValid_true_iff :
  forall m : IEBusMessage.t,
    IEBusMessage.isValid m = Ret true
    <-> exists xm xs xc n : Z,
        parity_consistent (IEBusMessage.message_bytes m)
                          IEBusMessage.MasterAddress IEBusMessage.MasterAddress_P xm
        /\ parity_consistent (IEBusMessage.message_bytes m)
                             IEBusMessage.SlaveAddress IEBusMessage.SlaveAddress_P xs
        /\ parity_consistent (IEBusMessage.message_bytes m)
                             IEBusMessage.Control IEBusMessage.Control_P xc
        /\ parity_consistent (IEBusMessage.message_bytes m)
                             IEBusMessage.DataLength IEBusMessage.DataLength_P n
        /\ forall k : Z,
            0 <= k < n ->
            exists x : Z,
              parity_consistent (IEBusMessage.message_bytes m)
                                (IEBusMessage.Data k) (IEBusMessage.Data_P k) x.
Proof.
  intros [buf fields]. cbn [IEBusMessage.message_bytes]. split.
  - intros H. unfold IEBusMessage.isValid in H. cbn [IEBusMessage.message_bytes] in H.
    destruct (IEBusMessage.getField buf IEBusMessage.MasterAddress_P) as [pm | |] eqn:HMP;
      cbn [bind] in H; try discriminate H.
    destruct (IEBusMessage.getField buf IEBusMessage.MasterAddress) as [xm | |] eqn:HM;
      cbn [bind] in H; try discriminate H.
    destruct (calculateParity xm) as [cm | |] eqn:Hcm; cbn [bind] in H;
      try discriminate H.
    destruct (IEBusMessage.getField buf IEBusMessage.SlaveAddress_P) as [ps | |] eqn:HSP;
      cbn [bind] in H; try discriminate H.
    destruct (IEBusMessage.getField buf IEBusMessage.SlaveAddress) as [xs | |] eqn:HS;
      cbn [bind] in H; try discriminate H.
    destruct (calculateParity xs) as [cs | |] eqn:Hcs; cbn [bind] in H;
      try discriminate H.
    destruct (IEBusMessage.getField buf IEBusMessage.Control_P) as [pc | |] eqn:HCP;
      cbn [bind] in H; try discriminate H.
    destruct (IEBusMessage.getField buf IEBusMessage.Control) as [xc | |] eqn:HC;
      cbn [bind] in H; try discriminate H.
    destruct (calculateParity xc) as [cc | |] eqn:Hcc; cbn [bind] in H;
      try discriminate H.
    destruct (IEBusMessage.getField buf IEBusMessage.DataLength) as [n | |] eqn:HL;
      cbn [bind] in H; try discriminate H.
    destruct (IEBusMessage.getField buf IEBusMessage.DataLength_P) as [pl | |] eqn:HLP;
      cbn [bind] in H; try discriminate H.
    destruct (calculateParity n) as [cl | |] eqn:Hcl; cbn [bind] in H;
      try discriminate H.
    apply isValid_data_sound in H. destruct H as (Hflag & Hall).
    destruct (check_sound pl n cl _ Hcl Hflag) as (Hflag3 & Hn & ->).
    destruct (check_sound pc xc cc _ Hcc Hflag3) as (Hflag2 & Hxc & ->).
    destruct (check_sound ps xs cs _ Hcs Hflag2) as (Hflag1 & Hxs & ->).
    destruct (check_sound pm xm cm _ Hcm Hflag1) as (_ & Hxm & ->).
    exists xm, xs, xc, n. repeat split; try assumption.
    intros k Hk. apply Hall. lia.
  - intros (xm & xs & xc & n & HM & HS & HC & HL & HD).
    change (IEBusMessage.isValid (IEBusMessage.mkMessage buf fields))
      with (IEBusMessage.isValid (IEBusMessage.mkMessage buf None)).
    apply (isValid_consistent buf xm xs xc n); assumption.
Qed.

Lemma getField_returns (buf : list Z) (f : IEBusMessageField) :
  wf_bytes buf -> List.length buf = 68%nat ->
  0 <= BitOffset f <= 519 -> 0 <= LengthBits f <= 12 ->
  exists x : Z, IEBusMessage.getField buf f = Ret x /\ 0 <= x < 2 ^ LengthBits f.
Proof.
  intros Hwf Hlen Hoff Hw.
  destruct (getField_spec buf f Hwf (admissible_68 buf f Hlen Hoff Hw))
    as (x & Hx & Hr & _).
  exists x. split; assumption.
Qed.

Lemma getField_beyond_68 (buf : list Z) (f : IEBusMessageField) :
  List.length buf = 68%nat -> 520 <= BitOffset f -> 0 <= LengthBits f ->
  IEBusMessage.getField buf f = Raise (struct_error buffer_too_small).
Proof.
  intros Hlen Hoff Hw. apply getField_out_of_bounds; try lia.
  unfold Py.len. rewrite Hlen. Z.div_mod_to_equations. lia.
Qed.

Lemma isValid_data_returns (buf : list Z) (n : nat) :
  forall (i : Z) (flag : bool),
    wf_bytes buf -> List.length buf = 68%nat ->
    0 <= i -> i + Z.of_nat n <= 47 ->
    exists b : bool, IEBusMessage.isValid_data buf i n flag = Ret b.
Proof.
  induction n as [| n IH]; intros i flag Hwf Hlen Hi Hfit.
  - exists flag. reflexivity.
  - cbn [IEBusMessage.isValid_data].
    destruct (getField_returns buf (IEBusMessage.Data_P i) Hwf Hlen)
      as (p & -> & _); try data_geometry.
    destruct (getField_returns buf (IEBusMessage.Data i) Hwf Hlen)
      as (x & -> & Hx); try data_geometry.
    cbn [bind]. rewrite calculateParity_nonneg by lia. cbn [bind].
    apply IH; try assumption; lia.
Qed.

Lemma isValid_data_raises (buf : list Z) (n : nat) :
  forall (i : Z) (flag : bool),
    wf_bytes buf -> List.length buf = 68%nat ->
    0 <= i <= 47 -> 47 < i + Z.of_nat n ->
    IEBusMessage.isValid_data buf i n flag = Raise (struct_error buffer_too_small).
Proof.
  induction n as [| n IH]; intros i flag Hwf Hlen Hi Hover; [lia |].
  cbn [IEBusMessage.isValid_data].
  destruct (Z.eq_dec i 47) as [-> | Hne].
  - rewrite getField_beyond_68; [reflexivity | exact Hlen | cbn; lia | cbn; lia].
  - destruct (getField_returns buf (IEBusMessage.Data_P i) Hwf Hlen)
      as (p & -> & _); try data_geometry.
    destruct (getField_returns buf (IEBusMessage.Data i) Hwf Hlen)
      as (x & -> & Hx); try data_geometry.
    cbn [bind]. rewrite calculateParity_nonneg by lia. cbn [bind].
    apply IH; try assumption; lia.
Qed.

(** The header checks of [isValid] on a well-formed 68-byte buffer all
    return; what remains is the data loop. *)
Lemma isValid_header (buf : list Z) (fields : option IEBusMessage.unpacked) :
  wf_bytes buf -> List.length buf = 68%nat ->
  exists (n : Z) (flag : bool),
    IEBusMessage.getField buf IEBusMessage.DataLength = Ret n
    /\ 0 <= n < 256
    /\ IEBusMessage.isValid (IEBusMessage.mkMessage buf fields)
       = IEBusMessage.isValid_data buf 0 (Z.to_nat n) flag.
Proof.
  intros Hwf Hlen. unfold IEBusMessage.isValid. cbn [IEBusMessage.message_bytes].
  destruct (getField_returns buf IEBusMessage.MasterAddress_P Hwf Hlen)
    as (pm & -> & _); try (cbn; lia).
  destruct (getField_returns buf IEBusMessage.MasterAddress Hwf Hlen)
    as (xm & -> & Hxm); try (cbn; lia).
  cbn [bind]. rewrite calculateParity_nonneg by lia. cbn [bind].
  destruct (getField_returns buf IEBusMessage.SlaveAddress_P Hwf Hlen)
    as (ps & -> & _); try (cbn; lia).
  destruct (getField_returns buf IEBusMessage.SlaveAddress Hwf Hlen)
    as (xs & -> & Hxs); try (cbn; lia).
  cbn [bind]. rewrite calculateParity_nonneg by lia. cbn [bind].
  destruct (getField_returns buf IEBusMessage.Control_P Hwf Hlen)
    as (pc & -> & _); try (cbn; lia).
  destruct (getField_returns buf IEBusMessage.Control Hwf Hlen)
    as (xc & -> & Hxc); try (cbn; lia).
  cbn [bind]. rewrite calculateParity_nonneg by lia. cbn [bind].
  destruct (getField_returns buf IEBusMessage.DataLength Hwf Hlen)
    as (n & HL & Hn); try (cbn; lia).
  rewrite HL.
  destruct (getField_returns buf IEBusMessage.DataLength_P Hwf Hlen)
    as (pl & -> & _); try (cbn; lia).
  cbn [bind]. rewrite calculateParity_nonneg by lia. cbn [bind].
  exists n. eexists. split; [reflexivity |]. split; [exact Hn | reflexivity].
Qed.

(** X9. On a well-formed 68-byte buffer [isValid] returns a Boolean, without
    raising, when the stored data length is at most 47; when it is 48 or
    more the data loop reads the parity bit of data byte 47, beyond the
    buffer, and [isValid] raises [struct.error]. *)
Theorem isValid_returns_or_raises :
  forall m : IEBusMessage.t,
    wf_bytes (IEBusMessage.message_bytes m) ->
    Py.len (IEBusMessage.message_bytes m) = 68 ->
    exists n : Z,
      IEBusMessage.getField (IEBusMessage.message_bytes m) IEBusMessage.DataLength
      = Ret n
      /\ (n <= 47 -> exists b : bool, IEBusMessage.isValid m = Ret b)
      /\ (48 <= n ->
          IEBusMessage.isValid m = Raise (struct_error buffer_too_small)).
Proof.
  intros [buf fields] Hwf Hlen. cbn [IEBusMessage.message_bytes] in *.
  assert (List.length buf = 68%nat) as Hlen' by (unfold Py.len in Hlen; lia).
  destruct (isValid_header buf fields Hwf Hlen') as (n & flag & HL & Hn & ->).
  exists n. split; [exact HL |]. split.
  - intros Hle. apply isValid_data_returns; try assumption; lia.
  - intros Hge. apply isValid_data_raises; try assumption; lia.
Qed.

Lemma isValid_returns_or_raises_witness :
  exists n : Z,
    IEBusMessage.getField (Py.replicate 255 68) IEBusMessage.DataLength = Ret n
    /\ (n <= 47 ->
        exists b : bool,
          IEBusMessage.isValid (IEBusMessage.mkMessage (Py.replicate 255 68) None)
          = Ret b)
    /\ (48 <= n ->
        IEBusMessage.isValid (IEBusMessage.mkMessage (Py.replicate 255 68) None)
        = Raise (struct_error buffer_too_small)).
Proof.
  apply (isValid_returns_or_raises
           (IEBusMessage.mkMessage (Py.replicate 255 68) None)).
  - apply Forall_forall. intros x Hx. apply repeat_spec in Hx. lia.
  - vm_compute. reflexivity.
Defined.

(** ** Decoding raw bytes *)

Lemma getDataFrom_returns (buf : list Z) (n : nat) :
  forall i : Z,
    wf_bytes buf -> List.length buf = 68%nat ->
    0 <= i -> i + Z.of_nat n <= 48 ->
    exists l : list Z,
      IEBusMessage.getDataFrom buf i n = Ret l /\ List.length l = n.
Proof.
  induction n as [| n IH]; intros i Hwf Hlen Hi Hfit.
  - exists []. split; reflexivity.
  - cbn [IEBusMessage.getDataFrom].
    destruct (getField_returns buf (IEBusMessage.Data i) Hwf Hlen)
      as (x & -> & _); try data_geometry.
    cbn [bind]. destruct (IH (i + 1) Hwf Hlen) as (l & -> & Hl); try lia.
    exists (x :: l). split; [reflexivity | cbn; lia].
Qed.

Lemma getDataFrom_raises (buf : list Z) (n : nat) :
  forall i : Z,
    wf_bytes buf -> List.length buf = 68%nat ->
    0 <= i <= 48 -> 48 < i + Z.of_nat n ->
    IEBusMessage.getDataFrom buf i n = Raise (struct_error buffer_too_small).
Proof.
  induction n as [| n IH]; intros i Hwf Hlen Hi Hover; [lia |].
  cbn [IEBusMessage.getDataFrom].
  destruct (Z.eq_dec i 48) as [-> | Hne].
  - rewrite getField_beyond_68; [reflexivity | exact Hlen | cbn; lia | cbn; lia].
  - destruct (getField_returns buf (IEBusMessage.Data i) Hwf Hlen)
      as (x & -> & _); try data_geometry.
    cbn [bind]. rewrite IH; try assumption; try lia. reflexivity.
Qed.

Lemma ljust_68 (bytes : list Z) :
  wf_bytes bytes -> Py.len bytes <= 68 ->
  wf_bytes (IEBusMessage.ljust bytes 68)
  /\ List.length (IEBusMessage.ljust bytes 68) = 68%nat.
Proof.
  intros Hwf Hlen. unfold IEBusMessage.ljust, Py.len in *. split.
  - apply Forall_app. split; [exact Hwf |].
    apply Forall_forall. intros x Hx. apply repeat_spec in Hx. lia.
  - rewrite length_app. unfold Py.replicate. rewrite repeat_length. lia.
Qed.

(** X10. Decoding non-empty raw bytes (at most 68) pads them to the 68-byte
    buffer and returns a message, with its unpacked fields, whenever the
    stored data length is at most 47, whatever the parity bits are: a parity
    mismatch does not stop construction. With a stored data length of 48 or
    more, decoding raises [struct.error] (access beyond the buffer). *)
Theorem decode_returns_iff :
  forall bytes : list Z,
    bytes <> [] ->
    wf_bytes bytes ->
    Py.len bytes <= 68 ->
    exists n : Z,
      IEBusMessage.getField (IEBusMessage.ljust bytes 68) IEBusMessage.DataLength
      = Ret n
      /\ (n <= 47 ->
          exists u : IEBusMessage.unpacked,
            IEBusMessage.__init__ (Some bytes) None None None None None None
            = Ret (IEBusMessage.mkMessage (IEBusMessage.ljust bytes 68) (Some u))
            /\ IEBusMessage.data_len u = n)
      /\ (48 <= n ->
          IEBusMessage.__init__ (Some bytes) None None None None None None
          = Raise (struct_error buffer_too_small)).
Proof.
  intros bytes Hne Hwfb Hlenb.
  destruct bytes as [| b0 bs]; [contradiction |].
  set (bytes := b0 :: bs) in *.
  destruct (ljust_68 bytes Hwfb Hlenb) as (Hwf & Hlen).
  cbn [IEBusMessage.__init__]. fold bytes.
  change (IEBusMessage.MaxMessageLenBytes + 4) with 68.
  set (buf := IEBusMessage.ljust bytes 68) in *.
  destruct (getField_returns buf IEBusMessage.DataLength Hwf Hlen)
    as (n & HL & Hn); try (cbn; lia).
  exists n. split; [exact HL |].
  unfold IEBusMessage.unpackFields.
  destruct (getField_returns buf IEBusMessage.Broadcast Hwf Hlen)
    as (vb & -> & _); try (cbn; lia).
  destruct (getField_returns buf IEBusMessage.MasterAddress Hwf Hlen)
    as (vm & -> & _); try (cbn; lia).
  destruct (getField_returns buf IEBusMessage.SlaveAddress Hwf Hlen)
    as (vs & -> & _); try (cbn; lia).
  rewrite HL. cbn [bind]. split.
  - intros Hle.
    destruct (getDataFrom_returns buf (Z.to_nat n) 0 Hwf Hlen) as (l & -> & _);
      try lia.
    cbn [bind].
    match goal with
    | |- context [IEBusMessage.mkMessage buf (Some ?u)] => set (unpacked := u)
    end.
    destruct (isValid_header buf (Some unpacked) Hwf Hlen)
      as (n' & flag & HL' & _ & ->).
    rewrite HL in HL'. injection HL' as <-.
    destruct (isValid_data_returns buf (Z.to_nat n) 0 flag Hwf Hlen)
      as (bv & ->); try lia.
    cbn [bind]. exists unpacked. split; reflexivity.
  - intros Hge. destruct (Z.eq_dec n 48) as [-> | Hne48].
    + destruct (getDataFrom_returns buf (Z.to_nat 48) 0 Hwf Hlen) as (l & -> & _);
        try lia.
      cbn [bind].
      match goal with
      | |- context [IEBusMessage.mkMessage buf (Some ?u)] => set (unpacked := u)
      end.
      destruct (isValid_header buf (Some unpacked) Hwf Hlen)
        as (n' & flag & HL' & _ & ->).
      rewrite HL in HL'. injection HL' as <-.
      rewrite isValid_data_raises; try assumption; try lia. reflexivity.
    + rewrite getDataFrom_raises; try assumption; try lia. reflexivity.
Qed.

Lemma decode_returns_iff_witness :
  exists n : Z,
    IEBusMessage.getField (IEBusMessage.ljust [140; 133; 16; 31; 200; 0] 68)
                          IEBusMessage.DataLength = Ret n
    /\ (n <= 47 ->
        exists u : IEBusMessage.unpacked,
          IEBusMessage.__init__ (Some [140; 133; 16; 31; 200; 0])
                                None None None None None None
          = Ret (IEBusMessage.mkMessage
                   (IEBusMessage.ljust [140; 133; 16; 31; 200; 0] 68) (Some u))
          /\ IEBusMessage.data_len u = n)
    /\ (48 <= n ->
        IEBusMessage.__init__ (Some [140; 133; 16; 31; 200; 0])
                              None None None None None None
        = Raise (struct_error buffer_too_small)).
Proof.
  apply (decode_returns_iff [140; 133; 16; 31; 200; 0]).
  - discriminate.
  - repeat (apply Forall_cons; [lia |]). apply Forall_nil.
  - vm_compute. discriminate.
Defined.

Ltac header_geometry :=
  cbn [BitOffset LengthBits IEBusMessage.Broadcast IEBusMessage.MasterAddress
       IEBusMessage.MasterAddress_P IEBusMessage.SlaveAddress
       IEBusMessage.SlaveAddress_P IEBusMessage.SlaveAddress_A
       IEBusMessage.Control IEBusMessage.Control_P IEBusMessage.Control_A
       IEBusMessage.DataLength IEBusMessage.DataLength_P
       IEBusMessage.DataLength_A];
  lia.

Lemma holds_fields_agree (buf buf' : list Z) (vb vm vs vc : Z) (d : list Z) :
  holds_fields buf vb vm vs vc d ->
  wf_bytes buf' -> List.length buf' = 68%nat ->
  agree_below buf buf' (44 + 10 * Py.len d) ->
  holds_fields buf' vb vm vs vc d.
Proof.
  intros (Hwf & Hlen & HB & HM & HS & HC & HL & Hn & HD) Hwf' Hlen' Hag.
  pose proof (Zle_0_nat (List.length d)) as Hnn. fold (Py.len d) in Hnn.
  unfold holds_fields. split; [exact Hwf' |]. split; [exact Hlen' |].
  split.
  { rewrite <- HB.
    apply (getField_agree_below buf buf' _ (44 + 10 * Py.len d)); try assumption;
      try header_geometry.
    apply admissible_68; try assumption; header_geometry. }
  split.
  { apply (parity_consistent_agree buf buf' _ _ _ (44 + 10 * Py.len d));
      try assumption; header_geometry. }
  split.
  { apply (parity_consistent_agree buf buf' _ _ _ (44 + 10 * Py.len d));
      try assumption; header_geometry. }
  split.
  { apply (parity_consistent_agree buf buf' _ _ _ (44 + 10 * Py.len d));
      try assumption; header_geometry. }
  split.
  { apply (parity_consistent_agree buf buf' _ _ _ (44 + 10 * Py.len d));
      try assumption; header_geometry. }
  split; [exact Hn |].
  intros k Hk.
  apply (parity_consistent_agree buf buf' _ _ _ (44 + 10 * Py.len d));
    try assumption; try (unfold Py.len in *; data_geometry).
  apply (HD k Hk).
Qed.

Lemma isValid_of_holds (buf : list Z) (fields : option IEBusMessage.unpacked)
      (vb vm vs vc : Z) (d : list Z) :
  holds_fields buf vb vm vs vc d ->
  IEBusMessage.isValid (IEBusMessage.mkMessage buf fields) = Ret true.
Proof.
  intros (Hwf & Hlen & HB & HM & HS & HC & HL & Hn & HD).
  change (IEBusMessage.isValid (IEBusMessage.mkMessage buf fields))
    with (IEBusMessage.isValid (IEBusMessage.mkMessage buf None)).
  apply (isValid_consistent buf vm vs vc (Py.len d)); try assumption.
  intros k Hk. exists (List.nth (Z.to_nat k) d 0).
  specialize (HD (Z.to_nat k)). rewrite Z2Nat.id in HD by lia.
  apply HD. unfold Py.len in Hk. lia.
Qed.

Lemma device_ids (l : list Z) :
  (if 0 <? Py.len l then IEBusMessage.nth_or_zero l 0 else 0) = List.nth 0 l 0
  /\ (if 1 <? Py.len l then IEBusMessage.nth_or_zero l 1 else 0) = List.nth 1 l 0.
Proof.
  unfold IEBusMessage.nth_or_zero, Py.len.
  destruct l as [| a [| b l]]; cbn [List.length List.nth]; split;
    match goal with
    | |- (if ?x <? ?y then _ else _) = _ => destruct (Z.ltb_spec x y)
    end; try reflexivity; lia.
Qed.

(** Decoding bytes whose padded buffer holds parity-consistent fields. *)
Lemma decode_of_holds (bytes : list Z) (vb vm vs vc : Z) (d : list Z) :
  bytes <> [] ->
  holds_fields (IEBusMessage.ljust bytes 68) vb vm vs vc d ->
  exists u : IEBusMessage.unpacked,
    IEBusMessage.__init__ (Some bytes) None None None None None None
    = Ret (IEBusMessage.mkMessage (IEBusMessage.ljust bytes 68) (Some u))
    /\ IEBusMessage.broadcast u = vb
    /\ IEBusMessage.master_address u = vm
    /\ IEBusMessage.slave_address u = vs
    /\ IEBusMessage.data_len u = Py.len d
    /\ IEBusMessage.data u
       = (if vb =? IEBusMessage.UNICAST then List.tl d else d)
    /\ IEBusMessage.src_device u = List.nth 0 (IEBusMessage.data u) 0
    /\ IEBusMessage.dst_device u = List.nth 1 (IEBusMessage.data u) 0.
Proof.
  intros Hne Hholds.
  destruct bytes as [| b0 bs]; [contradiction |].
  set (bytes := b0 :: bs) in *.
  cbn [IEBusMessage.__init__]. fold bytes.
  change (IEBusMessage.MaxMessageLenBytes + 4) with 68.
  set (buf := IEBusMessage.ljust bytes 68) in *.
  pose proof (isValid_of_holds buf) as Hvalid.
  pose proof Hholds as (Hwf & Hlen & HB & (_ & HM & _) & (_ & HS & _) & _
                        & (_ & HL & _) & Hn & HD).
  unfold IEBusMessage.unpackFields. rewrite HB, HM, HS, HL. cbn [bind].
  unfold Py.len at 1. rewrite Nat2Z.id.
  rewrite (getDataFrom_values buf d 0) by (intros k Hk; apply (HD k Hk)).
  cbn [bind]. rewrite (Hvalid _ vb vm vs vc d Hholds). cbn [bind].
  eexists. split; [reflexivity |].
  cbn [IEBusMessage.broadcast IEBusMessage.master_address IEBusMessage.slave_address
       IEBusMessage.data_len IEBusMessage.data IEBusMessage.src_device
       IEBusMessage.dst_device].
  assert (Py.slice_from d 1 = List.tl d) as ->
      by (unfold Py.slice_from; destruct d; reflexivity).
  repeat split; apply device_ids.
Qed.

Lemma agree_below_mono (a b : list Z) (n m : Z) :
  agree_below a b n -> m <= n -> agree_below a b m.
Proof.
  intros Hab Hmn i Hi. apply Hab. lia.
Qed.

Lemma firstn_agree_below (buf : list Z) (nb : nat) (pad : list Z) :
  agree_below buf (firstn nb buf ++ pad) (8 * Z.of_nat (Nat.min nb (List.length buf))).
Proof.
  intros i Hi. unfold buffer_bit. f_equal.
  assert (Z.to_nat (i / 8) < Nat.min nb (List.length buf))%nat as Hidx
      by (Z.div_mod_to_equations; lia).
  rewrite app_nth1 by (rewrite length_firstn; exact Hidx).
  rewrite nth_firstn. destruct (Nat.ltb_spec (Z.to_nat (i / 8)) nb); [reflexivity | lia].
Qed.

(** X11. Encode-decode round trip: for in-range constructor arguments with
    at most 47 data bytes, [getAsBytes] returns the first
    [ceil((44 + 10 * n) / 8)] bytes of the buffer, and decoding these bytes
    returns a message that passes [isValid] and whose unpacked broadcast
    flag, addresses and data length are the arguments; its data are the
    data bytes, without the first one when the message is UNICAST, and the
    source and destination devices are the first two of these (0 when
    absent). *)
Theorem encode_decode_round_trip :
  forall (b ma sl c : option Z) (data : option (list Z)),
    in_range b 1 -> in_range ma 12 -> in_range sl 12 -> in_range c 4 ->
    (forall d, data = Some d ->
               Forall (fun x => 0 <= x < 256) d /\ Py.len d <= 47) ->
    exists (m m' : IEBusMessage.t) (bytes : list Z) (u : IEBusMessage.unpacked),
      let d := match data with Some d => d | None => [] end in
      IEBusMessage.__init__ None None b ma sl c data = Ret m
      /\ IEBusMessage.getAsBytes m = Ret bytes
      /\ Py.len bytes = (44 + 10 * Py.len d + 7) / 8
      /\ IEBusMessage.__init__ (Some bytes) None None None None None None = Ret m'
      /\ IEBusMessage.fields m' = Some u
      /\ IEBusMessage.isValid m' = Ret true
      /\ IEBusMessage.getAsBytes m' = Ret bytes
      /\ IEBusMessage.broadcast u = arg_value b
      /\ IEBusMessage.master_address u = arg_value ma
      /\ IEBusMessage.slave_address u = arg_value sl
      /\ IEBusMessage.data_len u = Py.len d
      /\ IEBusMessage.data u
         = (if arg_value b =? IEBusMessage.UNICAST then List.tl d else d)
      /\ IEBusMessage.src_device u = List.nth 0 (IEBusMessage.data u) 0
      /\ IEBusMessage.dst_device u = List.nth 1 (IEBusMessage.data u) 0.
Proof.
  intros b ma sl c data Hb Hma Hsl Hc Hdata.
  destruct (init_fields_holds b ma sl c data Hb Hma Hsl Hc Hdata)
    as (buf & Hinit & Hholds & _).
  set (d := match data with Some d => d | None => [] end) in *.
  pose proof (Zle_0_nat (List.length d)) as Hnn. fold (Py.len d) in Hnn.
  pose proof Hholds as (Hwf & Hlen & _ & _ & _ & _ & (_ & HL & _) & Hn & _).
  set (nb := Z.to_nat ((44 + 10 * Py.len d - 1) / 8 + 1)).
  assert (6 <= nb <= 65)%nat as Hnb
      by (unfold nb; Z.div_mod_to_equations; lia).
  assert (forall (bb : list Z) (ff : option IEBusMessage.unpacked),
             IEBusMessage.getField bb IEBusMessage.DataLength = Ret (Py.len d) ->
             IEBusMessage.getAsBytes (IEBusMessage.mkMessage bb ff)
             = Ret (firstn nb bb)) as HgetAs.
  { intros bb ff Hbb. unfold IEBusMessage.getAsBytes, IEBusMessage.getLengthInBits.
    cbn [IEBusMessage.message_bytes]. rewrite Hbb. cbn [bind].
    unfold Py.slice_to, Py.int_div.
    change (BitOffset (IEBusMessage.Data 0)) with 44.
    unfold IEBusMessage.DataFieldLength.
    rewrite Z.quot_div_nonneg by lia.
    destruct (Z.ltb_spec ((44 + 10 * Py.len d - 1) / 8 + 1) 0);
      [Z.div_mod_to_equations; lia | reflexivity]. }
  set (bytes := firstn nb buf).
  assert (List.length bytes = nb) as Hlb
      by (unfold bytes; rewrite length_firstn; lia).
  assert (bytes <> []) as Hne.
  { intros Hnil. rewrite Hnil in Hlb. cbn in Hlb. lia. }
  assert (wf_bytes bytes) as Hwfb by (apply wf_firstn, Hwf).
  destruct (ljust_68 bytes Hwfb) as (Hwf' & Hlen'); [unfold Py.len; lia |].
  assert (holds_fields (IEBusMessage.ljust bytes 68)
                       (arg_value b) (arg_value ma) (arg_value sl) (arg_value c) d)
    as Hholds'.
  { apply (holds_fields_agree buf); try assumption.
    eapply agree_below_mono;
      [apply (firstn_agree_below buf nb (Py.replicate 32 (68 - Py.len bytes))) |].
    unfold nb. Z.div_mod_to_equations. lia. }
  destruct (decode_of_holds bytes _ _ _ _ d Hne Hholds')
    as (u & Hdec & Hu1 & Hu2 & Hu3 & Hu4 & Hu5 & Hu6 & Hu7).
  exists (IEBusMessage.mkMessage buf None),
    (IEBusMessage.mkMessage (IEBusMessage.ljust bytes 68) (Some u)), bytes, u.
  cbv zeta. split; [exact Hinit |].
  split; [apply HgetAs, HL |].
  split; [unfold Py.len at 1; rewrite Hlb; unfold nb;
          Z.div_mod_to_equations; lia |].
  split; [exact Hdec |]. split; [reflexivity |].
  split; [apply (isValid_of_holds _ _ _ _ _ _ d Hholds') |].
  split.
  { rewrite HgetAs by apply Hholds'.
    unfold IEBusMessage.ljust. rewrite firstn_app.
    replace (nb - List.length bytes)%nat with 0%nat by lia.
    cbn [firstn]. rewrite app_nil_r, <- Hlb. f_equal. apply firstn_all. }
  repeat split; assumption.
Qed.

Lemma encode_decode_round_trip_witness :
  exists (m m' : IEBusMessage.t) (bytes : list Z) (u : IEBusMessage.unpacked),
    IEBusMessage.__init__ None None (Some 1) (Some 0x190) (Some 0x440) (Some 0xF)
                          (Some [0x00; 0x25; 0x74]) = Ret m
    /\ IEBusMessage.getAsBytes m = Ret bytes
    /\ IEBusMessage.__init__ (Some bytes) None None None None None None = Ret m'
    /\ IEBusMessage.fields m' = Some u
    /\ IEBusMessage.data u = [0x25; 0x74].
Proof.
  destruct (encode_decode_round_trip
              (Some 1) (Some 0x190) (Some 0x440) (Some 0xF) (Some [0x00; 0x25; 0x74]))
    as (m & m' & bytes & u & Hm & Hb & _ & Hm' & Hu & _ & _ & _ & _ & _ & _ & Hd & _).
  - intros v [= <-]. lia.
  - intros v [= <-]. lia.
  - intros v [= <-]. lia.
  - intros v [= <-]. lia.
  - intros d [= <-]. split; [| vm_compute; discriminate].
    repeat (apply Forall_cons; [lia |]). apply Forall_nil.
  - exists m, m', bytes, u. repeat split; assumption.
Defined.

(** ** Malformed token strings *)

Lemma parse_data_fails (parts : list string) (t : string) :
  In t parts -> PyStr.int t 16 = Raise ValueError ->
  IEBusMessage.parse_data parts = Raise ValueError.
Proof.
  induction parts as [| dStr rest IH]; intros Hin Hbad; [contradiction |].
  cbn [IEBusMessage.parse_data].
  destruct (int_outcome dStr 16) as [(v & Hv) | Hv]; rewrite Hv; [| reflexivity].
  cbn [bind]. destruct Hin as [-> | Hin].
  - rewrite Hbad in Hv. discriminate Hv.
  - rewrite (IH Hin Hbad). reflexivity.
Qed.

(** X12. Malformed token strings never build a message. A non-empty string
    with fewer than two tokens raises [IndexError]; with exactly two tokens
    it raises [IndexError], or [ValueError] when the second is not
    hexadecimal; with three or more tokens, a token after the first that
    [int(.., 16)] rejects raises [ValueError]. The empty string is ignored:
    the call builds the all-zero message of the other (absent) arguments. *)
Theorem malformed_token_strings :
  forall message_string : string,
    message_string <> ""%string ->
    let parts := PyStr.split (PyStr.remove_char ":"%char message_string) in
    let built :=
      IEBusMessage.__init__ None (Some message_string) None None None None None in
    ((List.length parts < 2)%nat -> built = Raise IndexError)
    /\ (List.length parts = 2%nat ->
        built = Raise IndexError \/ built = Raise ValueError)
    /\ ((3 <= List.length parts)%nat ->
        (exists k : nat,
            (1 <= k < List.length parts)%nat
            /\ PyStr.int (List.nth k parts ""%string) 16 = Raise ValueError) ->
        built = Raise ValueError)
    /\ IEBusMessage.__init__ None (Some ""%string) None None None None None
       = Ret (IEBusMessage.mkMessage (Py.replicate 0 68) None).
Proof.
  intros message_string Hne parts built.
  destruct message_string as [| ch rest]; [contradiction |].
  subst built. cbn [IEBusMessage.__init__]. fold parts.
  split; [| split; [| split; [| reflexivity]]].
  - intros Hlen. destruct parts as [| p0 [| p1 ps]]; cbn in Hlen; try lia;
      reflexivity.
  - intros Hlen. destruct parts as [| p0 [| p1 [| p2 ps]]]; cbn in Hlen; try lia.
    cbn [IEBusMessage.part nth_error bind].
    destruct (int_outcome p1 16) as [(v & ->) | ->]; [left | right]; reflexivity.
  - intros Hlen (k & Hk & Hbad).
    destruct parts as [| p0 [| p1 [| p2 ps]]]; cbn in Hlen; try lia.
    cbn [IEBusMessage.part nth_error bind skipn].
    destruct (int_outcome p1 16) as [(v1 & Hv1) | Hv1]; rewrite Hv1; [| reflexivity].
    cbn [bind].
    destruct (int_outcome p2 16) as [(v2 & Hv2) | Hv2]; rewrite Hv2; [| reflexivity].
    cbn [bind].
    destruct k as [| [| [| k]]]; cbn [List.nth] in Hbad; try lia.
    + rewrite Hbad in Hv1. discriminate Hv1.
    + rewrite Hbad in Hv2. discriminate Hv2.
    + rewrite (parse_data_fails ps (List.nth k ps ""%string)); [reflexivity | | exact Hbad].
      apply nth_In. cbn [List.length] in Hk. lia.
Qed.

Lemma malformed_token_strings_witness :
  IEBusMessage.__init__ None (Some "- 190 44g f"%string) None None None None None
  = Raise ValueError.
Proof.
  apply (proj1 (proj2 (proj2 (malformed_token_strings "- 190 44g f"%string
                                                       ltac:(discriminate))))).
  - vm_compute. lia.
  - exists 2%nat. split; [vm_compute; lia | vm_compute; reflexivity].
Defined.

(** ** Parity on negative integers *)

(** X13. On a negative integer the [while] loop of [calculateParity] never
    reaches [value == 0]: no number of iterations yields a result, and the
    call does not return. *)
Theorem calculateParity_negative_diverges :
  forall value : Z,
    value < 0 ->
    (forall (fuel : nat) (p : bool), calculateParity_loop fuel value p = None)
    /\ calculateParity value = Loop.
Proof.
  intros value Hneg. split.
  - intros fuel p. apply calculateParity_loop_negative. exact Hneg.
  - apply calculateParity_negative. exact Hneg.
Qed.

Lemma calculateParity_negative_diverges_witness :
  (forall (fuel : nat) (p : bool), calculateParity_loop fuel (-5) p = None)
  /\ calculateParity (-5) = Loop.
Proof.
  apply (calculateParity_negative_diverges (-5)). lia.
Defined.

(** ** The transmitted bits *)

Lemma app_inv_length {A : Type} :
  forall a b x y : list A,
    List.length a = List.length b -> a ++ x = b ++ y -> a = b /\ x = y.
Proof.
  induction a as [| u a IH]; intros [| v b] x y Hlen H; cbn in Hlen; try lia.
  - split; [reflexivity | exact H].
  - cbn [app] in H. injection H as -> H.
    destruct (IH b x y ltac:(lia) H) as (-> & ->). split; reflexivity.
Qed.

(** ['{:08b}'] writes the bits of a byte, most significant first. *)
Lemma format_08b_bits (b : Z) :
  0 <= b < 256 ->
  List.map (fun c => Ascii.eqb c "1"%char) (PyStr.format_chars true 8 2 b)
  = List.map (fun k => Z.testbit b (7 - Z.of_nat k)) (List.seq 0 8).
Proof.
  intros Hb.
  assert (List.forallb
            (fun n =>
               if list_eq_dec Bool.bool_dec
                    (List.map (fun c => Ascii.eqb c "1"%char)
                              (PyStr.format_chars true 8 2 (Z.of_nat n)))
                    (List.map (fun k => Z.testbit (Z.of_nat n) (7 - Z.of_nat k))
                              (List.seq 0 8))
               then true else false)
            (List.seq 0 256) = true) as Hall by (vm_compute; reflexivity).
  rewrite forallb_forall in Hall.
  specialize (Hall (Z.to_nat b)). rewrite Z2Nat.id in Hall by lia.
  destruct (list_eq_dec _ _ _) as [Heq | Hne]; [exact Heq |].
  discriminate Hall. apply in_seq. lia.
Qed.

Lemma buffer_bit_cons_low (b : Z) (bs : list Z) (i : Z) :
  0 <= i < 8 -> buffer_bit (b :: bs) i = Z.testbit b (7 - i).
Proof.
  intros Hi. unfold buffer_bit.
  rewrite Z.div_small, Z.mod_small by lia. reflexivity.
Qed.

Lemma buffer_bit_cons_high (b : Z) (bs : list Z) (i : Z) :
  0 <= i -> buffer_bit (b :: bs) (8 + i) = buffer_bit bs i.
Proof.
  intros Hi. unfold buffer_bit.
  replace (8 + i) with (i + 1 * 8) by lia.
  rewrite Z.div_add, Z.mod_add by lia.
  rewrite Z2Nat.inj_add by (try lia; apply Z.div_pos; lia).
  rewrite Nat.add_comm. reflexivity.
Qed.

Lemma nth_bytes_to_bits (bs : list Z) :
  wf_bytes bs ->
  forall i : nat,
    (i < 8 * List.length bs)%nat ->
    List.nth i (IEBusBitBang.bytes_to_bits bs) false = buffer_bit bs (Z.of_nat i).
Proof.
  induction 1 as [| b bs Hb Hbs IH]; intros i Hi; [cbn in Hi; lia |].
  rewrite bytes_to_bits_cons, format_08b_bits by exact Hb.
  destruct (Nat.lt_ge_cases i 8) as [Hlow | Hhigh].
  - rewrite app_nth1 by (rewrite length_map, length_seq; exact Hlow).
    rewrite buffer_bit_cons_low by lia.
    rewrite (nth_indep _ false (Z.testbit b (7 - Z.of_nat 0)))
      by (rewrite length_map, length_seq; exact Hlow).
    rewrite (map_nth (fun k => Z.testbit b (7 - Z.of_nat k)) (seq 0 8) 0%nat i).
    rewrite seq_nth by exact Hlow. reflexivity.
  - rewrite app_nth2 by (rewrite length_map, length_seq; exact Hhigh).
    rewrite length_map, length_seq.
    replace (Z.of_nat i) with (8 + Z.of_nat (i - 8)) by lia.
    rewrite buffer_bit_cons_high by lia. apply IH.
    cbn [List.length] in Hi. lia.
Qed.

Lemma buffer_bit_firstn (buf : list Z) (n : nat) (i : Z) :
  0 <= i < 8 * Z.of_nat n -> buffer_bit (firstn n buf) i = buffer_bit buf i.
Proof.
  intros Hi. unfold buffer_bit. rewrite nth_firstn.
  destruct (Nat.ltb_spec (Z.to_nat (i / 8)) n) as [_ | Hge]; [reflexivity |].
  exfalso. assert (Z.of_nat n <= i / 8) by lia. Z.div_mod_to_equations. lia.
Qed.

(** The bit list handed to the encoder: the buffer's bits in order. *)
Lemma firstn_bytes_to_bits (buf : list Z) (L : nat) (n : Z) :
  wf_bytes buf -> 0 <= n <= 8 * Z.of_nat L -> n <= 8 * Py.len buf ->
  firstn (Z.to_nat n) (IEBusBitBang.bytes_to_bits (firstn L buf))
  = logical_bits buf n.
Proof.
  intros Hwf Hn Hbuf. unfold logical_bits.
  assert (wf_bytes (firstn L buf)) as HwfL by (apply wf_firstn, Hwf).
  pose proof (len_bytes_to_bits _ HwfL) as Hlen. unfold Py.len in Hlen, Hbuf.
  rewrite length_firstn in Hlen.
  apply (nth_ext _ _ false false).
  - rewrite length_firstn, length_map, length_seq. lia.
  - intros i Hi. rewrite length_firstn in Hi.
    rewrite nth_firstn. destruct (Nat.ltb_spec i (Z.to_nat n)) as [Hlt | Hge]; [| lia].
    rewrite nth_bytes_to_bits by (try exact HwfL; rewrite length_firstn; lia).
    rewrite (nth_indep _ false (buffer_bit buf (Z.of_nat 0)))
      by (rewrite length_map, length_seq; exact Hlt).
    rewrite (map_nth (fun k => buffer_bit buf (Z.of_nat k)) (seq 0 (Z.to_nat n)) 0%nat i).
    rewrite seq_nth by exact Hlt. cbn [Nat.add].
    apply buffer_bit_firstn. lia.
Qed.

Lemma message_bits (buf : list Z) (fields : option IEBusMessage.unpacked) (d : Z) :
  wf_bytes buf -> 8 <= Py.len buf ->
  IEBusMessage.getField buf IEBusMessage.DataLength = Ret d -> 0 <= d ->
  IEBusBitBang.make_output_from_iebus_message (IEBusMessage.mkMessage buf fields)
  = Ret (IEBusBitBang.make_output_from_iebus_bits
           (logical_bits buf (Z.min (44 + 10 * d) (8 * Py.len buf)))).
Proof.
  intros Hwf Hlen Hget Hd.
  assert (IEBusMessage.getLengthInBits (IEBusMessage.mkMessage buf fields)
          = Ret (44 + 10 * d)) as HL.
  { unfold IEBusMessage.getLengthInBits. cbn [IEBusMessage.message_bytes].
    rewrite Hget. reflexivity. }
  unfold IEBusBitBang.make_output_from_iebus_message, IEBusMessage.getAsBytes.
  rewrite HL. cbn [bind IEBusMessage.message_bytes]. do 2 f_equal.
  unfold Py.slice_to, Py.int_div. rewrite Z.quot_div_nonneg by lia.
  destruct (Z.ltb_spec ((44 + 10 * d - 1) / 8 + 1) 0);
    [Z.div_mod_to_equations; lia |].
  destruct (Z.ltb_spec (44 + 10 * d) 0); [lia |].
  set (L := Z.to_nat ((44 + 10 * d - 1) / 8 + 1)).
  assert (44 + 10 * d <= 8 * Z.of_nat L) as HL8
      by (unfold L; Z.div_mod_to_equations; lia).
  destruct (Z.le_gt_cases (44 + 10 * d) (8 * Py.len buf)) as [Hin | Hout].
  - rewrite Z.min_l by exact Hin.
    apply firstn_bytes_to_bits; [exact Hwf | lia | exact Hin].
  - rewrite Z.min_r by lia.
    assert (List.length buf <= L)%nat as HLbuf
        by (unfold L, Py.len in *; Z.div_mod_to_equations; lia).
    rewrite <- (firstn_bytes_to_bits buf L (8 * Py.len buf) Hwf)
      by (unfold Py.len in *; lia).
    pose proof (len_bytes_to_bits _ (wf_firstn L buf Hwf)) as Hbits.
    unfold Py.len in Hbits. rewrite length_firstn in Hbits.
    set (bits := IEBusBitBang.bytes_to_bits (firstn L buf)) in *.
    rewrite (@firstn_all2 _ (Z.to_nat (44 + 10 * d)) bits)
      by (unfold Py.len in *; lia).
    rewrite (@firstn_all2 _ (Z.to_nat (8 * Py.len buf)) bits)
      by (unfold Py.len in *; lia).
    reflexivity.
Qed.

(** X14. The encoder transmits the message buffer bit by bit, most
    significant bit of byte 0 first: for a well-formed buffer holding its
    header, the line signal is the encoding of buffer bits 0 .. n-1, where
    n is [44 + 10 * DataLength], cut at the end of the buffer; the trailing
    bits of the last byte are not sent. *)
Theorem encoder_sends_buffer_bits :
  forall message : IEBusMessage.t,
    wf_bytes (IEBusMessage.message_bytes message) ->
    8 <= Py.len (IEBusMessage.message_bytes message) ->
    exists d : Z,
      IEBusMessage.getField (IEBusMessage.message_bytes message)
                            IEBusMessage.DataLength = Ret d
      /\ 0 <= d < 256
      /\ IEBusBitBang.make_output_from_iebus_message message
         = Ret (IEBusBitBang.make_output_from_iebus_bits
                  (logical_bits (IEBusMessage.message_bytes message)
                                (Z.min (44 + 10 * d)
                                       (8 * Py.len (IEBusMessage.message_bytes message)))))
      /\ forall i : nat,
          Z.of_nat i < Z.min (44 + 10 * d)
                             (8 * Py.len (IEBusMessage.message_bytes message)) ->
          List.nth i (logical_bits (IEBusMessage.message_bytes message)
                        (Z.min (44 + 10 * d)
                               (8 * Py.len (IEBusMessage.message_bytes message))))
                   false
          = Z.testbit (List.nth (i / 8) (IEBusMessage.message_bytes message) 0)
                      (7 - Z.of_nat (i mod 8)).
Proof.
  intros [buf fields] Hwf Hlen. cbn [IEBusMessage.message_bytes] in *.
  destruct (getField_DataLength buf Hwf Hlen) as (d & Hget & Hd).
  exists d. split; [exact Hget |]. split; [exact Hd |].
  split; [apply message_bits; try assumption; lia |].
  intros i Hi. unfold logical_bits.
  rewrite (nth_indep _ false (buffer_bit buf (Z.of_nat 0)))
    by (rewrite length_map, length_seq; lia).
  rewrite (map_nth (fun k => buffer_bit buf (Z.of_nat k)) _ 0%nat i).
  rewrite seq_nth by lia. cbn [Nat.add]. unfold buffer_bit.
  change 8 with (Z.of_nat 8).
  rewrite <- Nat2Z.inj_div, Nat2Z.id, <- Nat2Z.inj_mod. reflexivity.
Qed.

Lemma encoder_sends_buffer_bits_witness :
  exists d : Z,
    IEBusMessage.getField (Py.replicate 0 68) IEBusMessage.DataLength = Ret d
    /\ 0 <= d < 256
    /\ IEBusBitBang.make_output_from_iebus_message
         (IEBusMessage.mkMessage (Py.replicate 0 68) None)
       = Ret (IEBusBitBang.make_output_from_iebus_bits
                (logical_bits (Py.replicate 0 68)
                              (Z.min (44 + 10 * d) (8 * Py.len (Py.replicate 0 68)))))
    /\ forall i : nat,
        Z.of_nat i < Z.min (44 + 10 * d) (8 * Py.len (Py.replicate 0 68)) ->
        List.nth i (logical_bits (Py.replicate 0 68)
                      (Z.min (44 + 10 * d) (8 * Py.len (Py.replicate 0 68))))
                 false
        = Z.testbit (List.nth (i / 8) (Py.replicate 0 68) 0)
                    (7 - Z.of_nat (i mod 8)).
Proof.
  apply (encoder_sends_buffer_bits (IEBusMessage.mkMessage (Py.replicate 0 68) None)).
  - apply wf_zero.
  - vm_compute. discriminate.
Defined.

(** ** Shape of the line signal *)

Lemma fold_bits_concat (messageBits : list bool) :
  forall bitStr : list ascii,
    fold_left (fun bitStr bitVal => bitStr ++ IEBusBitBang.make_output_from_bit bitVal)
              messageBits bitStr
    = bitStr ++ List.concat (List.map IEBusBitBang.make_output_from_bit messageBits).
Proof.
  induction messageBits as [| b bits IH]; intros bitStr; cbn [fold_left map List.concat].
  - symmetry. apply app_nil_r.
  - rewrite IH. symmetry. apply app_assoc.
Qed.

Lemma make_output_from_bit_cell (bitVal : bool) :
  IEBusBitBang.make_output_from_bit bitVal
  = if bitVal then cell 20 21 else cell 33 8.
Proof.
  destruct bitVal; vm_compute; reflexivity.
Qed.

Lemma make_output_from_iebus_bits_shape (messageBits : list bool) :
  IEBusBitBang.make_output_from_iebus_bits messageBits
  = Py.replicate "0"%char 170 ++ Py.replicate "1"%char 20
    ++ List.concat (List.map IEBusBitBang.make_output_from_bit messageBits)
    ++ Py.replicate "1"%char 88.
Proof.
  unfold IEBusBitBang.make_output_from_iebus_bits. rewrite fold_bits_concat.
  unfold IEBusBitBang.make_output_segment, IEBusBitBang.lineState.
  destruct timing_values as (-> & _ & -> & _ & ->).
  cbn [app]. rewrite <- !app_assoc. reflexivity.
Qed.

Lemma binary_replicate (c : ascii) (n : Z) :
  c = "0"%char \/ c = "1"%char -> binary (Py.replicate c n).
Proof.
  intros Hc. apply Forall_forall. intros x Hx. apply repeat_spec in Hx.
  subst x. exact Hc.
Qed.

Lemma binary_cells (messageBits : list bool) :
  binary (List.concat (List.map IEBusBitBang.make_output_from_bit messageBits)).
Proof.
  induction messageBits as [| b bits IH]; cbn [map List.concat]; [apply Forall_nil |].
  apply binary_app; [| exact IH].
  rewrite make_output_from_bit_cell.
  destruct b; apply binary_app; apply binary_replicate; tauto.
Qed.

Lemma binary_make_output_from_iebus_bits (messageBits : list bool) :
  binary (IEBusBitBang.make_output_from_iebus_bits messageBits).
Proof.
  rewrite make_output_from_iebus_bits_shape.
  repeat apply binary_app; try apply binary_cells; apply binary_replicate; tauto.
Qed.

Lemma cells_injective :
  forall bits bits' : list bool,
    List.concat (List.map IEBusBitBang.make_output_from_bit bits)
    = List.concat (List.map IEBusBitBang.make_output_from_bit bits') ->
    bits = bits'.
Proof.
  assert (forall b, List.length (IEBusBitBang.make_output_from_bit b) = 41%nat) as Hlen
      by (intros []; vm_compute; reflexivity).
  induction bits as [| b bits IH]; intros [| b' bits'] H; cbn [map List.concat] in H.
  - reflexivity.
  - apply (f_equal (@List.length ascii)) in H.
    rewrite length_app, Hlen in H. cbn in H. lia.
  - apply (f_equal (@List.length ascii)) in H.
    rewrite length_app, Hlen in H. cbn in H. lia.
  - apply app_inv_length in H; [| rewrite !Hlen; reflexivity].
    destruct H as (Hcell & Hrest). f_equal; [| apply IH, Hrest].
    destruct b, b'; try reflexivity; vm_compute in Hcell; discriminate Hcell.
Qed.

(** X15. The line signal of a bit list is 170 low samples (start bit), 20
    high samples (sync), one 41-sample cell per bit, 20 low then 21 high for
    a 1 and 33 low then 8 high for a 0, and 88 high samples (wait); it
    consists of ['0'] and ['1'] characters only, and two different bit lists
    never give the same signal. *)
Theorem line_signal_shape :
  forall messageBits : list bool,
    IEBusBitBang.make_output_from_iebus_bits messageBits
    = Py.replicate "0"%char 170 ++ Py.replicate "1"%char 20
      ++ List.concat
           (List.map (fun b : bool => if b then cell 20 21 else cell 33 8) messageBits)
      ++ Py.replicate "1"%char 88
    /\ binary (IEBusBitBang.make_output_from_iebus_bits messageBits)
    /\ forall messageBits' : list bool,
        IEBusBitBang.make_output_from_iebus_bits messageBits
        = IEBusBitBang.make_output_from_iebus_bits messageBits' ->
        messageBits = messageBits'.
Proof.
  intros messageBits. split; [| split].
  - rewrite make_output_from_iebus_bits_shape. do 3 f_equal.
    apply (f_equal (@List.concat ascii)).
    apply map_ext. apply make_output_from_bit_cell.
  - apply binary_make_output_from_iebus_bits.
  - intros bits' H. rewrite !make_output_from_iebus_bits_shape in H.
    apply app_inv_head, app_inv_head, app_inv_tail in H.
    apply cells_injective, H.
Qed.

(** ** Packing, the other way round *)

Lemma bytes_to_bits_injective :
  forall bs bs' : list Z,
    wf_bytes bs -> wf_bytes bs' ->
    IEBusBitBang.bytes_to_bits bs = IEBusBitBang.bytes_to_bits bs' -> bs = bs'.
Proof.
  intros bs bs' Hwf. revert bs'.
  induction Hwf as [| b bs Hb Hbs IH]; intros bs' Hwf' H.
  - destruct Hwf' as [| b' bs' Hb' Hbs']; [reflexivity |].
    apply (f_equal (@List.length bool)) in H.
    rewrite bytes_to_bits_cons, length_app, length_map, format_08b_length in H
      by exact Hb'.
    cbn in H. lia.
  - destruct Hwf' as [| b' bs' Hb' Hbs'].
    + apply (f_equal (@List.length bool)) in H.
      rewrite bytes_to_bits_cons, length_app, length_map, format_08b_length in H
        by exact Hb.
      cbn in H. lia.
    + rewrite !bytes_to_bits_cons in H.
      apply app_inv_length in H;
        [| rewrite !length_map, !format_08b_length by assumption; reflexivity].
      destruct H as (Hhead & Hrest). f_equal; [| apply IH; assumption].
      rewrite !format_08b_bits in Hhead by assumption.
      apply Z.bits_inj'. intros n Hn.
      destruct (Z.lt_ge_cases n 8) as [Hlow | Hhigh].
      * pose proof (f_equal (fun l => List.nth (Z.to_nat (7 - n)) l false) Hhead) as Hn'.
        cbv beta in Hn'.
        rewrite !(nth_indep _ false (Z.testbit b (7 - Z.of_nat 0))) in Hn'
          by (rewrite length_map, length_seq; lia).
        rewrite (map_nth (fun k => Z.testbit b (7 - Z.of_nat k)) (seq 0 8) 0%nat) in Hn'.
        rewrite (nth_indep _ (Z.testbit b (7 - Z.of_nat 0))
                           (Z.testbit b' (7 - Z.of_nat 0))) in Hn'
          by (rewrite length_map, length_seq; lia).
        rewrite (map_nth (fun k => Z.testbit b' (7 - Z.of_nat k)) (seq 0 8) 0%nat) in Hn'.
        rewrite seq_nth in Hn' by lia. cbn [Nat.add] in Hn'.
        replace (7 - Z.of_nat (Z.to_nat (7 - n))) with n in Hn' by lia.
        exact Hn'.
      * rewrite (testbit_small b 8 n), (testbit_small b' 8 n);
          try reflexivity; try exact Hhigh; change (2 ^ 8) with 256; lia.
Qed.

Lemma sample_of_bit_injective :
  forall bits bits' : list bool,
    List.map sample_of_bit bits = List.map sample_of_bit bits' -> bits = bits'.
Proof.
  intros bits bits' H. rewrite <- (bit_of_sample_of_bit bits), H.
  apply bit_of_sample_of_bit.
Qed.

Lemma binary_samples (bits : list bool) : binary (List.map sample_of_bit bits).
Proof.
  apply Forall_forall. intros x Hx. apply in_map_iff in Hx.
  destruct Hx as ([] & <- & _); [right | left]; reflexivity.
Qed.

Lemma bits_to_bytes_returns (s : list ascii) :
  binary s ->
  exists out : list Z,
    IEBusBitBang.bits_to_bytes s = Ret out
    /\ wf_bytes out
    /\ Py.len out = (Py.len s + 7) / 8
    /\ List.map sample_of_bit (IEBusBitBang.bytes_to_bits out)
       = s ++ Py.replicate "1"%char ((8 - Py.len s mod 8) mod 8).
Proof.
  intros Hbin.
  destruct (packing (List.length s) s (Nat.le_refl _) Hbin) as (vs & Hvs & Hwfv & Hback).
  exists vs. split; [| split; [exact Hwfv | split; [| exact Hback]]].
  - unfold IEBusBitBang.bits_to_bytes. rewrite Hvs. cbn [bind].
    apply bytes_wf, Hwfv.
  - pose proof (f_equal (@Py.len ascii) Hback) as Hl.
    rewrite len_app, len_replicate in Hl. unfold Py.len at 1 in Hl.
    rewrite length_map in Hl. fold (Py.len (IEBusBitBang.bytes_to_bits vs)) in Hl.
    rewrite len_bytes_to_bits in Hl by exact Hwfv.
    pose proof (Zle_0_nat (List.length s)) as Hs. fold (Py.len s) in Hs.
    Z.div_mod_to_equations. lia.
Qed.

(** X16. Packing is the inverse of unpacking on whole bytes: for every
    list of bytes, [bits_to_bytes] of the sample string of its bits returns
    the list itself; and on every sample string [s] it returns
    [ceil(len(s) / 8)] bytes, none for the empty string. *)
Theorem unpack_then_pack :
  forall bs : list Z,
    wf_bytes bs ->
    IEBusBitBang.bits_to_bytes
      (List.map sample_of_bit (IEBusBitBang.bytes_to_bits bs)) = Ret bs
    /\ forall s : list ascii,
        binary s ->
        exists out : list Z,
          IEBusBitBang.bits_to_bytes s = Ret out
          /\ wf_bytes out
          /\ Py.len out = (Py.len s + 7) / 8.
Proof.
  intros bs Hwf. split.
  - destruct (bits_to_bytes_returns
                (List.map sample_of_bit (IEBusBitBang.bytes_to_bits bs))
                (binary_samples _)) as (out & Hout & Hwfo & _ & Hback).
    rewrite Hout. f_equal.
    apply bytes_to_bits_injective; [exact Hwfo | exact Hwf |].
    apply sample_of_bit_injective. rewrite Hback.
    unfold Py.len at 1. rewrite length_map.
    fold (Py.len (IEBusBitBang.bytes_to_bits bs)).
    rewrite len_bytes_to_bits by exact Hwf.
    replace ((8 - (8 * Py.len bs) mod 8) mod 8) with 0
      by (Z.div_mod_to_equations; lia).
    apply app_nil_r.
  - intros s Hbin.
    destruct (bits_to_bytes_returns s Hbin) as (out & Hout & Hwfo & Hlen & _).
    exists out. repeat split; assumption.
Qed.

Lemma unpack_then_pack_witness :
  IEBusBitBang.bits_to_bytes
    (List.map sample_of_bit (IEBusBitBang.bytes_to_bits [65; 255; 0])) = Ret [65; 255; 0].
Proof.
  apply (proj1 (unpack_then_pack [65; 255; 0]
                                 ltac:(repeat (apply Forall_cons; [lia |]);
                                       apply Forall_nil))).
Defined.

(** ** Idle trimming and the idle guard *)

Lemma lstrip_char_repeat (c : ascii) (a : nat) (l : list ascii) :
  PyStr.lstrip_char c (List.repeat c a ++ l) = PyStr.lstrip_char c l.
Proof.
  induction a as [| a IH]; [reflexivity |].
  cbn [List.repeat app PyStr.lstrip_char]. rewrite Ascii.eqb_refl. exact IH.
Qed.

Lemma lstrip_char_id (c : ascii) (l : list ascii) :
  hd_error l <> Some c -> PyStr.lstrip_char c l = l.
Proof.
  destruct l as [| d l]; intros Hhd; [reflexivity |].
  cbn [PyStr.lstrip_char]. destruct (Ascii.eqb_spec d c) as [-> | _]; [| reflexivity].
  exfalso. apply Hhd. reflexivity.
Qed.

Lemma lstrip_char_spec (c : ascii) (l : list ascii) :
  exists a : nat,
    l = List.repeat c a ++ PyStr.lstrip_char c l
    /\ hd_error (PyStr.lstrip_char c l) <> Some c.
Proof.
  induction l as [| d l (a & Hl & Hhd)].
  - exists 0%nat. split; [reflexivity | discriminate].
  - cbn [PyStr.lstrip_char]. destruct (Ascii.eqb_spec d c) as [-> | Hne].
    + exists (S a). split; [cbn [List.repeat app]; f_equal; exact Hl | exact Hhd].
    + exists 0%nat. split; [reflexivity |]. cbn [hd_error]. congruence.
Qed.

Lemma rev_repeat_same {A : Type} (x : A) (n : nat) :
  List.rev (List.repeat x n) = List.repeat x n.
Proof.
  induction n as [| n IH]; [reflexivity |].
  cbn [List.repeat List.rev]. rewrite IH. symmetry. apply repeat_cons.
Qed.

Lemma strip_char_core (c : ascii) (a b : nat) (core : list ascii) :
  hd_error core <> Some c -> hd_error (List.rev core) <> Some c ->
  PyStr.strip_char c (List.repeat c a ++ core ++ List.repeat c b) = core.
Proof.
  intros Hhd Hlast. unfold PyStr.strip_char. rewrite lstrip_char_repeat.
  destruct core as [| x r].
  - cbn [app]. rewrite <- (app_nil_r (List.repeat c b)), lstrip_char_repeat.
    reflexivity.
  - rewrite (lstrip_char_id c ((x :: r) ++ List.repeat c b)) by exact Hhd.
    rewrite rev_app_distr, rev_repeat_same, lstrip_char_repeat.
    rewrite lstrip_char_id by exact Hlast. apply rev_involutive.
Qed.

Lemma strip_char_spec (c : ascii) (l : list ascii) :
  exists a b : nat,
    l = List.repeat c a ++ PyStr.strip_char c l ++ List.repeat c b
    /\ hd_error (PyStr.strip_char c l) <> Some c
    /\ hd_error (List.rev (PyStr.strip_char c l)) <> Some c.
Proof.
  destruct (lstrip_char_spec c l) as (a & Hl & Hhd).
  destruct (lstrip_char_spec c (List.rev (PyStr.lstrip_char c l))) as (b & Hr & Hlast).
  exists a, b. unfold PyStr.strip_char. rewrite rev_involutive.
  assert (PyStr.lstrip_char c l
          = List.rev (PyStr.lstrip_char c (List.rev (PyStr.lstrip_char c l)))
            ++ List.repeat c b) as Hm.
  { rewrite <- (rev_involutive (PyStr.lstrip_char c l)) at 1.
    rewrite Hr at 1. rewrite rev_app_distr, rev_repeat_same. reflexivity. }
  split; [rewrite <- Hm; exact Hl |]. split; [| exact Hlast].
  destruct (List.rev (PyStr.lstrip_char c (List.rev (PyStr.lstrip_char c l))))
    as [| x r] eqn:Hcore; [discriminate |].
  rewrite Hm in Hhd. exact Hhd.
Qed.

Lemma replicate_add {A : Type} (x : A) (n m : Z) :
  0 <= m -> Py.replicate x (Z.max 0 n + m) = Py.replicate x n ++ Py.replicate x m.
Proof.
  intros Hm. unfold Py.replicate. rewrite <- repeat_app. f_equal. lia.
Qed.

Lemma finish_of_strip (glitch : Z) (buf : list ascii) :
  BitBangUtility.finish glitch buf
  = Py.replicate "1"%char (Z.max 0 glitch + 10000)
    ++ PyStr.strip_char "1"%char buf ++ Py.replicate "1"%char 10000.
Proof.
  unfold BitBangUtility.finish. rewrite replicate_add by lia.
  destruct (Z.eqb_spec glitch 0) as [-> | Hne]; cbn [negb].
  - reflexivity.
  - apply app_assoc.
Qed.

Lemma binary_strip (s : list ascii) : binary s -> binary (PyStr.strip_char "1"%char s).
Proof.
  intros Hbin. destruct (strip_char_spec "1"%char s) as (a & b & Hs & _).
  rewrite Hs in Hbin. unfold binary in Hbin.
  apply Forall_app in Hbin. destruct Hbin as (_ & Hbin).
  apply Forall_app in Hbin. apply Hbin.
Qed.

Lemma binary_finish (glitch : Z) (s : list ascii) :
  binary s -> binary (BitBangUtility.finish glitch s).
Proof.
  intros Hbin. rewrite finish_of_strip.
  repeat apply binary_app; try apply binary_idle. apply binary_strip, Hbin.
Qed.

(** X17. Idle trimming and guard. Every buffer is a run of high samples,
    a core that neither begins nor ends with a high sample, and a run of
    high samples; the finished buffer is [max(G, 0) + 10000] high samples,
    that core, and 10000 high samples, so the glitch option lengthens the
    leading idle run by exactly [G] samples and nothing else changes. A
    buffer of sample characters stays one, and packing it returns
    [ceil(len / 8)] bytes. *)
Theorem idle_guard :
  forall (glitch : Z) (buf : list ascii),
    exists (a b : nat) (core : list ascii),
      buf = List.repeat "1"%char a ++ core ++ List.repeat "1"%char b
      /\ hd_error core <> Some "1"%char
      /\ hd_error (List.rev core) <> Some "1"%char
      /\ BitBangUtility.finish glitch buf
         = Py.replicate "1"%char (Z.max 0 glitch + 10000)
           ++ core ++ Py.replicate "1"%char 10000
      /\ Py.len (BitBangUtility.finish glitch buf)
         = Z.max 0 glitch + 20000 + Py.len core
      /\ (binary buf ->
          exists bytes : list Z,
            IEBusBitBang.bits_to_bytes (BitBangUtility.finish glitch buf) = Ret bytes
            /\ wf_bytes bytes
            /\ Py.len bytes = (Z.max 0 glitch + 20000 + Py.len core + 7) / 8).
Proof.
  intros glitch buf.
  destruct (strip_char_spec "1"%char buf) as (a & b & Hbuf & Hhd & Hlast).
  exists a, b, (PyStr.strip_char "1"%char buf).
  assert (Py.len (BitBangUtility.finish glitch buf)
          = Z.max 0 glitch + 20000 + Py.len (PyStr.strip_char "1"%char buf)) as Hlen.
  { rewrite finish_of_strip, !len_app, !len_replicate. lia. }
  split; [exact Hbuf |]. split; [exact Hhd |]. split; [exact Hlast |].
  split; [apply finish_of_strip |]. split; [exact Hlen |].
  intros Hbin.
  destruct (bits_to_bytes_returns _ (binary_finish glitch buf Hbin))
    as (bytes & Hret & Hwf & Hl & _).
  exists bytes. split; [exact Hret |]. split; [exact Hwf |].
  rewrite Hl, Hlen. reflexivity.
Qed.

(** ** Single-message mode, end to end *)

Lemma init_of_tokens (message_string : string) (ma sl : Z) (data : list Z) :
  token_values message_string = Ret (ma, sl, data) ->
  exists vb : Z,
    vb = (if String.eqb
               (List.hd ""%string
                        (PyStr.split (PyStr.remove_char ":"%char message_string)))
               "B"
          then IEBusMessage.BROADCAST else IEBusMessage.UNICAST)
    /\ IEBusMessage.__init__ None (Some message_string) None None None None None
       = IEBusMessage.init_fields (Some vb) (Some ma) (Some sl) (Some 15) (Some data).
Proof.
  intros Htok.
  destruct message_string as [| ch rest]; [cbn in Htok; discriminate Htok |].
  unfold token_values in Htok. cbn [IEBusMessage.__init__].
  set (parts := PyStr.split (PyStr.remove_char ":"%char (String ch rest))) in *.
  assert (exists p0, IEBusMessage.part parts 0 = Ret p0 /\ List.hd ""%string parts = p0)
    as (p0 & -> & ->).
  { destruct parts as [| p0 ps]; [cbn in Htok; discriminate Htok |].
    exists p0. split; reflexivity. }
  cbn [bind].
  destruct (IEBusMessage.part parts 1) as [p1 | |]; cbn [bind] in Htok |- *;
    try discriminate Htok.
  destruct (PyStr.int p1 16) as [ma' | |]; cbn [bind] in Htok |- *;
    try discriminate Htok.
  destruct (IEBusMessage.part parts 2) as [p2 | |]; cbn [bind] in Htok |- *;
    try discriminate Htok.
  destruct (PyStr.int p2 16) as [sl' | |]; cbn [bind] in Htok |- *;
    try discriminate Htok.
  destruct (IEBusMessage.parse_data (skipn 3 parts)) as [data' | |];
    cbn [bind] in Htok |- *; try discriminate Htok.
  injection Htok as -> -> ->.
  exists (if String.eqb p0 "B" then IEBusMessage.BROADCAST else IEBusMessage.UNICAST).
  split; reflexivity.
Qed.

Lemma logical_bits_snoc (buf : list Z) (n : Z) :
  0 <= n -> logical_bits buf (n + 1) = logical_bits buf n ++ [buffer_bit buf n].
Proof.
  intros Hn. unfold logical_bits.
  rewrite Z2Nat.inj_add, Nat.add_1_r, seq_S, map_app by lia.
  cbn [map Nat.add]. rewrite Z2Nat.id by exact Hn. reflexivity.
Qed.

Lemma len_logical_bits (buf : list Z) (n : Z) :
  0 <= n -> Py.len (logical_bits buf n) = n.
Proof.
  intros Hn. unfold Py.len, logical_bits. rewrite length_map, length_seq. lia.
Qed.

(** Trimming a line signal removes the wait period and the high part of the
    last bit cell, and nothing at the front. *)
Lemma strip_line_signal (bits : list bool) (b : bool) :
  PyStr.strip_char "1"%char (IEBusBitBang.make_output_from_iebus_bits (bits ++ [b]))
  = firstn (Z.to_nat
              (Py.len (IEBusBitBang.make_output_from_iebus_bits (bits ++ [b]))
               - (if b then 109 else 96)))
           (IEBusBitBang.make_output_from_iebus_bits (bits ++ [b])).
Proof.
  rewrite make_output_from_iebus_bits_shape, map_app, concat_app.
  cbn [map List.concat]. rewrite app_nil_r, make_output_from_bit_cell.
  set (C := List.concat (map IEBusBitBang.make_output_from_bit bits)).
  set (lo := if b then 20 else 33).
  set (tl := if b then 109 else 96).
  set (core := Py.replicate "0"%char 170 ++ Py.replicate "1"%char 20
               ++ C ++ Py.replicate "0"%char lo).
  assert (Py.replicate "0"%char 170 ++ Py.replicate "1"%char 20
          ++ (C ++ (if b then cell 20 21 else cell 33 8)) ++ Py.replicate "1"%char 88
          = List.repeat "1"%char 0 ++ core ++ List.repeat "1"%char (Z.to_nat tl)) as ->.
  { unfold core, lo, tl, cell. cbn [List.repeat app]. rewrite <- !app_assoc.
    do 3 f_equal. destruct b; rewrite <- !app_assoc; f_equal;
      unfold Py.replicate; rewrite <- repeat_app; reflexivity. }
  rewrite strip_char_core.
  - cbn [List.repeat app]. unfold Py.len. rewrite length_app, repeat_length.
    replace (Z.to_nat (Z.of_nat (List.length core + Z.to_nat tl) - tl))
      with (List.length core) by (unfold tl; destruct b; lia).
    rewrite firstn_app, firstn_all, Nat.sub_diag. cbn [firstn].
    symmetry. apply app_nil_r.
  - unfold core. change (Py.replicate "0"%char 170)
      with ("0"%char :: Py.replicate "0"%char 169).
    cbn [app hd_error]. discriminate.
  - unfold core. rewrite !app_assoc, rev_app_distr.
    unfold Py.replicate at 1. rewrite rev_repeat_same.
    unfold lo. destruct b.
    + change (List.repeat "0"%char (Z.to_nat 20))
        with ("0"%char :: List.repeat "0"%char 19).
      cbn [app hd_error]. discriminate.
    + change (List.repeat "0"%char (Z.to_nat 33))
        with ("0"%char :: List.repeat "0"%char 32).
      cbn [app hd_error]. discriminate.
Qed.

(** X18. Single-message mode, end to end. A token string whose addresses
    fit 12 bits and whose data tokens (at most 47) are bytes gives a line
    signal of [2082 + 410 * k] samples for [k] data bytes; trimming removes
    nothing at the front and, at the end, the wait period with the high
    part of the last cell (109 samples when there is data, 96 when there is
    none); the transmitted buffer is the guard, the trimmed signal and the
    guard, and packs into [ceil(len / 8)] bytes. *)
Theorem single_message_transmission :
  forall (message : string) (glitch ma sl : Z) (data : list Z),
    token_values message = Ret (ma, sl, data) ->
    0 <= ma < 2 ^ 12 -> 0 <= sl < 2 ^ 12 ->
    Forall (fun x => 0 <= x < 256) data ->
    Py.len data <= 47 ->
    let trimmed := match data with [] => 96 | _ => 109 end in
    exists (signal : list ascii) (bytes : list Z),
      BitBangUtility.single message = Ret signal
      /\ Py.len signal = 2082 + 410 * Py.len data
      /\ BitBangUtility.finish glitch signal
         = Py.replicate "1"%char (Z.max 0 glitch + 10000)
           ++ firstn (Z.to_nat (Py.len signal - trimmed)) signal
           ++ Py.replicate "1"%char 10000
      /\ IEBusBitBang.bits_to_bytes (BitBangUtility.finish glitch signal) = Ret bytes
      /\ Py.len bytes
         = (Z.max 0 glitch + 22082 + 410 * Py.len data - trimmed + 7) / 8.
Proof.
  intros message glitch ma sl data Htok Hma Hsl Hdata Hlen trimmed.
  destruct (init_of_tokens message ma sl data Htok) as (vb & Hvb & Hinit).
  destruct (init_fields_holds (Some vb) (Some ma) (Some sl) (Some 15) (Some data))
    as (buf & Hfields & Hholds & Hacks).
  { intros v [= <-]. rewrite Hvb.
    unfold IEBusMessage.BROADCAST, IEBusMessage.UNICAST.
    destruct (String.eqb _ _); lia. }
  { intros v [= <-]. exact Hma. }
  { intros v [= <-]. exact Hsl. }
  { intros v [= <-]. lia. }
  { intros d [= <-]. split; assumption. }
  cbn [arg_value] in Hholds, Hacks.
  destruct Hholds as (Hwf & Hlen68 & _ & _ & _ & _ & (_ & HL & _) & _ & _).
  destruct Hacks as (_ & _ & HLA & HDA).
  pose proof (Zle_0_nat (List.length data)) as Hk. fold (Py.len data) in Hk.
  assert (Py.len buf = 68) as Hlenb by (unfold Py.len; rewrite Hlen68; reflexivity).
  pose proof (message_bits buf None (Py.len data) Hwf ltac:(lia) HL Hk) as Hsig.
  rewrite Hlenb, Z.min_l in Hsig by lia.
  set (n := 43 + 10 * Py.len data).
  replace (44 + 10 * Py.len data) with (n + 1) in Hsig by (unfold n; lia).
  rewrite logical_bits_snoc in Hsig by (unfold n; lia).
  assert (buffer_bit buf n = match data with [] => false | _ => true end) as Hlast.
  { destruct data as [| x rest].
    - destruct (getField_spec buf IEBusMessage.DataLength_A Hwf)
        as (v & Hv & _ & Hbits).
      { apply admissible_68; [exact Hlen68 | cbn; lia | cbn; lia]. }
      rewrite HLA in Hv. injection Hv as <-.
      specialize (Hbits 0 ltac:(cbn; lia)). rewrite Z.bits_0 in Hbits.
      symmetry. exact Hbits.
    - specialize (HDA (List.length rest) ltac:(cbn [List.length]; lia)).
      destruct (getField_spec buf (IEBusMessage.Data_A (Z.of_nat (List.length rest))) Hwf)
        as (v & Hv & _ & Hbits).
      { apply admissible_68; [exact Hlen68 | |];
          rewrite len_cons in Hlen; unfold Py.len in Hlen; data_geometry. }
      rewrite HDA in Hv. injection Hv as <-.
      specialize (Hbits 0 ltac:(cbn; lia)).
      replace (BitOffset (IEBusMessage.Data_A (Z.of_nat (List.length rest)))
               + LengthBits (IEBusMessage.Data_A (Z.of_nat (List.length rest)))
               - 1 - 0) with n in Hbits
        by (unfold n; rewrite len_cons; unfold Py.len; data_geometry).
      symmetry. exact Hbits. }
  set (bits := logical_bits buf n) in *.
  set (signal := IEBusBitBang.make_output_from_iebus_bits (bits ++ [buffer_bit buf n]))
    in *.
  assert (Py.len signal = 2082 + 410 * Py.len data) as Hlsig.
  { unfold signal. rewrite len_make_output_from_iebus_bits, len_app.
    unfold bits. rewrite len_logical_bits by (unfold n; lia).
    destruct timing_values as (-> & -> & -> & _ & ->).
    rewrite len_cons, len_nil. unfold n. lia. }
  assert (PyStr.strip_char "1"%char signal
          = firstn (Z.to_nat (Py.len signal - trimmed)) signal) as Hstrip.
  { unfold signal at 1 3. rewrite strip_line_signal. fold signal.
    rewrite Hlast. unfold trimmed. destruct data; reflexivity. }
  destruct (bits_to_bytes_returns
              _ (binary_finish glitch signal
                               (binary_make_output_from_iebus_bits _)))
    as (bytes & Hret & _ & Hlb & _).
  exists signal, bytes.
  split.
  { unfold BitBangUtility.single. rewrite Hinit, Hfields. cbn [bind]. exact Hsig. }
  split; [exact Hlsig |].
  split; [rewrite finish_of_strip, Hstrip; reflexivity |].
  split; [exact Hret |].
  rewrite Hlb, finish_of_strip, !len_app, !len_replicate, Hstrip.
  unfold Py.len at 1. rewrite length_firstn. fold (Py.len signal).
  assert (0 < trimmed <= 109) as Htr by (unfold trimmed; destruct data; lia).
  clearbody trimmed signal. unfold Py.len in *. f_equal. lia.
Qed.

Lemma single_message_transmission_witness :
  exists (signal : list ascii) (bytes : list Z),
    BitBangUtility.single "- 190 440 f 2 60 01"%string = Ret signal
    /\ Py.len signal = 2082 + 410 * Py.len [0xF; 2; 0x60; 1]
    /\ BitBangUtility.finish 100 signal
       = Py.replicate "1"%char (Z.max 0 100 + 10000)
         ++ firstn (Z.to_nat (Py.len signal - 109)) signal
         ++ Py.replicate "1"%char 10000
    /\ IEBusBitBang.bits_to_bytes (BitBangUtility.finish 100 signal) = Ret bytes
    /\ Py.len bytes
       = (Z.max 0 100 + 22082 + 410 * Py.len [0xF; 2; 0x60; 1] - 109 + 7) / 8.
Proof.
  apply (single_message_transmission "- 190 440 f 2 60 01"%string 100 0x190 0x440
                                     [0xF; 2; 0x60; 1]).
  - vm_compute. reflexivity.
  - lia.
  - lia.
  - repeat (apply Forall_cons; [lia |]). apply Forall_nil.
  - vm_compute. discriminate.
Defined.

(** ** Timeline layout *)

Lemma replicate_split {A : Type} (x : A) (n m : Z) :
  0 <= n -> 0 <= m -> Py.replicate x (n + m) = Py.replicate x n ++ Py.replicate x m.
Proof.
  intros Hn Hm. unfold Py.replicate. rewrite <- repeat_app. f_equal. lia.
Qed.

(** Overwriting idle samples after a prefix [A]: the signal lands at [t],
    idle samples fill the gap before it and the rest stays idle. *)
Lemma overwrite_idle (A sig : list ascii) (t E : Z) :
  Py.len A <= t -> t + Py.len sig <= E ->
  Py.slice_assign (A ++ Py.replicate "1"%char (E - Py.len A)) t (t + Py.len sig) sig
  = (A ++ Py.replicate "1"%char (t - Py.len A) ++ sig)
    ++ Py.replicate "1"%char (E - (t + Py.len sig)).
Proof.
  intros Ht HE.
  pose proof (Zle_0_nat (List.length A)) as HA. fold (Py.len A) in HA.
  pose proof (Zle_0_nat (List.length sig)) as Hs. fold (Py.len sig) in Hs.
  rewrite slice_assign_overwrite;
    [| lia | rewrite len_app, len_replicate; lia].
  replace (E - Py.len A)
    with ((t - Py.len A) + (Py.len sig + (E - (t + Py.len sig)))) by lia.
  rewrite !replicate_split by lia.
  replace (t - Py.len A + (Py.len sig + (E - (t + Py.len sig))) + Py.len A
           - (t + Py.len sig))
    with (E - (t + Py.len sig)) by lia.
  set (G := Py.replicate "1"%char (t - Py.len A)).
  set (Y := Py.replicate "1"%char (Py.len sig)).
  set (T := Py.replicate "1"%char (E - (t + Py.len sig))).
  assert (List.length (A ++ G) = Z.to_nat t) as HAG.
  { rewrite length_app. unfold G, Py.replicate. rewrite repeat_length.
    unfold Py.len in *. lia. }
  assert (List.length Y = List.length sig) as HY.
  { unfold Y, Py.replicate, Py.len. rewrite repeat_length. lia. }
  replace (A ++ G ++ Y ++ T) with ((A ++ G) ++ Y ++ T) by (symmetry; apply app_assoc).
  rewrite firstn_app, HAG, Nat.sub_diag, firstn_all2 by lia.
  cbn [firstn]. rewrite app_nil_r.
  rewrite skipn_app, HAG, skipn_all2 by lia.
  replace (Z.to_nat t + List.length sig - Z.to_nat t)%nat with (List.length Y) by lia.
  rewrite skipn_app, skipn_all, Nat.sub_diag. cbn [skipn app].
  rewrite <- !app_assoc. reflexivity.
Qed.

Lemma len_slot (R : Z) (s : list ascii) : Py.len s <= R -> Py.len (slot R s) = R.
Proof.
  intros Hs. unfold slot. rewrite len_app, len_replicate. lia.
Qed.

Lemma place_slots (regular : Z) (rows : list BitBangUtility.row)
      (msgs : list IEBusMessage.t) :
  forall (sigs : list (list ascii)) (i : Z) (A : list ascii),
    0 < regular ->
    Forall2 (fun m sig => IEBusBitBang.make_output_from_iebus_message m = Ret sig)
            msgs sigs ->
    Forall (fun sig => Py.len sig <= regular) sigs ->
    Py.len A = i * regular ->
    BitBangUtility.place regular rows i msgs
                         (A ++ Py.replicate "1"%char (regular * Py.len msgs))
    = Ret (A ++ List.concat (List.map (slot regular) sigs)).
Proof.
  induction msgs as [| m msgs IH]; intros sigs i A Hreg Hsigs Hfit HA.
  - inversion Hsigs; subst. cbn [BitBangUtility.place map List.concat].
    rewrite (@len_nil IEBusMessage.t), Z.mul_0_r. reflexivity.
  - inversion Hsigs as [| ? sig ? sigs' Hsig Hrest]; subst.
    inversion Hfit as [| ? ? Hfit0 Hfit']; subst.
    cbn [BitBangUtility.place].
    destruct (Z.eqb_spec regular 0); [lia |]. cbn [negb bind].
    rewrite Hsig. cbn [bind].
    pose proof (Zle_0_nat (List.length msgs)) as Hk. fold (Py.len msgs) in Hk.
    pose proof (Zle_0_nat (List.length sig)) as Hs. fold (Py.len sig) in Hs.
    replace (regular * Py.len (m :: msgs))
      with (Py.len A + regular * (1 + Py.len msgs) - Py.len A)
      by (rewrite len_cons; lia).
    rewrite <- HA, overwrite_idle by nia.
    rewrite Z.sub_diag. change (Py.replicate "1"%char 0) with (@nil ascii).
    cbn [app map List.concat].
    replace (Py.len A + regular * (1 + Py.len msgs) - (Py.len A + Py.len sig))
      with ((regular - Py.len sig) + regular * Py.len msgs) by lia.
    rewrite replicate_split by nia.
    rewrite app_assoc. fold (slot regular sig).
    replace (A ++ sig ++ Py.replicate "1"%char (regular - Py.len sig))
      with (A ++ slot regular sig) by reflexivity.
    replace ((A ++ sig) ++ Py.replicate "1"%char (regular - Py.len sig))
      with (A ++ slot regular sig) by (unfold slot; apply app_assoc).
    rewrite (IH sigs' (i + 1) (A ++ slot regular sig) Hreg Hrest Hfit').
    + rewrite <- app_assoc. reflexivity.
    + rewrite len_app, len_slot by exact Hfit0. lia.
Qed.

(** X19. Fixed-interval replay without collisions. With a regular
    interval [R > 0] and every message signal at most [R] samples long, the
    composed timeline is the signals in order, each in its own slot of
    exactly [R] samples, padded with idle samples; no sample of any message
    is overwritten and the timeline has [R * k] samples. *)
Theorem fixed_interval_slots :
  forall (regular : Z) (rows : list BitBangUtility.row)
         (msgs : list IEBusMessage.t) (sigs : list (list ascii)),
    0 < regular ->
    Py.comprehension
      (fun r => IEBusMessage.__init__ None (Some (BitBangUtility.row_string r))
                                      None None None None None) rows = Ret msgs ->
    Py.comprehension IEBusBitBang.make_output_from_iebus_message msgs = Ret sigs ->
    Forall (fun sig => Py.len sig <= regular) sigs ->
    BitBangUtility.compose regular rows
    = Ret (List.concat (List.map (slot regular) sigs))
    /\ Py.len (List.concat (List.map (slot regular) sigs)) = regular * Py.len rows
    /\ forall i : nat,
        (i < List.length sigs)%nat ->
        Py.slice (List.concat (List.map (slot regular) sigs))
                 (Z.of_nat i * regular)
                 (Z.of_nat i * regular + Py.len (List.nth i sigs []))
        = List.nth i sigs [].
Proof.
  intros regular rows msgs sigs Hreg Hmsgs Hsigs Hfit.
  pose proof (comprehension_Forall2 _ _ _ Hmsgs) as Hm2.
  pose proof (comprehension_Forall2 _ _ _ Hsigs) as Hs2.
  pose proof (Forall2_length Hm2) as Hlm. pose proof (Forall2_length Hs2) as Hls.
  assert (forall l : list (list ascii),
             Forall (fun sig => Py.len sig <= regular) l ->
             Py.len (List.concat (List.map (slot regular) l)) = regular * Py.len l)
    as Hlen.
  { induction 1 as [| x l Hx Hl IHl]; [cbn; lia |].
    cbn [map List.concat]. rewrite len_app, len_slot, IHl, len_cons by exact Hx. lia. }
  split; [| split].
  - unfold BitBangUtility.compose. rewrite Hmsgs. cbn [bind]. rewrite Hsigs.
    cbn [bind]. destruct (Z.eqb_spec regular 0); [lia |]. cbn [negb bind].
    apply (place_slots regular rows msgs sigs 0 [] Hreg Hs2 Hfit). reflexivity.
  - rewrite Hlen by exact Hfit. unfold Py.len. rewrite Hlm, Hls. reflexivity.
  - intros i Hi.
    rewrite <- (firstn_skipn i sigs) at 1.
    rewrite map_app, concat_app.
    assert (skipn i sigs = List.nth i sigs [] :: skipn (S i) sigs) as Hsk.
    { clear - Hi. revert i Hi. induction sigs as [| x l IHl]; intros i Hi;
        cbn in Hi; [lia |].
      destruct i as [| i]; [reflexivity |]. cbn [skipn List.nth]. apply IHl. lia. }
    rewrite Hsk. cbn [map List.concat].
    set (sig := List.nth i sigs []).
    set (A := List.concat (map (slot regular) (firstn i sigs))).
    set (T := List.concat (map (slot regular) (skipn (S i) sigs))).
    assert (Py.len sig <= regular) as Hsig.
    { rewrite Forall_forall in Hfit. apply Hfit, nth_In, Hi. }
    assert (Py.len A = Z.of_nat i * regular) as HA.
    { unfold A. rewrite Hlen.
      - unfold Py.len. rewrite length_firstn. lia.
      - rewrite <- (firstn_skipn i sigs) in Hfit. apply Forall_app in Hfit. apply Hfit. }
    pose proof (Zle_0_nat (List.length sig)) as Hs. fold (Py.len sig) in Hs.
    unfold Py.slice, Py.adjust_index. rewrite !len_app, len_slot by exact Hsig.
    pose proof (Zle_0_nat (List.length T)) as HT. fold (Py.len T) in HT.
    destruct (Z.ltb_spec (Z.of_nat i * regular) 0); [nia |].
    destruct (Z.ltb_spec (Z.of_nat i * regular + Py.len sig) 0); [nia |].
    rewrite <- HA.
    replace (Z.to_nat (Z.min (Py.len A) (Py.len A + (regular + Py.len T))))
      with (List.length A) by (unfold Py.len in *; lia).
    rewrite skipn_app, skipn_all, Nat.sub_diag. cbn [skipn app].
    replace (Z.to_nat
               (Z.max (Z.min (Py.len A) (Py.len A + (regular + Py.len T)))
                      (Z.min (Py.len A + Py.len sig) (Py.len A + (regular + Py.len T)))
                - Z.min (Py.len A) (Py.len A + (regular + Py.len T))))
      with (List.length sig) by (unfold Py.len in *; lia).
    unfold slot. rewrite <- app_assoc, firstn_app, firstn_all, Nat.sub_diag.
    cbn [firstn]. apply app_nil_r.
Qed.

Lemma fixed_interval_slots_witness :
  exists out : list ascii,
    BitBangUtility.compose
      3000 [(0, "RX", "- 190 440 f"); (7, "RX", "B 1ff 000")]%string = Ret out
    /\ Py.len out
       = 3000 * Py.len [(0, "RX", "- 190 440 f"); (7, "RX", "B 1ff 000")]%string.
Proof.
  eexists.
  edestruct (fixed_interval_slots
               3000 [(0, "RX", "- 190 440 f"); (7, "RX", "B 1ff 000")]%string)
    as (Hcompose & Hlen & _).
  - lia.
  - vm_compute. reflexivity.
  - vm_compute. reflexivity.
  - repeat (apply Forall_cons; [vm_compute; discriminate |]). apply Forall_nil.
  - split; [exact Hcompose | exact Hlen].
Defined.

Lemma ordered_end (l : list (Z * list ascii)) :
  forall e : Z, ordered e l -> e <= timeline_end e l.
Proof.
  induction l as [| [t sig] l IH]; intros e Hord; cbn [timeline_end]; [lia |].
  destruct Hord as (Het & Hord). specialize (IH _ Hord).
  pose proof (Zle_0_nat (List.length sig)) as Hs. fold (Py.len sig) in Hs. lia.
Qed.

Lemma len_timeline (l : list (Z * list ascii)) :
  forall e : Z, ordered e l -> Py.len (timeline e l) = timeline_end e l - e.
Proof.
  induction l as [| [t sig] l IH]; intros e Hord; cbn [timeline timeline_end].
  - rewrite (@len_nil ascii). lia.
  - destruct Hord as (Het & Hord).
    rewrite !len_app, len_replicate, IH by exact Hord. lia.
Qed.

Lemma place_timeline (msgs : list IEBusMessage.t) :
  forall (sigs : list (list ascii)) (rest pre : list BitBangUtility.row)
         (A : list ascii),
    Forall2 (fun m sig => IEBusBitBang.make_output_from_iebus_message m = Ret sig)
            msgs sigs ->
    List.length rest = List.length msgs ->
    ordered (Py.len A) (List.combine (List.map BitBangUtility.row_time rest) sigs) ->
    BitBangUtility.place
      0 (pre ++ rest) (Py.len pre) msgs
      (A ++ Py.replicate
              "1"%char
              (timeline_end (Py.len A)
                            (List.combine (List.map BitBangUtility.row_time rest) sigs)
               - Py.len A))
    = Ret (A ++ timeline (Py.len A)
                         (List.combine (List.map BitBangUtility.row_time rest) sigs)).
Proof.
  induction msgs as [| m msgs IH]; intros sigs rest pre A Hsigs Hlen Hord.
  - destruct rest; [| discriminate Hlen].
    cbn [BitBangUtility.place map List.combine timeline timeline_end].
    rewrite Z.sub_diag. reflexivity.
  - inversion Hsigs as [| ? sig ? sigs' Hsig Hrest]; subst.
    destruct rest as [| r rest]; [discriminate Hlen |].
    cbn [map List.combine timeline timeline_end] in Hord |- *.
    destruct Hord as (Ht & Hord).
    cbn [BitBangUtility.place]. cbn [Z.eqb negb].
    unfold Py.len at 1. rewrite Nat2Z.id, nth_error_app2, Nat.sub_diag by lia.
    cbn [nth_error bind]. rewrite Hsig. cbn [bind].
    set (t := BitBangUtility.row_time r) in *.
    set (pairs := List.combine (map BitBangUtility.row_time rest) sigs') in *.
    pose proof (ordered_end pairs _ Hord) as Hend.
    rewrite overwrite_idle by lia.
    set (A' := A ++ Py.replicate "1"%char (t - Py.len A) ++ sig).
    assert (Py.len A' = t + Py.len sig) as HA'.
    { unfold A'. rewrite !len_app, len_replicate. lia. }
    rewrite <- HA' in Hord |- *.
    replace (Py.len pre + 1) with (Py.len (pre ++ [r]))
      by (rewrite len_app, len_cons, len_nil; lia).
    replace (pre ++ r :: rest) with ((pre ++ [r]) ++ rest)
      by (rewrite <- app_assoc; reflexivity).
    unfold pairs in *.
    rewrite (IH sigs' rest (pre ++ [r]) A' Hrest ltac:(cbn in Hlen; lia) Hord).
    unfold A'. rewrite <- !app_assoc. rewrite !len_app, len_replicate.
    replace (Py.len A + (Z.max 0 (t - Py.len A) + Py.len sig)) with (t + Py.len sig)
      by lia.
    reflexivity.
Qed.

Lemma last_snoc {A : Type} (l : list A) (x : A) : Py.last (l ++ [x]) = Ret x.
Proof.
  unfold Py.last. rewrite rev_app_distr. reflexivity.
Qed.

Lemma timeline_end_snoc (l : list (Z * list ascii)) (t : Z) (sig : list ascii) :
  forall e : Z, timeline_end e (l ++ [(t, sig)]) = t + Py.len sig.
Proof.
  induction l as [| [t' sig'] l IH]; intros e; cbn [app timeline_end];
    [reflexivity | apply IH].
Qed.

Lemma combine_snoc {A B : Type} :
  forall (l l' : list A) (m m' : list B),
    List.length l = List.length m ->
    List.combine (l ++ l') (m ++ m') = List.combine l m ++ List.combine l' m'.
Proof.
  induction l as [| x l IH]; intros l' [| y m] m' Hlen; cbn in Hlen; try lia.
  - reflexivity.
  - cbn [app List.combine]. f_equal. apply IH. lia.
Qed.

(** X20. Original-timing replay. When the rows' start times are in order
    and every signal ends before the next begins (the first time being
    non-negative), the composed timeline holds each signal at exactly its
    row's time with idle samples in the gaps, and ends with the last
    signal: its length is the last row's time plus the last signal's
    length. With no row at all the composition raises [IndexError]. *)
Theorem original_timing_layout :
  forall (rows : list BitBangUtility.row)
         (msgs : list IEBusMessage.t) (sigs : list (list ascii)),
    Py.comprehension
      (fun r => IEBusMessage.__init__ None (Some (BitBangUtility.row_string r))
                                      None None None None None) rows = Ret msgs ->
    Py.comprehension IEBusBitBang.make_output_from_iebus_message msgs = Ret sigs ->
    ordered 0 (List.combine (List.map BitBangUtility.row_time rows) sigs) ->
    let layout := List.combine (List.map BitBangUtility.row_time rows) sigs in
    (rows <> [] ->
     BitBangUtility.compose 0 rows = Ret (timeline 0 layout)
     /\ Py.len (timeline 0 layout) = timeline_end 0 layout)
    /\ (rows = [] -> BitBangUtility.compose 0 rows = Raise IndexError).
Proof.
  intros rows msgs sigs Hmsgs Hsigs Hord layout.
  pose proof (comprehension_Forall2 _ _ _ Hmsgs) as Hm2.
  pose proof (comprehension_Forall2 _ _ _ Hsigs) as Hs2.
  pose proof (Forall2_length Hm2) as Hlm. pose proof (Forall2_length Hs2) as Hls.
  split.
  - intros Hne. split; [| rewrite len_timeline by exact Hord; lia].
    unfold BitBangUtility.compose. rewrite Hmsgs. cbn [bind]. rewrite Hsigs.
    cbn [bind Z.eqb negb].
    destruct (exists_last Hne) as (rows' & r & Hrows).
    assert (sigs <> []) as Hsne.
    { intros ->. rewrite Hrows, length_app in Hlm. cbn in Hlm, Hls. lia. }
    destruct (exists_last Hsne) as (sigs' & sig & Hsigs').
    assert (List.length rows' = List.length sigs') as Hl'.
    { rewrite Hrows, Hsigs', !length_app in *. cbn [List.length] in *. lia. }
    assert (timeline_end 0 layout = BitBangUtility.row_time r + Py.len sig) as Hend.
    { unfold layout. rewrite Hrows, Hsigs', map_app.
      rewrite combine_snoc by (rewrite length_map; exact Hl').
      cbn [map List.combine]. apply timeline_end_snoc. }
    rewrite Hrows at 1. rewrite last_snoc. cbn [bind].
    rewrite Hsigs' at 1. rewrite last_snoc. cbn [bind].
    rewrite <- Hend.
    pose proof (place_timeline msgs sigs rows [] [] Hs2 Hlm Hord) as Hplace.
    cbn [app] in Hplace. rewrite (@len_nil ascii), (@len_nil BitBangUtility.row) in Hplace.
    rewrite Z.sub_0_r in Hplace. exact Hplace.
  - intros ->. reflexivity.
Qed.

Lemma original_timing_layout_witness :
  exists out : list ascii,
    BitBangUtility.compose
      0 [(0, "RX", "- 190 440 f"); (2600, "RX", "B 1ff 000")]%string = Ret out
    /\ Py.len out = 4682.
Proof.
  eexists.
  edestruct (original_timing_layout
               [(0, "RX", "- 190 440 f"); (2600, "RX", "B 1ff 000")]%string)
    as (Hcompose & _).
  - vm_compute. reflexivity.
  - vm_compute. reflexivity.
  - vm_compute. repeat split; discriminate.
  - destruct (Hcompose ltac:(discriminate)) as (Hc & Hl).
    split; [exact Hc |]. rewrite Hl. vm_compute. reflexivity.
Defined.

(** ** Channel selection *)

(** X21. Channel filter and timestamp normalisation. When no decoded row
    is on the requested channel, selection (and so the whole replay, in
    either timing mode) raises [IndexError]. Otherwise it returns the rows
    of that channel in their order, message strings unchanged, every time
    reduced by the time of the first selected row, so the first row starts
    at sample 0 and the distances between rows are kept. *)
Theorem channel_selection :
  forall (channel : string) (rows : list BitBangUtility.row),
    let chosen :=
      List.filter (fun r => String.eqb (BitBangUtility.row_channel r) channel) rows in
    ((forall r, In r rows -> BitBangUtility.row_channel r <> channel) ->
     BitBangUtility.select channel rows = Raise IndexError
     /\ forall regular : Z,
         BitBangUtility.replay regular channel rows = Raise IndexError)
    /\ ((exists r, In r rows /\ BitBangUtility.row_channel r = channel) ->
        exists (first : BitBangUtility.row) (out : list BitBangUtility.row),
          hd_error chosen = Some first
          /\ BitBangUtility.select channel rows = Ret out
          /\ List.length out = List.length chosen
          /\ List.map BitBangUtility.row_string out
             = List.map BitBangUtility.row_string chosen
          /\ List.map BitBangUtility.row_time out
             = List.map (fun r => BitBangUtility.row_time r
                                  - BitBangUtility.row_time first) chosen
          /\ Forall (fun r => BitBangUtility.row_channel r = channel) out
          /\ (exists r0, hd_error out = Some r0 /\ BitBangUtility.row_time r0 = 0)
          /\ forall i j : nat,
              (i < List.length chosen)%nat -> (j < List.length chosen)%nat ->
              BitBangUtility.row_time (List.nth j out first)
              - BitBangUtility.row_time (List.nth i out first)
              = BitBangUtility.row_time (List.nth j chosen first)
                - BitBangUtility.row_time (List.nth i chosen first)).
Proof.
  intros channel rows chosen. split.
  - intros Hnone.
    assert (chosen = []) as Hempty.
    { unfold chosen. induction rows as [| r rows IH]; [reflexivity |].
      cbn [filter]. destruct (String.eqb_spec (BitBangUtility.row_channel r) channel)
        as [Heq | _].
      - exfalso. apply (Hnone r); [left; reflexivity | exact Heq].
      - apply IH. intros r' Hin. apply Hnone. right. exact Hin. }
    assert (BitBangUtility.select channel rows = Raise IndexError) as Hsel.
    { unfold BitBangUtility.select. fold chosen. rewrite Hempty. reflexivity. }
    split; [exact Hsel |]. intros regular. unfold BitBangUtility.replay.
    rewrite Hsel. reflexivity.
  - intros (r & Hin & Hr).
    assert (In r chosen) as Hchosen.
    { unfold chosen. apply filter_In. split; [exact Hin |].
      apply String.eqb_eq, Hr. }
    destruct chosen as [| first rest] eqn:Hc; [contradiction |].
    assert (Forall (fun r => BitBangUtility.row_channel r = channel) (first :: rest))
      as Hall.
    { rewrite <- Hc. apply Forall_forall. intros x Hx. unfold chosen in Hx.
      apply filter_In in Hx. apply String.eqb_eq, Hx. }
    set (shift := fun r : BitBangUtility.row =>
                    (BitBangUtility.row_time r - BitBangUtility.row_time first,
                     BitBangUtility.row_channel r, BitBangUtility.row_string r)).
    exists first, (List.map shift (first :: rest)).
    split; [reflexivity |].
    split; [unfold BitBangUtility.select; fold chosen; rewrite Hc; reflexivity |].
    split; [apply length_map |].
    split; [rewrite map_map; reflexivity |].
    split; [rewrite map_map; reflexivity |].
    split.
    { apply Forall_forall. intros x Hx. apply in_map_iff in Hx.
      destruct Hx as (y & <- & Hy). rewrite Forall_forall in Hall. apply (Hall y Hy). }
    split.
    { exists (shift first). split; [reflexivity |].
      unfold shift, BitBangUtility.row_time. cbn [fst]. lia. }
    intros i j Hi Hj.
    rewrite !(nth_indep (List.map shift (first :: rest)) first (shift first))
      by (rewrite length_map; assumption).
    rewrite !(map_nth shift).
    unfold shift, BitBangUtility.row_time. cbn [fst]. lia.
Qed.

(** ** The display string *)

Lemma append_assoc (a b c : string) : ((a ++ b) ++ c = a ++ (b ++ c))%string.
Proof.
  induction a as [| ch a IH]; [reflexivity |]. cbn [String.append]. f_equal. exact IH.
Qed.

Lemma append_nil_r (a : string) : (a ++ "" = a)%string.
Proof.
  induction a as [| ch a IH]; [reflexivity |]. cbn [String.append]. f_equal. exact IH.
Qed.

Lemma str_data_getDataFrom (buf : list Z) (n : nat) :
  forall (i : Z) (messageStr : string),
    IEBusMessage.str_data buf i n messageStr
    = (l <- IEBusMessage.getDataFrom buf i n ;;
       Ret (messageStr ++ display_data l)%string).
Proof.
  induction n as [| n IH]; intros i messageStr.
  - cbn [IEBusMessage.str_data IEBusMessage.getDataFrom bind display_data fold_right].
    rewrite append_nil_r. reflexivity.
  - cbn [IEBusMessage.str_data IEBusMessage.getDataFrom].
    destruct (IEBusMessage.getField buf (IEBusMessage.Data i)) as [d | e |];
      cbn [bind]; try reflexivity.
    rewrite IH.
    destruct (IEBusMessage.getDataFrom buf (i + 1) n) as [l | e |];
      cbn [bind]; try reflexivity.
    cbn [display_data fold_right]. fold (display_data l).
    rewrite !append_assoc. reflexivity.
Qed.

(** X22. The display string and the payload accessor. On a 68-byte buffer
    of bytes with stored data length [n]: when [n <= 48], [getData] returns
    [n] bytes and [__str__] returns the header (flag, addresses as three
    hexadecimal digits, control as one, the length in decimal, a colon)
    followed by exactly the bytes of [getData], each as two hexadecimal
    digits and a space; when [n >= 49] both raise [struct.error], the
    window of data byte 48 lying beyond the buffer. (Validation already
    fails from [n = 48] on.) *)
Theorem display_string :
  forall m : IEBusMessage.t,
    wf_bytes (IEBusMessage.message_bytes m) ->
    Py.len (IEBusMessage.message_bytes m) = 68 ->
    exists n b ma sl c : Z,
      IEBusMessage.getField (IEBusMessage.message_bytes m) IEBusMessage.DataLength
      = Ret n
      /\ IEBusMessage.getField (IEBusMessage.message_bytes m) IEBusMessage.Broadcast
         = Ret b
      /\ IEBusMessage.getField (IEBusMessage.message_bytes m)
                               IEBusMessage.MasterAddress = Ret ma
      /\ IEBusMessage.getField (IEBusMessage.message_bytes m)
                               IEBusMessage.SlaveAddress = Ret sl
      /\ IEBusMessage.getField (IEBusMessage.message_bytes m) IEBusMessage.Control
         = Ret c
      /\ (n <= 48 ->
          exists data : list Z,
            IEBusMessage.getData m = Ret data
            /\ Py.len data = n
            /\ IEBusMessage.__str__ m
               = Ret (display_header b ma sl c n ++ display_data data)%string)
      /\ (49 <= n ->
          IEBusMessage.getData m = Raise (struct_error buffer_too_small)
          /\ IEBusMessage.__str__ m = Raise (struct_error buffer_too_small)).
Proof.
  intros [buf fields] Hwf Hlen. cbn [IEBusMessage.message_bytes] in *.
  assert (List.length buf = 68%nat) as Hlen' by (unfold Py.len in Hlen; lia).
  destruct (getField_returns buf IEBusMessage.DataLength Hwf Hlen')
    as (n & Hn & Hnr); try (cbn; lia).
  destruct (getField_returns buf IEBusMessage.Broadcast Hwf Hlen')
    as (b & Hb & _); try (cbn; lia).
  destruct (getField_returns buf IEBusMessage.MasterAddress Hwf Hlen')
    as (ma & Hma & _); try (cbn; lia).
  destruct (getField_returns buf IEBusMessage.SlaveAddress Hwf Hlen')
    as (sl & Hsl & _); try (cbn; lia).
  destruct (getField_returns buf IEBusMessage.Control Hwf Hlen')
    as (c & Hc & _); try (cbn; lia).
  exists n, b, ma, sl, c. repeat (split; [assumption |]).
  unfold IEBusMessage.getData, IEBusMessage.__str__.
  cbn [IEBusMessage.message_bytes]. rewrite Hn, Hb, Hma, Hsl, Hc. cbn [bind].
  rewrite str_data_getDataFrom. fold (display_header b ma sl c n).
  split.
  - intros H48.
    destruct (getDataFrom_returns buf (Z.to_nat n) 0 Hwf Hlen')
      as (data & Hdata & Hl); try lia.
    exists data. rewrite Hdata. cbn [bind].
    split; [reflexivity |]. split; [unfold Py.len; lia | reflexivity].
  - intros H49.
    rewrite (getDataFrom_raises buf (Z.to_nat n) 0 Hwf Hlen') by lia.
    split; reflexivity.
Qed.

Lemma display_string_witness :
  exists n b ma sl c : Z,
    IEBusMessage.getField (Py.replicate 0 68) IEBusMessage.DataLength = Ret n
    /\ IEBusMessage.getField (Py.replicate 0 68) IEBusMessage.Broadcast = Ret b
    /\ IEBusMessage.getField (Py.replicate 0 68) IEBusMessage.MasterAddress = Ret ma
    /\ IEBusMessage.getField (Py.replicate 0 68) IEBusMessage.SlaveAddress = Ret sl
    /\ IEBusMessage.getField (Py.replicate 0 68) IEBusMessage.Control = Ret c
    /\ (n <= 48 ->
        exists data : list Z,
          IEBusMessage.getData (IEBusMessage.mkMessage (Py.replicate 0 68) None)
          = Ret data
          /\ Py.len data = n
          /\ IEBusMessage.__str__ (IEBusMessage.mkMessage (Py.replicate 0 68) None)
             = Ret (display_header b ma sl c n ++ display_data data)%string)
    /\ (49 <= n ->
        IEBusMessage.getData (IEBusMessage.mkMessage (Py.replicate 0 68) None)
        = Raise (struct_error buffer_too_small)
        /\ IEBusMessage.__str__ (IEBusMessage.mkMessage (Py.replicate 0 68) None)
           = Raise (struct_error buffer_too_small)).
Proof.
  apply (display_string (IEBusMessage.mkMessage (Py.replicate 0 68) None)).
  - apply wf_zero.
  - vm_compute. reflexivity.
Defined.

(** ** Reading a display string back *)

Lemma remove_char_app (c : ascii) (a b : string) :
  PyStr.remove_char c (a ++ b)
  = (PyStr.remove_char c a ++ PyStr.remove_char c b)%string.
Proof.
  induction a as [| ch a IH]; [reflexivity |].
  cbn [String.append PyStr.remove_char]. destruct (Ascii.eqb ch c); [exact IH |].
  cbn [String.append]. f_equal. exact IH.
Qed.

Lemma remove_char_word (w : string) :
  is_word w = true -> PyStr.remove_char ":"%char w = w.
Proof.
  intros Hw.
  assert (List.forallb
            (fun ch => negb (PyStr.is_space ch) && negb (Ascii.eqb ch ":"%char))
            (list_ascii_of_string w) = true) as Hall
      by (destruct w; [discriminate Hw | exact Hw]).
  clear Hw. induction w as [| ch w IH]; [reflexivity |].
  cbn [list_ascii_of_string forallb] in Hall.
  apply andb_prop in Hall. destruct Hall as (Hch & Hall).
  apply andb_prop in Hch. destruct Hch as (_ & Hch).
  cbn [PyStr.remove_char]. destruct (Ascii.eqb ch ":"%char); [discriminate Hch |].
  f_equal. apply IH, Hall.
Qed.

Lemma split_aux_nonspace (w : string) :
  forall (s : string) (cur : list ascii),
    List.forallb
      (fun ch => negb (PyStr.is_space ch) && negb (Ascii.eqb ch ":"%char))
      (list_ascii_of_string w) = true ->
    PyStr.split_aux (w ++ s) cur
    = PyStr.split_aux s (List.rev (list_ascii_of_string w) ++ cur).
Proof.
  induction w as [| ch w IH]; intros s cur Hall; [reflexivity |].
  cbn [list_ascii_of_string forallb] in Hall.
  apply andb_prop in Hall. destruct Hall as (Hch & Hall).
  apply andb_prop in Hch. destruct Hch as (Hch & _).
  cbn [String.append PyStr.split_aux].
  destruct (PyStr.is_space ch); [discriminate Hch |].
  rewrite IH by exact Hall. cbn [list_ascii_of_string List.rev].
  rewrite <- app_assoc. reflexivity.
Qed.

Lemma split_aux_word (w s : string) :
  is_word w = true ->
  PyStr.split_aux (w ++ (" " ++ s)) [] = w :: PyStr.split_aux s [].
Proof.
  intros Hw. destruct w as [| ch w]; [discriminate Hw |].
  rewrite split_aux_nonspace by exact Hw.
  rewrite app_nil_r. cbn [String.append PyStr.split_aux].
  change (PyStr.is_space " "%char) with true. cbv iota.
  assert (PyStr.rev_string (List.rev (list_ascii_of_string (String ch w)))
          = String ch w) as Hrev.
  { unfold PyStr.rev_string. rewrite rev_involutive.
    apply string_of_list_ascii_of_string. }
  destruct (List.rev (list_ascii_of_string (String ch w))) as [| x r] eqn:Hcur.
  - apply (f_equal (@List.length ascii)) in Hcur.
    rewrite length_rev in Hcur. discriminate Hcur.
  - rewrite Hrev. reflexivity.
Qed.

Lemma split_aux_space (s : string) :
  PyStr.split_aux (" " ++ s) [] = PyStr.split_aux s [].
Proof. reflexivity. Qed.

(** Hexadecimal formatting gives a token that [int(.., 16)] reads back. *)
Lemma hex_tokens (width bound : nat) :
  List.forallb
    (fun k =>
       is_word (PyStr.format_int true width 16 (Z.of_nat k))
       && match PyStr.int (PyStr.format_int true width 16 (Z.of_nat k)) 16 with
          | Ret x => x =? Z.of_nat k
          | _ => false
          end)
    (List.seq 0 bound) = true ->
  forall v : Z,
    0 <= v < Z.of_nat bound ->
    is_word (PyStr.format_int true width 16 v) = true
    /\ PyStr.int (PyStr.format_int true width 16 v) 16 = Ret v.
Proof.
  intros Hall v Hv. rewrite forallb_forall in Hall.
  specialize (Hall (Z.to_nat v) ltac:(apply in_seq; lia)).
  rewrite Z2Nat.id in Hall by lia.
  apply andb_prop in Hall. destruct Hall as (Hw & Hint).
  split; [exact Hw |].
  destruct (PyStr.int (PyStr.format_int true width 16 v) 16) as [x | |];
    try discriminate Hint.
  apply Z.eqb_eq in Hint. subst x. reflexivity.
Qed.

Lemma hex3_token (v : Z) :
  0 <= v < 2 ^ 12 ->
  is_word (PyStr.format_int true 3 16 v) = true
  /\ PyStr.int (PyStr.format_int true 3 16 v) 16 = Ret v.
Proof.
  intros Hv. apply (hex_tokens 3 4096); [vm_compute; reflexivity |].
  change (2 ^ 12) with 4096 in Hv. lia.
Qed.

Lemma hex2_token (v : Z) :
  0 <= v < 256 ->
  is_word (PyStr.format_int true 2 16 v) = true
  /\ PyStr.int (PyStr.format_int true 2 16 v) 16 = Ret v.
Proof.
  intros Hv. apply (hex_tokens 2 256); [vm_compute; reflexivity | lia].
Qed.

Lemma hex1_token (v : Z) :
  0 <= v < 2 ^ 4 ->
  is_word (PyStr.format_int true 1 16 v) = true
  /\ PyStr.int (PyStr.format_int true 1 16 v) 16 = Ret v.
Proof.
  intros Hv. apply (hex_tokens 1 16); [vm_compute; reflexivity |].
  change (2 ^ 4) with 16 in Hv. lia.
Qed.

(** The length is written in decimal, right-aligned in two columns; read
    as hexadecimal, its digits give [reread n]. *)
Lemma decimal_token (n : Z) :
  0 <= n < 100 ->
  PyStr.format_int false 2 10 n
  = ((if (n <? 10)%Z then " " else "") ++ PyStr.format_int false 1 10 n)%string
  /\ is_word (PyStr.format_int false 1 10 n) = true
  /\ PyStr.int (PyStr.format_int false 1 10 n) 16 = Ret (reread n).
Proof.
  intros Hn.
  assert (List.forallb
            (fun k =>
               let n := Z.of_nat k in
               String.eqb (PyStr.format_int false 2 10 n)
                          ((if (n <? 10)%Z then " " else "")
                           ++ PyStr.format_int false 1 10 n)
               && is_word (PyStr.format_int false 1 10 n)
               && match PyStr.int (PyStr.format_int false 1 10 n) 16 with
                  | Ret x => x =? reread n
                  | _ => false
                  end)
            (List.seq 0 100) = true) as Hall by (vm_compute; reflexivity).
  rewrite forallb_forall in Hall.
  specialize (Hall (Z.to_nat n) ltac:(apply in_seq; lia)).
  cbv zeta in Hall. rewrite Z2Nat.id in Hall by lia.
  apply andb_prop in Hall. destruct Hall as (Hall & Hint).
  apply andb_prop in Hall. destruct Hall as (Heq & Hw).
  split; [apply String.eqb_eq, Heq |]. split; [exact Hw |].
  destruct (PyStr.int (PyStr.format_int false 1 10 n) 16) as [x | |];
    try discriminate Hint.
  apply Z.eqb_eq in Hint. subst x. reflexivity.
Qed.

Lemma display_data_cons (x : Z) (l : list Z) :
  display_data (x :: l)
  = (PyStr.format_int true 2 16 x ++ (" " ++ display_data l))%string.
Proof. reflexivity. Qed.

Lemma display_data_tokens (d : list Z) :
  Forall (fun x => 0 <= x < 256) d ->
  PyStr.remove_char ":"%char (display_data d) = display_data d
  /\ PyStr.split_aux (display_data d) [] = List.map (PyStr.format_int true 2 16) d
  /\ IEBusMessage.parse_data (List.map (PyStr.format_int true 2 16) d) = Ret d.
Proof.
  induction 1 as [| x l Hx Hl (IHr & IHs & IHp)]; [repeat split |].
  destruct (hex2_token x Hx) as (Hw & Hint).
  rewrite display_data_cons. split; [| split].
  - rewrite !remove_char_app, remove_char_word, IHr by exact Hw. reflexivity.
  - rewrite split_aux_word by exact Hw. cbn [map]. f_equal. exact IHs.
  - cbn [map IEBusMessage.parse_data]. rewrite Hint. cbn [bind].
    rewrite IHp. reflexivity.
Qed.

Lemma display_tokens (b ma sl c n : Z) (d : list Z) :
  0 <= ma < 2 ^ 12 -> 0 <= sl < 2 ^ 12 -> 0 <= c < 2 ^ 4 -> 0 <= n < 100 ->
  Forall (fun x => 0 <= x < 256) d ->
  PyStr.split
    (PyStr.remove_char ":"%char (display_header b ma sl c n ++ display_data d))
  = (if (b =? IEBusMessage.BROADCAST)%Z then "B" else "-")%string
    :: PyStr.format_int true 3 16 ma
    :: PyStr.format_int true 3 16 sl
    :: PyStr.format_int true 1 16 c
    :: PyStr.format_int false 1 10 n
    :: List.map (PyStr.format_int true 2 16) d.
Proof.
  intros Hma Hsl Hc Hn Hd.
  destruct (hex3_token ma Hma) as (Wma & _).
  destruct (hex3_token sl Hsl) as (Wsl & _).
  destruct (hex1_token c Hc) as (Wc & _).
  destruct (decimal_token n Hn) as (Hdec & Wn & _).
  destruct (display_data_tokens d Hd) as (Hr & Hs & _).
  unfold display_header, PyStr.split. rewrite Hdec.
  set (flag := (if (b =? IEBusMessage.BROADCAST)%Z then "B" else "-")%string).
  assert (is_word flag = true) as Wflag
      by (unfold flag; destruct (b =? IEBusMessage.BROADCAST); reflexivity).
  set (pad := (if (n <? 10)%Z then " " else "")%string).
  rewrite !append_assoc, !remove_char_app.
  rewrite (remove_char_word _ Wflag), (remove_char_word _ Wma),
    (remove_char_word _ Wsl), (remove_char_word _ Wc), (remove_char_word _ Wn), Hr.
  assert (PyStr.remove_char ":"%char pad = pad) as ->
      by (unfold pad; destruct (n <? 10); reflexivity).
  change (PyStr.remove_char ":"%char " ") with " "%string.
  change (PyStr.remove_char ":"%char " : ") with (" " ++ (" " ++ ""))%string.
  rewrite !split_aux_word by assumption.
  assert (forall s, PyStr.split_aux (pad ++ s) [] = PyStr.split_aux s []) as ->
      by (intros s0; unfold pad; destruct (n <? 10); reflexivity).
  rewrite !append_assoc.
  rewrite split_aux_word by exact Wn.
  rewrite split_aux_space. cbn [String.append]. rewrite Hs. reflexivity.
Qed.

(** X23. The display string is not the input format. For a message built
    from in-range fields with at most 45 data bytes, [__str__] returns a
    string which the token-string constructor accepts, but the message it
    builds is a different one: flag and addresses are kept, control is 0xF,
    and the data are the control value, then the decimal digits of the
    length read as hexadecimal, then the original data bytes, so the data
    length grows by two. *)
Theorem display_string_reparsed :
  forall (b ma sl c : option Z) (data : option (list Z)),
    in_range b 1 -> in_range ma 12 -> in_range sl 12 -> in_range c 4 ->
    (forall d, data = Some d ->
               Forall (fun x => 0 <= x < 256) d /\ Py.len d <= 45) ->
    exists (m m' : IEBusMessage.t) (s : string),
      let d := match data with Some d => d | None => [] end in
      IEBusMessage.__init__ None None b ma sl c data = Ret m
      /\ IEBusMessage.__str__ m = Ret s
      /\ IEBusMessage.__init__ None (Some s) None None None None None = Ret m'
      /\ IEBusMessage.getField (IEBusMessage.message_bytes m') IEBusMessage.Broadcast
         = Ret (arg_value b)
      /\ IEBusMessage.getField (IEBusMessage.message_bytes m')
                               IEBusMessage.MasterAddress = Ret (arg_value ma)
      /\ IEBusMessage.getField (IEBusMessage.message_bytes m')
                               IEBusMessage.SlaveAddress = Ret (arg_value sl)
      /\ IEBusMessage.getField (IEBusMessage.message_bytes m') IEBusMessage.Control
         = Ret 0xF
      /\ IEBusMessage.getField (IEBusMessage.message_bytes m') IEBusMessage.DataLength
         = Ret (Py.len d + 2)
      /\ IEBusMessage.getData m'
         = Ret (arg_value c :: reread (Py.len d) :: d)
      /\ IEBusMessage.isValid m' = Ret true.
Proof.
  intros b ma sl c data Hb Hma Hsl Hc Hdata.
  set (d := match data with Some d => d | None => [] end).
  assert (Forall (fun x => 0 <= x < 256) d /\ Py.len d <= 45) as (Hd & Hlen).
  { unfold d. destruct data as [d0 |]; [apply Hdata; reflexivity |].
    split; [apply Forall_nil | rewrite (@len_nil Z); lia]. }
  pose proof (Zle_0_nat (List.length d)) as Hk. fold (Py.len d) in Hk.
  assert (forall (o : option Z) (w : Z),
             0 < w -> in_range o w -> 0 <= arg_value o < 2 ^ w) as Harg.
  { intros [v |] w Hw Ho; [apply Ho; reflexivity |]. cbn [arg_value].
    split; [lia |]. apply Z.pow_pos_nonneg; lia. }
  pose proof (Harg b 1 ltac:(lia) Hb) as Hvb.
  pose proof (Harg ma 12 ltac:(lia) Hma) as Hvma.
  pose proof (Harg sl 12 ltac:(lia) Hsl) as Hvsl.
  pose proof (Harg c 4 ltac:(lia) Hc) as Hvc.
  destruct (init_fields_holds b ma sl c data Hb Hma Hsl Hc) as (buf & Hinit & Hholds & _).
  { intros d0 Hd0. destruct (Hdata d0 Hd0). split; [assumption | lia]. }
  fold d in Hholds.
  pose proof (getData_of_holds buf None _ _ _ _ _ Hholds) as HgetData.
  destruct Hholds as (Hwf & Hlen68 & HB & (_ & HM & _) & (_ & HS & _) & (_ & HC & _)
                      & (_ & HL & _) & _ & _).
  set (s := (display_header (arg_value b) (arg_value ma) (arg_value sl)
                            (arg_value c) (Py.len d) ++ display_data d)%string).
  assert (IEBusMessage.__str__ (IEBusMessage.mkMessage buf None) = Ret s) as Hstr.
  { unfold IEBusMessage.__str__. cbn [IEBusMessage.message_bytes].
    rewrite HL, HB, HM, HS, HC. cbn [bind]. rewrite str_data_getDataFrom.
    unfold IEBusMessage.getData in HgetData.
    cbn [IEBusMessage.message_bytes] in HgetData. rewrite HL in HgetData.
    cbn [bind] in HgetData. rewrite HgetData. reflexivity. }
  assert (token_values s
          = Ret (arg_value ma, arg_value sl,
                 arg_value c :: reread (Py.len d) :: d)) as Htok.
  { unfold token_values, s. rewrite display_tokens by (try assumption; lia).
    cbn [IEBusMessage.part nth_error bind skipn].
    destruct (hex3_token _ Hvma) as (_ & ->). cbn [bind].
    destruct (hex3_token _ Hvsl) as (_ & ->). cbn [bind].
    cbn [IEBusMessage.parse_data].
    destruct (hex1_token _ Hvc) as (_ & ->). cbn [bind].
    destruct (decimal_token (Py.len d) ltac:(lia)) as (_ & _ & ->). cbn [bind].
    destruct (display_data_tokens d Hd) as (_ & _ & ->). reflexivity. }
  destruct (init_of_tokens s _ _ _ Htok) as (vb & Hvb' & Hinit').
  assert (vb = arg_value b) as ->.
  { rewrite Hvb'. unfold s. rewrite display_tokens by (try assumption; lia).
    cbn [List.hd]. unfold IEBusMessage.BROADCAST, IEBusMessage.UNICAST.
    change (2 ^ 1) with 2 in Hvb.
    destruct (Z.eqb_spec (arg_value b) 0) as [-> | Hne]; cbn; lia. }
  assert (0 <= reread (Py.len d) < 256) as Hre
      by (unfold reread; Z.div_mod_to_equations; lia).
  destruct (init_fields_holds (Some (arg_value b)) (Some (arg_value ma))
                              (Some (arg_value sl)) (Some 15)
                              (Some (arg_value c :: reread (Py.len d) :: d)))
    as (buf' & Hfields' & Hholds' & _).
  { intros v [= <-]. exact Hvb. }
  { intros v [= <-]. exact Hvma. }
  { intros v [= <-]. exact Hvsl. }
  { intros v [= <-]. lia. }
  { intros d0 [= <-]. split.
    - apply Forall_cons; [change (2 ^ 4) with 16 in Hvc; lia |].
      apply Forall_cons; [exact Hre | exact Hd].
    - rewrite !len_cons. lia. }
  cbn [arg_value] in Hholds'.
  pose proof (getData_of_holds buf' None _ _ _ _ _ Hholds') as HgetData'.
  pose proof (isValid_of_holds buf' None _ _ _ _ _ Hholds') as Hvalid'.
  destruct Hholds' as (_ & _ & HB' & (_ & HM' & _) & (_ & HS' & _) & (_ & HC' & _)
                       & (_ & HL' & _) & _ & _).
  exists (IEBusMessage.mkMessage buf None), (IEBusMessage.mkMessage buf' None), s.
  cbv zeta. cbn [IEBusMessage.message_bytes]. fold d.
  split.
  { destruct b, ma, sl, c, data; exact Hinit. }
  split; [exact Hstr |].
  split; [rewrite Hinit'; exact Hfields' |].
  split; [exact HB' |]. split; [exact HM' |]. split; [exact HS' |].
  split; [exact HC' |].
  split; [rewrite HL', !len_cons; f_equal; lia |].
  split; [exact HgetData' | exact Hvalid'].
Qed.

Lemma display_string_reparsed_witness :
  exists (m m' : IEBusMessage.t) (s : string),
    IEBusMessage.__init__ None None (Some 1) (Some 0x190) (Some 0x440) (Some 0xF)
                          (Some [0; 0x25; 0x74]) = Ret m
    /\ IEBusMessage.__str__ m = Ret s
    /\ IEBusMessage.__init__ None (Some s) None None None None None = Ret m'
    /\ IEBusMessage.getData m' = Ret [0xF; 3; 0; 0x25; 0x74].
Proof.
  destruct (display_string_reparsed (Some 1) (Some 0x190) (Some 0x440) (Some 0xF)
                                    (Some [0; 0x25; 0x74]))
    as (m & m' & s & Hm & Hs & Hm' & _ & _ & _ & _ & _ & Hd & _).
  - intros v [= <-]. lia.
  - intros v [= <-]. lia.
  - intros v [= <-]. lia.
  - intros v [= <-]. lia.
  - intros d [= <-]. split; [| vm_compute; discriminate].
    repeat (apply Forall_cons; [lia |]). apply Forall_nil.
  - exists m, m', s. repeat split; assumption.
Defined.
